(** * WSlogviewer: the normalization and filtering engine of [AppComponent]

    A shallow embedding of [src/app/app.component.ts] (the [AppComponent]
    class with multi-select filters and pretty metadata blocks) and the
    properties of its event resolver, event normalizer, metadata summarizer
    and filter engine.

    Conventions of the embedding.
    - A parsed JSON value is a [JValue]; an object is the list of its own
      properties in enumeration order.  The JavaScript value [undefined]
      (a missing property, the result of [?.] on [null]) is [None] of
      [option JValue].
    - A string is a [string] of 8-bit characters, the code units below
      256; case mapping and white space are those of JavaScript on that
      range.  The upper-case forms of two characters are no 8-bit
      characters (see [Str.upperChar]).
    - A number is an integer [Z], one of the integer-valued numbers of
      magnitude at most [2^53], which are exact and whose [String(n)] is
      their decimal expansion; or negative zero or an infinity.  The other
      numbers, those with a fraction and the larger finite ones, are no
      values of the embedding; the reference parser reads no text that
      holds one.
    - The two services of the JavaScript engine whose result is not fixed by
      the program, [String.prototype.localeCompare] and [JSON.parse] of
      arbitrary text, are the methods of the class [JsEngine]. *)

From Stdlib Require Import Bool Arith ZArith List Ascii String Lia.
From Stdlib Require Import DecimalString DecimalFacts DecimalPos DecimalZ.
From Stdlib Require Import Sorted Permutation.
Import ListNotations.

Local Open Scope list_scope.
Local Open Scope string_scope.
Local Open Scope nat_scope.

(** ** Strings *)

Module Str.

Definition code (c : ascii) : nat := nat_of_ascii c.

Definition isLower (c : ascii) : bool := (97 <=? code c) && (code c <=? 122).
Definition isUpper (c : ascii) : bool := (65 <=? code c) && (code c <=? 90).
Definition isDigit (c : ascii) : bool := (48 <=? code c) && (code c <=? 57).

(** The letters U+00E0..U+00FE but the division sign, and U+00C0..U+00DE
    but the multiplication sign: the 8-bit letters outside ASCII that have
    an 8-bit form in the other case. *)
Definition isLowerLatin (c : ascii) : bool :=
  (224 <=? code c) && (code c <=? 254) && negb (code c =? 247).
Definition isUpperLatin (c : ascii) : bool :=
  (192 <=? code c) && (code c <=? 222) && negb (code c =? 215).

(** The upper-case form of a character that has one 8-bit character for
    it, and the lower-case form of a character.  The upper-case forms of
    U+00B5 (micro sign) and U+00FF, which are U+039C and U+0178, are no
    8-bit characters: the two characters stand for their own upper-case
    forms, which like them are no ASCII characters and no white space. *)
Definition upperChar (c : ascii) : ascii :=
  if isLower c || isLowerLatin c then ascii_of_nat (code c - 32) else c.
Definition lowerChar (c : ascii) : ascii :=
  if isUpper c || isUpperLatin c then ascii_of_nat (code c + 32) else c.

(** The upper-case form of a character: U+00DF (sharp s) becomes [SS]. *)
Definition upperUnits (c : ascii) : string :=
  if code c =? 223 then "SS" else String (upperChar c) "".

Fixpoint map (f : ascii -> ascii) (s : string) : string :=
  match s with
  | EmptyString => EmptyString
  | String c r => String (f c) (map f r)
  end.

(** [s.toUpperCase()], [s.toLowerCase()] *)
Fixpoint toUpperCase (s : string) : string :=
  match s with
  | EmptyString => EmptyString
  | String c r => upperUnits c ++ toUpperCase r
  end.
Definition toLowerCase : string -> string := map lowerChar.

(** White space and line terminators of [String.prototype.trim]:
    TAB, LF, VT, FF, CR, SP and NBSP. *)
Definition isSpace (c : ascii) : bool :=
  ((9 <=? code c) && (code c <=? 13)) || (code c =? 32) || (code c =? 160).

Fixpoint trimStart (s : string) : string :=
  match s with
  | EmptyString => EmptyString
  | String c r => if isSpace c then trimStart r else s
  end.

Fixpoint trimEnd (s : string) : string :=
  match s with
  | EmptyString => EmptyString
  | String c r =>
      match trimEnd r with
      | EmptyString => if isSpace c then EmptyString else String c EmptyString
      | r' => String c r'
      end
  end.

(** [s.trim()] *)
Definition trim (s : string) : string := trimEnd (trimStart s).

(** JavaScript truthiness of a string: it is not empty. *)
Definition nonEmpty (s : string) : bool := negb (String.eqb s "").

(** [a || b] on strings. *)
Definition orElse (a b : string) : string := if nonEmpty a then a else b.

(** [s.includes(sub)] *)
Fixpoint includes (s sub : string) : bool :=
  String.prefix sub s ||
  match s with
  | EmptyString => false
  | String _ r => includes r sub
  end.

(** [s.slice(0, n)] for [0 <= n] *)
Definition slice0 (n : nat) (s : string) : string := String.substring 0 n s.

(** [parts.join(sep)] *)
Definition join (sep : string) (parts : list string) : string :=
  String.concat sep parts.

(** [String(n)] for an integer-valued number *)
Definition ofZ (z : Z) : string := NilZero.string_of_int (Z.to_int z).

(** [String(n)] for an array index or a length *)
Definition ofNat (n : nat) : string := ofZ (Z.of_nat n).

(** [s.padStart(n, "0")] *)
Definition padZeros (n : nat) (s : string) : string :=
  string_of_list_ascii (repeat "0"%char (n - String.length s)) ++ s.

(** [xs.includes(x)] on an array of strings *)
Definition mem (x : string) (xs : list string) : bool :=
  existsb (String.eqb x) xs.

(** [Array.from(new Set(xs))]: first occurrences, in order. *)
Fixpoint dedupe_aux (seen : list string) (xs : list string) : list string :=
  match xs with
  | [] => []
  | x :: r => if mem x seen then dedupe_aux seen r
              else x :: dedupe_aux (x :: seen) r
  end.
Definition dedupe (xs : list string) : list string := dedupe_aux [] xs.

End Str.

(** ** JSON values *)

(** The numbers that are no integer of [Z]: negative zero, and the two
    infinities, which [JSON.parse] returns for a literal whose value is too
    large for a number. *)
Inductive Special : Type :=
| NegativeZero
| PositiveInfinity
| NegativeInfinity.

Unset Elimination Schemes.
Inductive JValue : Type :=
| JNull
| JBool (b : bool)
| JNum (z : Z)
| JSpecial (x : Special)
| JStr (s : string)
| JArr (items : list JValue)
| JObj (props : list (string * JValue)).
Set Elimination Schemes.

(** [Record<string, unknown>] *)
Definition JRecord : Type := list (string * JValue).

(** [record[key]]: [None] is [undefined]. *)
Fixpoint getProp (r : JRecord) (key : string) : option JValue :=
  match r with
  | [] => None
  | (k, v) :: rest => if String.eqb k key then Some v else getProp rest key
  end.

(** [record?.[key]] on a record that may be [null]. *)
Definition getOpt (r : option JRecord) (key : string) : option JValue :=
  match r with
  | Some o => getProp o key
  | None => None
  end.

(** [Object.keys(record)], [Object.values(record)] *)
Definition objectKeys (r : JRecord) : list string := List.map fst r.
Definition objectValues (r : JRecord) : list JValue := List.map snd r.

(** [asRecord]: the value itself when it is a non-null, non-array object. *)
Definition asRecord (value : option JValue) : option JRecord :=
  match value with
  | Some (JObj o) => Some o
  | _ => None
  end.

(** [String(n)] for negative zero and the infinities *)
Definition specialToString (x : Special) : string :=
  match x with
  | NegativeZero => "0"
  | PositiveInfinity => "Infinity"
  | NegativeInfinity => "-Infinity"
  end.

(** [valueToInlineString] *)
Definition valueToInlineString (value : option JValue) : string :=
  match value with
  | Some (JStr s) => s
  | Some (JNum z) => Str.ofZ z
  | Some (JSpecial x) => specialToString x
  | Some (JBool true) => "true"
  | Some (JBool false) => "false"
  | _ => ""
  end.

(** [firstInline] *)
Fixpoint firstInline (values : list (option JValue)) : string :=
  match values with
  | [] => ""
  | value :: rest =>
      let text := valueToInlineString value in
      if Str.nonEmpty text then text else firstInline rest
  end.

(** [firstDefined]: the first value that is neither [undefined] nor [null]. *)
Fixpoint firstDefined (values : list (option JValue)) : option JValue :=
  match values with
  | [] => None
  | value :: rest =>
      match value with
      | None | Some JNull => firstDefined rest
      | Some v => Some v
      end
  end.

(** ** Dates: [new Date(ms).toISOString()] *)

Module DateIso.

Local Open Scope Z_scope.

Definition msPerDay : Z := 86400000.

(** Largest time value of a valid [Date]. *)
Definition maxTime : Z := 8640000000000000.

(** Civil date of a day number counted from 1970-01-01 (proleptic
    Gregorian calendar). *)
Definition civilFromDays (days : Z) : Z * Z * Z :=
  let z := days + 719468 in
  let era := z / 146097 in
  let doe := z - era * 146097 in
  let yoe := (doe - doe / 1460 + doe / 36524 - doe / 146096) / 365 in
  let doy := doe - (365 * yoe + yoe / 4 - yoe / 100) in
  let mp := (5 * doy + 2) / 153 in
  let d := doy - (153 * mp + 2) / 5 + 1 in
  let m := if mp <? 10 then mp + 3 else mp - 9 in
  let y := yoe + era * 400 + (if m <=? 2 then 1 else 0) in
  (y, m, d).

Definition pad (n : nat) (z : Z) : string := Str.padZeros n (Str.ofZ z).

Definition yearString (y : Z) : string :=
  if (0 <=? y) && (y <=? 9999) then pad 4 y
  else if y <? 0 then "-" ++ pad 6 (- y)
  else "+" ++ pad 6 y.

(** [None] when the date is invalid ([asDate.valueOf()] is [NaN]). *)
Definition toISOString (ms : Z) : option string :=
  if (- maxTime <=? ms) && (ms <=? maxTime) then
    let days := ms / msPerDay in
    let rest := ms mod msPerDay in
    let '(y, m, d) := civilFromDays days in
    Some (yearString y ++ "-" ++ pad 2 m ++ "-" ++ pad 2 d ++ "T" ++
          pad 2 (rest / 3600000) ++ ":" ++ pad 2 (rest / 60000 mod 60) ++ ":" ++
          pad 2 (rest / 1000 mod 60) ++ "." ++ pad 3 (rest mod 1000) ++ "Z")%string
  else None.

End DateIso.

(** [normalizeTimestamp] *)
Definition normalizeTimestamp (value : option JValue) : string :=
  let asText := valueToInlineString value in
  if Str.nonEmpty asText then asText
  else
    match value with
    | Some (JNum z) =>
        let raw := z in
        let milliseconds := if (99999999999 <? raw)%Z then raw else (raw * 1000)%Z in
        match DateIso.toISOString milliseconds with
        | Some iso => iso
        | None => Str.ofZ z
        end
    | Some (JSpecial NegativeZero) =>
        match DateIso.toISOString 0 with
        | Some iso => iso
        | None => "0"
        end
    | _ => "-"
    end.

(** ** Levels *)

(** The character class [[A-Z0-9_-]]. *)
Definition isLevelTokenChar (c : ascii) : bool :=
  Str.isUpper c || Str.isDigit c || Ascii.eqb c "_" || Ascii.eqb c "-".

Fixpoint allChars (p : ascii -> bool) (s : string) : bool :=
  match s with
  | EmptyString => true
  | String c r => p c && allChars p r
  end.

(** [/^[A-Z0-9_-]{2,20}$/.test(s)] *)
Definition isLevelToken (s : string) : bool :=
  allChars isLevelTokenChar s &&
  (2 <=? String.length s) && (String.length s <=? 20).

(** [normalizeLevel]; the empty string is the rejection of the candidate. *)
Definition normalizeLevel (value : string) : string :=
  let upper := Str.toUpperCase value in
  if Str.includes upper "CRITICAL" || Str.includes upper "FATAL" then "CRITICAL"
  else if Str.includes upper "ERROR" || String.eqb upper "ERR" then "ERROR"
  else if Str.includes upper "WARN" then "WARNING"
  else if Str.includes upper "DEBUG" then "DEBUG"
  else if Str.includes upper "TRACE" then "TRACE"
  else if Str.includes upper "INFO" || String.eqb upper "LOG" then "INFO"
  else if isLevelToken upper then upper
  else "".

(** The loop of [inferLevel] over its candidates. *)
Fixpoint inferLevelFrom (candidates : list (option JValue)) : string :=
  match candidates with
  | [] => "UNKNOWN"
  | candidate :: rest =>
      let text := valueToInlineString candidate in
      if negb (Str.nonEmpty text) then inferLevelFrom rest
      else
        let normalized := normalizeLevel text in
        if Str.nonEmpty normalized then normalized else inferLevelFrom rest
  end.

Definition levelCandidates (event : JRecord) (data metaData : option JRecord)
  : list (option JValue) :=
  [ getOpt metaData "level";
    getProp event "level";
    getProp event "severity";
    getOpt data "level";
    getOpt data "severity";
    getOpt data "notificationType";
    getProp event "channel" ].

(** [inferLevel] *)
Definition inferLevel (event : JRecord) (data metaData : option JRecord) : string :=
  inferLevelFrom (levelCandidates event data metaData).

Inductive LevelTone : Type :=
| ToneError | ToneWarning | ToneInfo | ToneDebug | ToneTrace | ToneNeutral.

(** [getLevelTone] *)
Definition getLevelTone (level : string) : LevelTone :=
  let upper := Str.toUpperCase level in
  if Str.includes upper "ERROR" || Str.includes upper "CRITICAL" || Str.includes upper "FATAL"
  then ToneError
  else if Str.includes upper "WARN" then ToneWarning
  else if Str.includes upper "DEBUG" then ToneDebug
  else if Str.includes upper "TRACE" then ToneTrace
  else if Str.includes upper "INFO" || Str.includes upper "LOG" then ToneInfo
  else ToneNeutral.

(** ** JSON text: [JSON.stringify] and [JSON.parse] *)

Module Json.

Definition dquote : ascii := ascii_of_nat 34.
Definition backslash : ascii := ascii_of_nat 92.
Definition LF : string := String (ascii_of_nat 10) "".

Definition hexDigit (n : nat) : ascii :=
  if n <? 10 then ascii_of_nat (48 + n) else ascii_of_nat (87 + n).

(** The escape of one character in [QuoteJSONString]. *)
Definition escapeChar (c : ascii) : string :=
  let n := Str.code c in
  if n =? 8 then "\b"
  else if n =? 9 then "\t"
  else if n =? 10 then "\n"
  else if n =? 12 then "\f"
  else if n =? 13 then "\r"
  else if n =? 34 then String backslash (String dquote "")
  else if n =? 92 then "\\"
  else if n <? 32 then "\u00" ++ String (hexDigit (n / 16)) (String (hexDigit (n mod 16)) "")
  else String c "".

Fixpoint escape (s : string) : string :=
  match s with
  | EmptyString => EmptyString
  | String c r => escapeChar c ++ escape r
  end.

Definition quote (s : string) : string :=
  String dquote (escape s ++ String dquote "").

(** What follows an opening bracket and each comma, what precedes the
    closing bracket, and what separates a key from its value: nothing but
    the colon in the compact form (empty [gap]). *)
Definition opening (gap indent : string) : string :=
  if Str.nonEmpty gap then LF ++ indent ++ gap else "".
Definition closing (gap indent : string) : string :=
  if Str.nonEmpty gap then LF ++ indent else "".
Definition colon (gap : string) : string :=
  if Str.nonEmpty gap then ": " else ":".

(** [SerializeJSONProperty] with the current indentation [indent] and the
    indentation unit [gap]. *)
Fixpoint ser (gap indent : string) (v : JValue) {struct v} : string :=
  match v with
  | JNull => "null"
  | JBool true => "true"
  | JBool false => "false"
  | JNum z => Str.ofZ z
  | JSpecial NegativeZero => "0"
  | JSpecial _ => "null"
  | JStr s => quote s
  | JArr [] => "[]"
  | JArr items =>
      "[" ++ opening gap indent ++
      Str.join ("," ++ opening gap indent) (List.map (ser gap (indent ++ gap)) items) ++
      closing gap indent ++ "]"
  | JObj [] => "{}"
  | JObj props =>
      "{" ++ opening gap indent ++
      Str.join ("," ++ opening gap indent)
        (List.map
           (fun p => quote (fst p) ++ colon gap ++ ser gap (indent ++ gap) (snd p))
           props) ++
      closing gap indent ++ "}"
  end.

(** [JSON.stringify(value, null, indentation)] *)
Definition stringify (value : JValue) (indentation : nat) : string :=
  ser (string_of_list_ascii (repeat " "%char (Nat.min indentation 10))) "" value.

(** *** Parsing *)

Definition isWs (c : ascii) : bool :=
  let n := Str.code c in (n =? 32) || (n =? 9) || (n =? 10) || (n =? 13).

Fixpoint skipWs (s : string) : string :=
  match s with
  | EmptyString => EmptyString
  | String c r => if isWs c then skipWs r else s
  end.

Definition hexValue (c : ascii) : option nat :=
  let n := Str.code c in
  if Str.isDigit c then Some (n - 48)
  else if (97 <=? n) && (n <=? 102) then Some (n - 87)
  else if (65 <=? n) && (n <=? 70) then Some (n - 55)
  else None.

(** The character of a two-character escape. *)
Definition unescape (e : ascii) : option ascii :=
  let n := Str.code e in
  if n =? 34 then Some dquote
  else if n =? 92 then Some backslash
  else if n =? 47 then Some "/"%char
  else if n =? 98 then Some (ascii_of_nat 8)
  else if n =? 102 then Some (ascii_of_nat 12)
  else if n =? 110 then Some (ascii_of_nat 10)
  else if n =? 114 then Some (ascii_of_nat 13)
  else if n =? 116 then Some (ascii_of_nat 9)
  else None.

Definition consChar (c : ascii) (r : option (string * string)) : option (string * string) :=
  match r with
  | Some (str, rest) => Some (String c str, rest)
  | None => None
  end.

(** The characters of a string literal after its opening quote, up to and
    including the closing quote.  A [\uXXXX] escape above the 8-bit range
    has no character in this embedding and is refused. *)
Fixpoint parseChars (s : string) : option (string * string) :=
  match s with
  | EmptyString => None
  | String c r =>
      if Str.code c =? 34 then Some ("", r)
      else if Str.code c =? 92 then
        match r with
        | EmptyString => None
        | String e r2 =>
            if Str.code e =? 117 then
              match r2 with
              | String h1 (String h2 (String h3 (String h4 r3))) =>
                  match hexValue h1, hexValue h2, hexValue h3, hexValue h4 with
                  | Some a, Some b, Some c', Some d =>
                      let n := ((a * 16 + b) * 16 + c') * 16 + d in
                      if n <? 256 then consChar (ascii_of_nat n) (parseChars r3) else None
                  | _, _, _, _ => None
                  end
              | _ => None
              end
            else
              match unescape e with
              | Some ch => consChar ch (parseChars r2)
              | None => None
              end
        end
      else if Str.code c <? 32 then None
      else consChar c (parseChars r)
  end.

Fixpoint spanDigits (s : string) : string * string :=
  match s with
  | EmptyString => ("", "")
  | String c r =>
      if Str.isDigit c then let (d, rest) := spanDigits r in (String c d, rest)
      else ("", s)
  end.

Definition startsFraction (s : string) : bool :=
  match s with
  | String c _ => Ascii.eqb c "." || Ascii.eqb c "e" || Ascii.eqb c "E"
  | EmptyString => false
  end.

(** The value of a string of digits. *)
Definition digitsValue (ds : string) : Z :=
  match NilEmpty.uint_of_string ds with
  | Some d => Z.of_uint d
  | None => 0%Z
  end.

(** Digits, at least one. *)
Definition parseDigits (s : string) : option (string * string) :=
  let (ds, rest) := spanDigits s in
  match ds with
  | EmptyString => None
  | _ => Some (ds, rest)
  end.

(** The integer part of a number literal: [0], or digits that start with
    no [0]. *)
Definition parseInt (s : string) : option (string * string) :=
  match parseDigits s with
  | Some (String c (String _ _) as ds, rest) =>
      if Ascii.eqb c "0" then None else Some (ds, rest)
  | other => other
  end.

(** The fraction of a number literal: a point and digits, or nothing. *)
Definition parseFraction (s : string) : option (string * string) :=
  match s with
  | String c r => if Ascii.eqb c "." then parseDigits r else Some ("", s)
  | EmptyString => Some ("", s)
  end.

(** The exponent of a number literal: [e] or [E], a sign or none, and
    digits; or nothing. *)
Definition parseExponent (s : string) : option (Z * string) :=
  match s with
  | String c r =>
      if Ascii.eqb c "e" || Ascii.eqb c "E" then
        match r with
        | String sign r' =>
            if Ascii.eqb sign "-" then
              option_map (fun p => (Z.opp (digitsValue (fst p)), snd p)) (parseDigits r')
            else if Ascii.eqb sign "+" then
              option_map (fun p => (digitsValue (fst p), snd p)) (parseDigits r')
            else option_map (fun p => (digitsValue (fst p), snd p)) (parseDigits r)
        | EmptyString => None
        end
      else Some (0%Z, s)
  | EmptyString => Some (0%Z, s)
  end.

(** The largest magnitude below which every integer is a number. *)
Definition maxSafe : Z := 9007199254740992.

Definition inRange (z : Z) : bool := (Z.abs z <=? maxSafe)%Z.

(** The least magnitude that is rounded to an infinity, [2^1024 - 2^970],
    and the inverse [2^1075] of the greatest that is rounded to zero. *)
Definition overflow : Z := (2 ^ 1024 - 2 ^ 970)%Z.
Definition underflow : Z := (2 ^ 1075)%Z.

Definition zero (negative : bool) : JValue :=
  if negative then JSpecial NegativeZero else JNum 0.
Definition infinity (negative : bool) : JValue :=
  JSpecial (if negative then NegativeInfinity else PositiveInfinity).

(** The number of the integer magnitude [z]: itself up to [maxSafe], an
    infinity from [overflow] on; between them the number is the nearest of
    the integers that are numbers and its [String(n)] is not always its
    decimal expansion: it is no number of this embedding. *)
Definition integerNumber (negative : bool) (z : Z) : option JValue :=
  if inRange z then Some (if (z =? 0)%Z then zero negative
                          else JNum (if negative then Z.opp z else z))
  else if (overflow <=? z)%Z then Some (infinity negative)
  else None.

(** The number of the magnitude [mantissa * 10^exponent].  A magnitude that
    is no integer is rounded to an infinity from [overflow] on and to a
    zero up to [1 / underflow]; between them it is no number of this
    embedding. *)
Definition numberOf (negative : bool) (mantissa exponent : Z) : option JValue :=
  if (0 <=? exponent)%Z then integerNumber negative (mantissa * 10 ^ exponent)
  else
    let scale := (10 ^ (- exponent))%Z in
    if (mantissa mod scale =? 0)%Z then integerNumber negative (mantissa / scale)
    else if (overflow * scale <=? mantissa)%Z then Some (infinity negative)
    else if (mantissa * underflow <=? scale)%Z then Some (zero negative)
    else None.

(** The magnitude of a number literal: the integer part, a fraction or
    none, an exponent or none. *)
Definition parseMagnitude (negative : bool) (s : string) : option (JValue * string) :=
  match parseInt s with
  | Some (whole, afterWhole) =>
      match parseFraction afterWhole with
      | Some (fraction, afterFraction) =>
          match parseExponent afterFraction with
          | Some (exponent, rest) =>
              option_map (fun v => (v, rest))
                (numberOf negative (digitsValue (whole ++ fraction))
                   (exponent - Z.of_nat (String.length fraction)))
          | None => None
          end
      | None => None
      end
  | None => None
  end.

(** A number literal: a sign or none, and the magnitude. *)
Definition parseNumber (s : string) : option (JValue * string) :=
  match s with
  | String c r => if Ascii.eqb c "-" then parseMagnitude true r else parseMagnitude false s
  | EmptyString => None
  end.

Definition expect (lit : string) (v : JValue) (s : string) : option (JValue * string) :=
  if String.prefix lit s
  then Some (v, String.substring (String.length lit) (String.length s - String.length lit) s)
  else None.

(** [hasOwnProperty] *)
Definition hasProp (o : JRecord) (k : string) : bool :=
  existsb (fun p => String.eqb (fst p) k) o.

(** The array index a property key denotes, if it is one: the canonical
    decimal string of an integer below [2^32 - 1]. *)
Definition arrayIndex (k : string) : option N :=
  match NilZero.uint_of_string k with
  | Some d =>
      let n := N.of_uint d in
      if String.eqb (Str.ofZ (Z.of_N n)) k && (n <? 4294967295)%N then Some n else None
  | None => None
  end.

Fixpoint replaceProp (o : JRecord) (k : string) (v : JValue) : JRecord :=
  match o with
  | [] => []
  | (k', v') :: r =>
      if String.eqb k' k then (k', v) :: r else (k', v') :: replaceProp r k v
  end.

Fixpoint insertIndex (o : JRecord) (n : N) (k : string) (v : JValue) : JRecord :=
  match o with
  | [] => [(k, v)]
  | (k', v') :: r =>
      match arrayIndex k' with
      | Some m => if (m <? n)%N then (k', v') :: insertIndex r n k v else (k, v) :: o
      | None => (k, v) :: o
      end
  end.

(** [CreateDataProperty] on an ordinary object: an existing property keeps
    its place; a new one is enumerated after the array indices below it
    when it is an array index, and last otherwise. *)
Definition defineProp (o : JRecord) (k : string) (v : JValue) : JRecord :=
  if hasProp o k then replaceProp o k v
  else
    match arrayIndex k with
    | Some n => insertIndex o n k v
    | None => (o ++ [(k, v)])%list
    end.

Definition buildObject (members : list (string * JValue)) : JRecord :=
  fold_left (fun o p => defineProp o (fst p) (snd p)) members [].

Fixpoint parseValue (fuel : nat) (s : string) {struct fuel}
  : option (JValue * string) :=
  match fuel with
  | 0 => None
  | S f =>
      match skipWs s with
      | EmptyString => None
      | String c r as s' =>
          if Ascii.eqb c "{" then
            match skipWs r with
            | String c2 r2 as inside =>
                if Ascii.eqb c2 "}" then Some (JObj [], r2)
                else
                  match parseMembers f inside with
                  | Some (members, rest) => Some (JObj (buildObject members), rest)
                  | None => None
                  end
            | EmptyString => None
            end
          else if Ascii.eqb c "[" then
            match skipWs r with
            | String c2 r2 as inside =>
                if Ascii.eqb c2 "]" then Some (JArr [], r2)
                else
                  match parseElements f inside with
                  | Some (items, rest) => Some (JArr items, rest)
                  | None => None
                  end
            | EmptyString => None
            end
          else if Ascii.eqb c dquote then
            match parseChars r with
            | Some (str, rest) => Some (JStr str, rest)
            | None => None
            end
          else if Ascii.eqb c "t" then expect "true" (JBool true) s'
          else if Ascii.eqb c "f" then expect "false" (JBool false) s'
          else if Ascii.eqb c "n" then expect "null" JNull s'
          else parseNumber s'
      end
  end
with parseElements (fuel : nat) (s : string) {struct fuel}
  : option (list JValue * string) :=
  match fuel with
  | 0 => None
  | S f =>
      match parseValue f s with
      | Some (v, rest) =>
          match skipWs rest with
          | String c r =>
              if Ascii.eqb c "]" then Some ([v], r)
              else if Ascii.eqb c "," then
                match parseElements f r with
                | Some (vs, rest') => Some (v :: vs, rest')
                | None => None
                end
              else None
          | EmptyString => None
          end
      | None => None
      end
  end
with parseMembers (fuel : nat) (s : string) {struct fuel}
  : option (list (string * JValue) * string) :=
  match fuel with
  | 0 => None
  | S f =>
      match skipWs s with
      | String q r =>
          if Ascii.eqb q dquote then
            match parseChars r with
            | Some (key, rest) =>
                match skipWs rest with
                | String c r1 =>
                    if Ascii.eqb c ":" then
                      match parseValue f r1 with
                      | Some (v, rest1) =>
                          match skipWs rest1 with
                          | String c2 r2 =>
                              if Ascii.eqb c2 "}" then Some ([(key, v)], r2)
                              else if Ascii.eqb c2 "," then
                                match parseMembers f r2 with
                                | Some (ms, rest') => Some ((key, v) :: ms, rest')
                                | None => None
                                end
                              else None
                          | EmptyString => None
                          end
                      | None => None
                      end
                    else None
                | EmptyString => None
                end
            | None => None
            end
          else None
      | EmptyString => None
      end
  end.

(** The reference [JSON.parse]: [None] when the text is no JSON text, which
    a [SyntaxError] is, or holds a number or a character that is none of
    this embedding.  Every value costs at least one character, so the
    length of the text bounds the recursion. *)
Definition parse (text : string) : option JValue :=
  match parseValue (S (String.length text)) text with
  | Some (v, rest) =>
      match skipWs rest with
      | EmptyString => Some v
      | _ => None
      end
  | None => None
  end.

End Json.

(** [toJsonString]: [JSON.stringify] never yields [undefined] nor throws on
    a parsed value, so the [String(value)] fallbacks are not taken. *)
Definition toJsonString (value : JValue) (indentation : nat) : string :=
  Json.stringify value indentation.

(** ** The JavaScript engine *)

(** The outcome of [JSON.parse]: a value, or a thrown [SyntaxError] with its
    message. *)
Inductive ParseResult : Type :=
| Parsed (v : JValue)
| SyntaxError (message : string).

(** [localeCompare] is a consistent comparator (the sign of its result is
    what [Array.prototype.sort] reads), and [JSON.parse] accepts at least the
    texts of the reference parser, with the same value. *)
Class JsEngine : Type := {
  localeCompare : string -> string -> comparison;
  localeCompare_antisym :
    forall a b, localeCompare b a = CompOpp (localeCompare a b);
  localeCompare_trans :
    forall a b c, localeCompare a b <> Gt -> localeCompare b c <> Gt ->
                  localeCompare a c <> Gt;
  JSON_parse : string -> ParseResult;
  JSON_parse_reference :
    forall text v, Json.parse text = Some v -> JSON_parse text = Parsed v
}.

(** [xs.sort(cmp)]: the stable sort of a consistent comparator. *)
Fixpoint insertBy {A : Type} (cmp : A -> A -> comparison) (x : A) (l : list A) : list A :=
  match l with
  | [] => [x]
  | y :: r =>
      match cmp x y with
      | Gt => y :: insertBy cmp x r
      | _ => x :: l
      end
  end.

Definition sortBy {A : Type} (cmp : A -> A -> comparison) (l : list A) : list A :=
  fold_right (insertBy cmp) [] l.

(** [xs.map((x, index) => f(x, index))] *)
Fixpoint mapiFrom {A B : Type} (f : A -> nat -> B) (start : nat) (l : list A) : list B :=
  match l with
  | [] => []
  | x :: r => f x start :: mapiFrom f (S start) r
  end.

Definition mapi {A B : Type} (f : A -> nat -> B) (l : list A) : list B :=
  mapiFrom f 0 l.

(** ** The event normalizer *)

Module EventView.
Record t : Type := mk {
  uid : string;
  id : string;
  timestamp : string;
  level : string;
  levelTone : LevelTone;
  application : string;
  context : string;
  message : string;
  rawJson : string;
  lineTitle : string;
  searchable : string
}.
End EventView.

(** [extractMessage] *)
Definition extractMessage (event : JRecord) (data : option JRecord) : string :=
  let candidates :=
    [ getOpt data "message";
      getProp event "message";
      getOpt data "detail";
      getOpt data "reason";
      getOpt data "type";
      getOpt data "eventName";
      getOpt data "event";
      getProp event "topic";
      getProp event "type";
      getOpt data "code";
      getProp event "code" ] in
  let text := firstInline candidates in
  if Str.nonEmpty text then text
  else
    match data with
    | Some d =>
        if 0 <? List.length (objectKeys d)
        then "Data keys: " ++ Str.join ", " (firstn 6 (objectKeys d))
        else "No short message available"
    | None => "No short message available"
    end.

(** The record [toEventView] reads: [asRecord(eventValue) ?? {}]. *)
Definition eventRecord (eventValue : JValue) : JRecord :=
  match asRecord (Some eventValue) with
  | Some o => o
  | None => []
  end.

(** [toEventView] *)
Definition toEventView (eventValue : JValue) (index : nat) : EventView.t :=
  let event := eventRecord eventValue in
  let data := asRecord (getProp event "data") in
  let metaData := asRecord (getProp event "metaData") in
  let id :=
    Str.orElse
      (firstInline [ getProp event "id"; getProp event "eventId";
                     getProp event "uuid"; getOpt data "id" ])
      (Str.ofNat (index + 1)) in
  let timestamp :=
    normalizeTimestamp
      (firstDefined [ getProp event "timestamp"; getProp event "time";
                      getProp event "created"; getProp event "dateTime";
                      getOpt data "timestamp"; getOpt data "time" ]) in
  let level := inferLevel event data metaData in
  let application :=
    Str.orElse
      (firstInline [ getProp event "applicationName"; getProp event "application";
                     getProp event "channel"; getProp event "source";
                     getOpt data "source"; getOpt data "application";
                     getOpt data "provider" ])
      "unknown" in
  let context :=
    Str.orElse
      (firstInline [ getProp event "context"; getProp event "topic";
                     getProp event "eventType"; getOpt data "type";
                     getOpt data "eventName"; getOpt data "topic";
                     getOpt data "event" ])
      "none" in
  let message := extractMessage event data in
  let compactRaw := toJsonString (JObj event) 0 in
  let rawJson := toJsonString (JObj event) 2 in
  let searchableRaw :=
    if 1800 <? String.length compactRaw then Str.slice0 1800 compactRaw else compactRaw in
  let lineTitle :=
    timestamp ++ " | " ++ level ++ " | " ++ application ++ " | " ++ context ++
    " | " ++ message in
  {| EventView.uid := Str.ofNat index ++ "-" ++ id;
     EventView.id := id;
     EventView.timestamp := timestamp;
     EventView.level := level;
     EventView.levelTone := getLevelTone level;
     EventView.application := application;
     EventView.context := context;
     EventView.message := message;
     EventView.rawJson := rawJson;
     EventView.lineTitle := lineTitle;
     EventView.searchable :=
       Str.trim (Str.toLowerCase (id ++ " " ++ lineTitle ++ " " ++ searchableRaw)) |}.

(** ** The event collection resolver *)

(** [value !== undefined] *)
Definition isDefined (value : option JValue) : bool :=
  match value with
  | Some _ => true
  | None => false
  end.

(** [looksLikeEventArray] *)
Definition looksLikeEventArray (values : list JValue) : bool :=
  let sampleSize := Nat.min (List.length values) 20 in
  let matches :=
    fold_left
      (fun matches value =>
         match asRecord (Some value) with
         | None => matches
         | Some entry =>
             if isDefined (getProp entry "timestamp") ||
                isDefined (getProp entry "topic") ||
                isDefined (getProp entry "message") ||
                isDefined (getProp entry "event") ||
                isDefined (getProp entry "data")
             then matches + 1 else matches
         end)
      (firstn sampleSize values) 0 in
  1 <=? matches.

(** The first candidate that is an array ([Array.isArray]). *)
Fixpoint firstArray (candidates : list (option JValue)) : option (list JValue) :=
  match candidates with
  | [] => None
  | Some (JArr items) :: _ => Some items
  | _ :: rest => firstArray rest
  end.

(** The loop over [Object.values(rootRecord)]. *)
Fixpoint firstEventArray (values : list JValue) : option (list JValue) :=
  match values with
  | [] => None
  | JArr items :: rest =>
      if looksLikeEventArray items then Some items else firstEventArray rest
  | _ :: rest => firstEventArray rest
  end.

(** [extractEvents] *)
Definition extractEvents (parsed : JValue) (rootRecord : option JRecord) : list JValue :=
  match parsed with
  | JArr items => items
  | _ =>
      let dataRecord := asRecord (getOpt rootRecord "data") in
      let payloadRecord := asRecord (getOpt rootRecord "payload") in
      let directCandidates :=
        [ getOpt rootRecord "events";
          getOpt rootRecord "logs";
          getOpt rootRecord "records";
          getOpt rootRecord "entries";
          getOpt rootRecord "items";
          getOpt dataRecord "events";
          getOpt dataRecord "logs";
          getOpt payloadRecord "events";
          getOpt payloadRecord "logs" ] in
      match firstArray directCandidates with
      | Some items => items
      | None =>
          match rootRecord with
          | Some root =>
              match firstEventArray (objectValues root) with
              | Some items => items
              | None => []
              end
          | None => []
          end
      end
  end.

(** [a || b] on records that may be [null]. *)
Definition orRecord (a b : option JRecord) : option JRecord :=
  match a with
  | Some _ => a
  | None => b
  end.

(** [extractMetaRecord] *)
Definition extractMetaRecord (rootRecord : option JRecord) : option JRecord :=
  orRecord (asRecord (getOpt rootRecord "meta"))
    (orRecord (asRecord (getOpt rootRecord "metadata"))
       (orRecord (asRecord (getOpt rootRecord "header")) None)).

(** [inferApplicationFromEvents] *)
Definition inferApplicationFromEvents (events : list JValue) : string :=
  let sampleSize := Nat.min (List.length events) 100 in
  (fix loop (sample : list JValue) : string :=
     match sample with
     | [] => ""
     | value :: rest =>
         let event := asRecord (Some value) in
         let data := asRecord (getOpt event "data") in
         let application :=
           firstInline [ getOpt event "applicationName"; getOpt event "application";
                         getOpt event "channel"; getOpt event "source";
                         getOpt data "source" ] in
         if Str.nonEmpty application then application else loop rest
     end) (firstn sampleSize events).

(** ** The metadata summarizer *)

Module PrettyFact.
Record t : Type := mk { label : string; value : string }.
End PrettyFact.

Module PrettyMetadataBlock.
Record t : Type := mk {
  key : string;
  title : string;
  subtitle : string;
  facts : list PrettyFact.t;
  highlights : list string;
  rawValue : JValue;
  rawJsonCache : option string
}.
End PrettyMetadataBlock.

Module MetaEntry.
Record t : Type := mk {
  key : string;
  value : string;
  rawValue : JValue;
  rawJsonCache : option string
}.
End MetaEntry.

Definition fact (label value : string) : PrettyFact.t :=
  {| PrettyFact.label := label; PrettyFact.value := value |}.

(** [value === true] *)
Definition isTrue (value : option JValue) : bool :=
  match value with
  | Some (JBool true) => true
  | _ => false
  end.

(** [compactHighlights] *)
Fixpoint compactHighlights (values : list string) : list string :=
  match values with
  | [] => []
  | value :: rest =>
      let trimmed := Str.trim value in
      if negb (Str.nonEmpty trimmed) then compactHighlights rest
      else
        let compact :=
          if 140 <? String.length trimmed then Str.slice0 137 trimmed ++ "..."
          else trimmed in
        compact :: compactHighlights rest
  end.

Module Label.

(** [replace(/([a-z0-9])([A-Z])/g, '$1 $2')] *)
Fixpoint splitCamel (s : string) : string :=
  match s with
  | String c1 (String c2 _ as tl) =>
      if (Str.isLower c1 || Str.isDigit c1) && Str.isUpper c2
      then String c1 (String " " (splitCamel tl))
      else String c1 (splitCamel tl)
  | _ => s
  end.

Definition isSeparator (c : ascii) : bool := Ascii.eqb c "_" || Ascii.eqb c "-".

(** [replace(/[_-]+/g, ' ')]; [inRun] tells that the previous character
    belongs to the run being replaced. *)
Fixpoint collapseSeparators (inRun : bool) (s : string) : string :=
  match s with
  | EmptyString => EmptyString
  | String c r =>
      if isSeparator c
      then (if inRun then collapseSeparators true r
            else String " " (collapseSeparators true r))
      else String c (collapseSeparators false r)
  end.

(** The class [\w]. *)
Definition isWordChar (c : ascii) : bool :=
  Str.isLower c || Str.isUpper c || Str.isDigit c || Ascii.eqb c "_".

(** [replace(/\b\w/g, (character) => character.toUpperCase())];
    [afterWord] tells that the previous character is a word character. *)
Fixpoint capitalizeWords (afterWord : bool) (s : string) : string :=
  match s with
  | EmptyString => EmptyString
  | String c r =>
      if isWordChar c
      then String (if afterWord then c else Str.upperChar c) (capitalizeWords true r)
      else String c (capitalizeWords false r)
  end.

End Label.

(** [prettyLabel] *)
Definition prettyLabel (key : string) : string :=
  Label.capitalizeWords false (Label.collapseSeparators false (Label.splitCamel key)).

(** [prettyValue] *)
Definition prettyValue (value : option JValue) : string :=
  let inlineValue := valueToInlineString value in
  if Str.nonEmpty inlineValue then inlineValue
  else
    match value with
    | Some (JArr elements) =>
        let items :=
          firstn 5
            (filter Str.nonEmpty
               (List.map (fun item => valueToInlineString (Some item)) elements)) in
        if List.length items =? 0
        then "Array(" ++ Str.ofNat (List.length elements) ++ ")"
        else Str.join ", " items ++
             (if List.length items <? List.length elements then ", ..." else "")
    | Some (JObj asObject) =>
        "Object(" ++ Str.ofNat (List.length (objectKeys asObject)) ++ ")"
    | _ => "n/a"
    end.

(** [toRecordArray] *)
Definition toRecordArray (value : option JValue) : list JRecord :=
  match value with
  | Some (JArr items) =>
      flat_map
        (fun item =>
           match asRecord (Some item) with
           | Some record => [record]
           | None => []
           end)
        items
  | _ => []
  end.

(** [buildBrowserBlock] *)
Definition buildBrowserBlock (browser : JRecord) : PrettyMetadataBlock.t :=
  let os := asRecord (getProp browser "os") in
  let browserName :=
    Str.orElse (firstInline [getProp browser "name"; getProp browser "description"])
      "Unknown" in
  let browserVersion :=
    Str.orElse (valueToInlineString (getProp browser "version")) "n/a" in
  {| PrettyMetadataBlock.key := "browser";
     PrettyMetadataBlock.title := "Browser";
     PrettyMetadataBlock.subtitle := Str.trim (browserName ++ " " ++ browserVersion);
     PrettyMetadataBlock.facts :=
       [ fact "Name" (Str.orElse (valueToInlineString (getProp browser "name")) "unknown");
         fact "Version" browserVersion;
         fact "Layout Engine"
           (Str.orElse (valueToInlineString (getProp browser "layout")) "n/a");
         fact "OS"
           (Str.orElse
              (firstInline [getOpt os "family"; getOpt os "name"; getProp browser "platform"])
              "unknown");
         fact "OS Version" (Str.orElse (valueToInlineString (getOpt os "version")) "n/a");
         fact "Architecture"
           (Str.orElse (valueToInlineString (getOpt os "architecture")) "n/a") ];
     PrettyMetadataBlock.highlights :=
       compactHighlights
         [ valueToInlineString (getProp browser "description");
           valueToInlineString (getProp browser "ua") ];
     PrettyMetadataBlock.rawValue := JObj browser;
     PrettyMetadataBlock.rawJsonCache := None |}.

(** [buildAgentBlock] *)
Definition buildAgentBlock (agent : JRecord) : PrettyMetadataBlock.t :=
  let reasonCodes := toRecordArray (getProp agent "reasonCodes") in
  let reasonNames :=
    filter Str.nonEmpty
      (List.map
         (fun reason => firstInline [getProp reason "friendlyName"; getProp reason "code"])
         reasonCodes) in
  let name :=
    Str.orElse
      (firstInline
         [ getProp agent "displayName";
           Some (JStr (Str.trim (valueToInlineString (getProp agent "firstName") ++ " " ++
                                 valueToInlineString (getProp agent "lastName")))) ])
      "Unknown Agent" in
  let inlineOr (key : string) :=
    Str.orElse (valueToInlineString (getProp agent key)) "n/a" in
  {| PrettyMetadataBlock.key := "agent";
     PrettyMetadataBlock.title := "Agent";
     PrettyMetadataBlock.subtitle := name;
     PrettyMetadataBlock.facts :=
       [ fact "Handle" (inlineOr "handle");
         fact "Role" (inlineOr "role");
         fact "State" (inlineOr "state");
         fact "Channel" (inlineOr "channel");
         fact "Station" (inlineOr "stationId");
         fact "Agent ID" (inlineOr "agentId");
         fact "Provider" (inlineOr "providerId");
         fact "Reason Codes" (Str.ofNat (List.length reasonCodes)) ];
     PrettyMetadataBlock.highlights := compactHighlights (firstn 10 reasonNames);
     PrettyMetadataBlock.rawValue := JObj agent;
     PrettyMetadataBlock.rawJsonCache := None |}.

Definition selectedKeys : list string :=
  [ "environmentType"; "websocketsEnabled"; "hotdesk"; "isWebRTC";
    "displayCanvasOnAlerting"; "workspacesLogsDownloadEnabled";
    "workspacesLogsDataPrivacyEnabled"; "forceRefreshRate"; "maxDeferTime";
    "customerManagementFQDN"; "pomWidgetLocation" ].

(** [buildSettingsBlock] *)
Definition buildSettingsBlock (settings : JRecord) : PrettyMetadataBlock.t :=
  let facts :=
    filter (fun f => negb (String.eqb (PrettyFact.value f) "n/a"))
      (List.map (fun key => fact (prettyLabel key) (prettyValue (getProp settings key)))
         selectedKeys) in
  let deferIntervals := prettyValue (getProp settings "deferTimeIntervals") in
  let settingsEntries := List.length (objectKeys settings) in
  {| PrettyMetadataBlock.key := "settings";
     PrettyMetadataBlock.title := "Settings";
     PrettyMetadataBlock.subtitle := Str.ofNat settingsEntries ++ " settings entries";
     PrettyMetadataBlock.facts := facts;
     PrettyMetadataBlock.highlights :=
       compactHighlights ["Defer intervals: " ++ deferIntervals];
     PrettyMetadataBlock.rawValue := JObj settings;
     PrettyMetadataBlock.rawJsonCache := None |}.

(** The [tabs] records of the role layouts of a template: the walk shared by
    [countTemplateTabs], [countTemplateWidgetRefs] and
    [extractTemplateWidgetNames]. *)
Definition templateTabs (template : JRecord) : list JRecord :=
  match asRecord (getProp template "layout") with
  | None => []
  | Some layout =>
      flat_map
        (fun roleLayoutValue =>
           let roleLayout := asRecord (Some roleLayoutValue) in
           match asRecord (getOpt roleLayout "tabs") with
           | Some tabs => [tabs]
           | None => []
           end)
        (objectValues layout)
  end.

(** The [widgets] arrays of the tabs of one [tabs] record. *)
Definition tabWidgets (tabs : JRecord) : list (list JValue) :=
  flat_map
    (fun tabValue =>
       let tab := asRecord (Some tabValue) in
       match getOpt tab "widgets" with
       | Some (JArr widgets) => [widgets]
       | _ => []
       end)
    (objectValues tabs).

(** [countTemplateTabs] *)
Definition countTemplateTabs (template : JRecord) : nat :=
  fold_left (fun count tabs => count + List.length (objectKeys tabs))
    (templateTabs template) 0.

(** [countTemplateWidgetRefs] *)
Definition countTemplateWidgetRefs (template : JRecord) : nat :=
  fold_left
    (fun count tabs =>
       fold_left (fun count widgets => count + List.length widgets) (tabWidgets tabs) count)
    (templateTabs template) 0.

(** [extractTemplateWidgetNames] *)
Definition extractTemplateWidgetNames (templates : list JRecord) : list string :=
  flat_map
    (fun template =>
       flat_map
         (fun tabs =>
            flat_map
              (fun widgets =>
                 filter Str.nonEmpty
                   (List.map (fun widget => valueToInlineString (Some widget)) widgets))
              (tabWidgets tabs))
         (templateTabs template))
    templates.

(** [buildTemplatesBlock] *)
Definition buildTemplatesBlock (templates : list JRecord) : PrettyMetadataBlock.t :=
  let templateNames :=
    filter Str.nonEmpty
      (List.map
         (fun template => firstInline [getProp template "name"; getProp template "id"])
         templates) in
  let coreCount :=
    fold_left (fun n template => if isTrue (getProp template "core") then n + 1 else n)
      templates 0 in
  let compressedCount :=
    fold_left
      (fun n template =>
         if isTrue (getProp template "useCompressedWorkspaces") then n + 1 else n)
      templates 0 in
  let totalTabs :=
    fold_left (fun n template => n + countTemplateTabs template) templates 0 in
  let totalWidgetRefs :=
    fold_left (fun n template => n + countTemplateWidgetRefs template) templates 0 in
  {| PrettyMetadataBlock.key := "templates";
     PrettyMetadataBlock.title := "Templates";
     PrettyMetadataBlock.subtitle := Str.ofNat (List.length templates) ++ " templates";
     PrettyMetadataBlock.facts :=
       [ fact "Core Templates" (Str.ofNat coreCount);
         fact "Compressed Layouts" (Str.ofNat compressedCount);
         fact "Total Tabs" (Str.ofNat totalTabs);
         fact "Widget References" (Str.ofNat totalWidgetRefs) ];
     PrettyMetadataBlock.highlights := compactHighlights (firstn 10 templateNames);
     PrettyMetadataBlock.rawValue := JArr (List.map JObj templates);
     PrettyMetadataBlock.rawJsonCache := None |}.

(** [summarizeMetaValue] *)
Definition summarizeMetaValue (value : JValue) : string :=
  let inlineValue := valueToInlineString (Some value) in
  if Str.nonEmpty inlineValue then
    (if 180 <? String.length inlineValue then Str.slice0 177 inlineValue ++ "..."
     else inlineValue)
  else
    match value with
    | JArr items => "Array(" ++ Str.ofNat (List.length items) ++ ")"
    | JObj asObject =>
        let keys := objectKeys asObject in
        let preview := Str.join ", " (firstn 5 keys) in
        let suffix := if 5 <? List.length keys then ", ..." else "" in
        "Object(" ++ Str.ofNat (List.length keys) ++ " keys): " ++ preview ++ suffix
    | _ => toJsonString value 0
    end.

(** The keys [extractMetaEntries] leaves to the pretty blocks. *)
Definition prettyMetaKeys : list string :=
  ["browser"; "agent"; "settings"; "templates"; "widgets"].

(** [toggleSelection] *)
Definition toggleSelection (values : list string) (option : string) (checked : bool)
  : list string :=
  let hasOption := Str.mem option values in
  if checked && negb hasOption then (values ++ [option])%list
  else if negb checked && hasOption
       then filter (fun value => negb (String.eqb value option)) values
       else values.

Section WithEngine.

Context {E : JsEngine}.

(** [parseWidgetCatalog]; a [SyntaxError] of [JSON.parse] is caught. *)
Definition parseWidgetCatalog (rawWidgets : string) : list JRecord :=
  if negb (Str.nonEmpty rawWidgets) then []
  else
    match JSON_parse rawWidgets with
    | Parsed (JArr parsed) =>
        flat_map
          (fun entry =>
             let widget := asRecord (Some entry) in
             let metadata := asRecord (getOpt widget "metadata") in
             let configuration := asRecord (getOpt widget "configuration") in
             match widget with
             | None => []
             | Some w =>
                 [ [ ("name",
                      JStr (firstInline [ getOpt metadata "name";
                                          getOpt configuration "name";
                                          getProp w "name" ]));
                     ("metadataName", JStr (valueToInlineString (getOpt metadata "name")));
                     ("description",
                      JStr (valueToInlineString (getOpt metadata "description")));
                     ("library",
                      JStr (Str.orElse
                              (valueToInlineString (getOpt metadata "libraryName"))
                              (valueToInlineString (getOpt metadata "library"))));
                     ("enabled", JBool (isTrue (getOpt configuration "enabled"))) ] ]
             end)
          parsed
    | Parsed _ => []
    | SyntaxError _ => []
    end.

(** [buildWidgetsBlock]; [None] is [null]. *)
Definition buildWidgetsBlock (meta : JRecord) (templates : list JRecord)
  : option PrettyMetadataBlock.t :=
  let localStorage := asRecord (getProp meta "localStorage") in
  let widgetsRaw := valueToInlineString (getOpt localStorage "_cc.widgets") in
  let widgetCatalog := parseWidgetCatalog widgetsRaw in
  let templateWidgetNames := extractTemplateWidgetNames templates in
  let catalogWidgetNames :=
    filter Str.nonEmpty
      (List.map
         (fun widget => firstInline [getProp widget "name"; getProp widget "metadataName"])
         widgetCatalog) in
  let uniqueNames := Str.dedupe (catalogWidgetNames ++ templateWidgetNames)%list in
  if (List.length widgetCatalog =? 0) && (List.length uniqueNames =? 0) then None
  else
    Some
      {| PrettyMetadataBlock.key := "widgets";
         PrettyMetadataBlock.title := "Widgets";
         PrettyMetadataBlock.subtitle :=
           Str.ofNat (List.length uniqueNames) ++ " unique widget names";
         PrettyMetadataBlock.facts :=
           [ fact "Widget Catalog" (Str.ofNat (List.length widgetCatalog));
             fact "Template Widget Refs" (Str.ofNat (List.length templateWidgetNames));
             fact "Unique Names" (Str.ofNat (List.length uniqueNames)) ];
         PrettyMetadataBlock.highlights := compactHighlights (firstn 12 uniqueNames);
         PrettyMetadataBlock.rawValue :=
           JObj [ ("widgetCatalog", JArr (List.map JObj widgetCatalog));
                  ("templateWidgetNames", JArr (List.map JStr templateWidgetNames)) ];
         PrettyMetadataBlock.rawJsonCache := None |}.

(** [blocks.push(block)] when the block is built. *)
Definition pushIf {A : Type} (blocks : list A) (block : option A) : list A :=
  match block with
  | Some b => (blocks ++ [b])%list
  | None => blocks
  end.

(** [buildPrettyMetaBlocks] *)
Definition buildPrettyMetaBlocks (meta : option JRecord) : list PrettyMetadataBlock.t :=
  match meta with
  | None => []
  | Some meta =>
      let blocks := [] in
      let blocks :=
        pushIf blocks (option_map buildBrowserBlock (asRecord (getProp meta "browser"))) in
      let blocks :=
        pushIf blocks (option_map buildAgentBlock (asRecord (getProp meta "agent"))) in
      let blocks :=
        pushIf blocks (option_map buildSettingsBlock (asRecord (getProp meta "settings"))) in
      let templates := toRecordArray (getProp meta "templates") in
      let blocks :=
        pushIf blocks
          (if 0 <? List.length templates then Some (buildTemplatesBlock templates)
           else None) in
      pushIf blocks (buildWidgetsBlock meta templates)
  end.

(** [extractMetaEntries] *)
Definition extractMetaEntries (metaValue : option JRecord) : list MetaEntry.t :=
  match metaValue with
  | None => []
  | Some metaValue =>
      List.map
        (fun entry =>
           {| MetaEntry.key := fst entry;
              MetaEntry.value := summarizeMetaValue (snd entry);
              MetaEntry.rawValue := snd entry;
              MetaEntry.rawJsonCache := None |})
        (sortBy (fun left right => localeCompare (fst left) (fst right))
           (filter (fun entry => negb (Str.mem (fst entry) prettyMetaKeys)) metaValue))
  end.

(** [uniqueOptions] *)
Definition uniqueOptions (values : list string) : list string :=
  sortBy localeCompare (Str.dedupe values).

End WithEngine.

(** ** The component state and its operations *)

(** The mutable fields of [AppComponent] ([title] is constant). *)
Record AppComponent : Type := mkApp {
  fileName : string;
  parseError : string;
  applicationName : string;
  totalEvents : nat;
  metaEntries : list MetaEntry.t;
  prettyMetaBlocks : list PrettyMetadataBlock.t;
  searchText : string;
  selectedLevels : list string;
  selectedApplications : list string;
  selectedContexts : list string;
  levelOptions : list string;
  applicationOptions : list string;
  contextOptions : list string;
  isLoaded : bool;
  expandedEventUid : option string;
  expandedMetaKey : option string;
  filteredEvents : list EventView.t;
  eventViews : list EventView.t
}.

(** [this.parseError = value] *)
Definition setParseError (value : string) (this : AppComponent) : AppComponent :=
  {| fileName := fileName this;
     parseError := value;
     applicationName := applicationName this;
     totalEvents := totalEvents this;
     metaEntries := metaEntries this;
     prettyMetaBlocks := prettyMetaBlocks this;
     searchText := searchText this;
     selectedLevels := selectedLevels this;
     selectedApplications := selectedApplications this;
     selectedContexts := selectedContexts this;
     levelOptions := levelOptions this;
     applicationOptions := applicationOptions this;
     contextOptions := contextOptions this;
     isLoaded := isLoaded this;
     expandedEventUid := expandedEventUid this;
     expandedMetaKey := expandedMetaKey this;
     filteredEvents := filteredEvents this;
     eventViews := eventViews this |}.

(** [this.searchText = value] *)
Definition setSearchText (value : string) (this : AppComponent) : AppComponent :=
  {| fileName := fileName this;
     parseError := parseError this;
     applicationName := applicationName this;
     totalEvents := totalEvents this;
     metaEntries := metaEntries this;
     prettyMetaBlocks := prettyMetaBlocks this;
     searchText := value;
     selectedLevels := selectedLevels this;
     selectedApplications := selectedApplications this;
     selectedContexts := selectedContexts this;
     levelOptions := levelOptions this;
     applicationOptions := applicationOptions this;
     contextOptions := contextOptions this;
     isLoaded := isLoaded this;
     expandedEventUid := expandedEventUid this;
     expandedMetaKey := expandedMetaKey this;
     filteredEvents := filteredEvents this;
     eventViews := eventViews this |}.

(** [this.selectedLevels = value] *)
Definition setSelectedLevels (value : list string) (this : AppComponent) : AppComponent :=
  {| fileName := fileName this;
     parseError := parseError this;
     applicationName := applicationName this;
     totalEvents := totalEvents this;
     metaEntries := metaEntries this;
     prettyMetaBlocks := prettyMetaBlocks this;
     searchText := searchText this;
     selectedLevels := value;
     selectedApplications := selectedApplications this;
     selectedContexts := selectedContexts this;
     levelOptions := levelOptions this;
     applicationOptions := applicationOptions this;
     contextOptions := contextOptions this;
     isLoaded := isLoaded this;
     expandedEventUid := expandedEventUid this;
     expandedMetaKey := expandedMetaKey this;
     filteredEvents := filteredEvents this;
     eventViews := eventViews this |}.

(** [this.selectedApplications = value] *)
Definition setSelectedApplications (value : list string) (this : AppComponent) : AppComponent :=
  {| fileName := fileName this;
     parseError := parseError this;
     applicationName := applicationName this;
     totalEvents := totalEvents this;
     metaEntries := metaEntries this;
     prettyMetaBlocks := prettyMetaBlocks this;
     searchText := searchText this;
     selectedLevels := selectedLevels this;
     selectedApplications := value;
     selectedContexts := selectedContexts this;
     levelOptions := levelOptions this;
     applicationOptions := applicationOptions this;
     contextOptions := contextOptions this;
     isLoaded := isLoaded this;
     expandedEventUid := expandedEventUid this;
     expandedMetaKey := expandedMetaKey this;
     filteredEvents := filteredEvents this;
     eventViews := eventViews this |}.

(** [this.selectedContexts = value] *)
Definition setSelectedContexts (value : list string) (this : AppComponent) : AppComponent :=
  {| fileName := fileName this;
     parseError := parseError this;
     applicationName := applicationName this;
     totalEvents := totalEvents this;
     metaEntries := metaEntries this;
     prettyMetaBlocks := prettyMetaBlocks this;
     searchText := searchText this;
     selectedLevels := selectedLevels this;
     selectedApplications := selectedApplications this;
     selectedContexts := value;
     levelOptions := levelOptions this;
     applicationOptions := applicationOptions this;
     contextOptions := contextOptions this;
     isLoaded := isLoaded this;
     expandedEventUid := expandedEventUid this;
     expandedMetaKey := expandedMetaKey this;
     filteredEvents := filteredEvents this;
     eventViews := eventViews this |}.

(** [this.expandedEventUid = value] *)
Definition setExpandedEventUid (value : option string) (this : AppComponent) : AppComponent :=
  {| fileName := fileName this;
     parseError := parseError this;
     applicationName := applicationName this;
     totalEvents := totalEvents this;
     metaEntries := metaEntries this;
     prettyMetaBlocks := prettyMetaBlocks this;
     searchText := searchText this;
     selectedLevels := selectedLevels this;
     selectedApplications := selectedApplications this;
     selectedContexts := selectedContexts this;
     levelOptions := levelOptions this;
     applicationOptions := applicationOptions this;
     contextOptions := contextOptions this;
     isLoaded := isLoaded this;
     expandedEventUid := value;
     expandedMetaKey := expandedMetaKey this;
     filteredEvents := filteredEvents this;
     eventViews := eventViews this |}.


(** [this.filteredEvents = value] *)
Definition setFilteredEvents (value : list EventView.t) (this : AppComponent) : AppComponent :=
  {| fileName := fileName this;
     parseError := parseError this;
     applicationName := applicationName this;
     totalEvents := totalEvents this;
     metaEntries := metaEntries this;
     prettyMetaBlocks := prettyMetaBlocks this;
     searchText := searchText this;
     selectedLevels := selectedLevels this;
     selectedApplications := selectedApplications this;
     selectedContexts := selectedContexts this;
     levelOptions := levelOptions this;
     applicationOptions := applicationOptions this;
     contextOptions := contextOptions this;
     isLoaded := isLoaded this;
     expandedEventUid := expandedEventUid this;
     expandedMetaKey := expandedMetaKey this;
     filteredEvents := value;
     eventViews := eventViews this |}.

(** The field initializers of the class: the empty defaults. *)
Definition initial : AppComponent :=
  {| fileName := "";
     parseError := "";
     applicationName := "-";
     totalEvents := 0;
     metaEntries := [];
     prettyMetaBlocks := [];
     searchText := "";
     selectedLevels := [];
     selectedApplications := [];
     selectedContexts := [];
     levelOptions := [];
     applicationOptions := [];
     contextOptions := [];
     isLoaded := false;
     expandedEventUid := None;
     expandedMetaKey := None;
     filteredEvents := [];
     eventViews := [] |}.

(** [resetViewerState]: every field but [parseError] returns to its default. *)
Definition resetViewerState (this : AppComponent) : AppComponent :=
  {| fileName := "";
     parseError := parseError this;
     applicationName := "-";
     totalEvents := 0;
     metaEntries := [];
     prettyMetaBlocks := [];
     searchText := "";
     selectedLevels := [];
     selectedApplications := [];
     selectedContexts := [];
     levelOptions := [];
     applicationOptions := [];
     contextOptions := [];
     isLoaded := false;
     expandedEventUid := None;
     expandedMetaKey := None;
     filteredEvents := [];
     eventViews := [] |}.

(** What a [catch] clause receives: an [Error] with its message, or any
    other thrown value. *)
Inductive Thrown : Type :=
| ThrownError (message : string)
| ThrownOther.

(** [handleParseError] *)
Definition handleParseError (error : Thrown) (this : AppComponent) : AppComponent :=
  let this := resetViewerState this in
  setParseError
    (match error with
     | ThrownError message => "Invalid JSON file: " ++ message
     | ThrownOther => "Invalid JSON file: unknown error"
     end)
    this.

(** [expandedEventUid === eventUid] *)
Definition isUid (expanded : option string) (eventUid : string) : bool :=
  match expanded with
  | Some u => String.eqb u eventUid
  | None => false
  end.

(** [applyFilters] *)
Definition applyFilters (this : AppComponent) : AppComponent :=
  let searchTerm := Str.toLowerCase (Str.trim (searchText this)) in
  let this :=
    setFilteredEvents
      (filter
         (fun event =>
            let matchesSearch :=
              negb (Str.nonEmpty searchTerm) ||
              Str.includes (EventView.searchable event) searchTerm in
            let matchesLevel :=
              (List.length (selectedLevels this) =? 0) ||
              Str.mem (EventView.level event) (selectedLevels this) in
            let matchesApplication :=
              (List.length (selectedApplications this) =? 0) ||
              Str.mem (EventView.application event) (selectedApplications this) in
            let matchesContext :=
              (List.length (selectedContexts this) =? 0) ||
              Str.mem (EventView.context event) (selectedContexts this) in
            matchesSearch && matchesLevel && matchesApplication && matchesContext)
         (eventViews this))
      this in
  if negb (existsb (fun event => isUid (expandedEventUid this) (EventView.uid event))
             (filteredEvents this))
  then setExpandedEventUid None this
  else this.

(** [onFilterChange] *)
Definition onFilterChange (this : AppComponent) : AppComponent := applyFilters this.

(** The search box is bound to [searchText] and calls [onFilterChange]. *)
Definition onSearchInput (text : string) (this : AppComponent) : AppComponent :=
  onFilterChange (setSearchText text this).

(** [clearFilters] *)
Definition clearFilters (this : AppComponent) : AppComponent :=
  let this := setSearchText "" this in
  let this := setSelectedLevels [] this in
  let this := setSelectedApplications [] this in
  let this := setSelectedContexts [] this in
  applyFilters this.

Inductive FilterType : Type := FilterLevel | FilterApplication | FilterContext.

(** [toggleFilterOption] *)
Definition toggleFilterOption (filterType : FilterType) (option : string) (checked : bool)
    (this : AppComponent) : AppComponent :=
  let this :=
    match filterType with
    | FilterLevel =>
        setSelectedLevels (toggleSelection (selectedLevels this) option checked) this
    | FilterApplication =>
        setSelectedApplications
          (toggleSelection (selectedApplications this) option checked) this
    | FilterContext =>
        setSelectedContexts (toggleSelection (selectedContexts this) option checked) this
    end in
  applyFilters this.



(** What the [FileReader] delivers: the text of the file, or a read error. *)
Inductive ReadResult : Type :=
| ReadText (rawText : string)
| ReadFailed.

Section Loading.

Context {E : JsEngine}.

(** [processJson] *)
Definition processJson (parsed : JValue) (name : string) (this : AppComponent)
  : AppComponent :=
  let this := resetViewerState this in
  let rootRecord := asRecord (Some parsed) in
  let events := extractEvents parsed rootRecord in
  let meta := extractMetaRecord rootRecord in
  let views := mapi toEventView events in
  let this :=
    {| fileName := name;
       parseError := parseError this;
       applicationName := Str.orElse
        (firstInline [ getOpt rootRecord "application";
                       getOpt rootRecord "applicationName";
                       getOpt meta "application";
                       getOpt meta "environmentType" ])
        (Str.orElse (inferApplicationFromEvents events) "unknown");
       totalEvents := List.length views;
       metaEntries := extractMetaEntries meta;
       prettyMetaBlocks := buildPrettyMetaBlocks meta;
       searchText := searchText this;
       selectedLevels := selectedLevels this;
       selectedApplications := selectedApplications this;
       selectedContexts := selectedContexts this;
       levelOptions := uniqueOptions (List.map EventView.level views);
       applicationOptions := uniqueOptions (List.map EventView.application views);
       contextOptions := uniqueOptions (List.map EventView.context views);
       isLoaded := true;
       expandedEventUid := expandedEventUid this;
       expandedMetaKey := expandedMetaKey this;
       filteredEvents := filteredEvents this;
       eventViews := views |} in
  applyFilters this.

(** [loadFile]: the assignment to [parseError], then the handler the
    reader calls, [onload] with the text or [onerror]. *)
Definition loadFile (name : string) (result : ReadResult) (this : AppComponent)
  : AppComponent :=
  let this := setParseError "" this in
  match result with
  | ReadText rawText =>
      if negb (Str.nonEmpty (Str.trim rawText))
      then handleParseError (ThrownError "The selected file is empty.") this
      else
        match JSON_parse rawText with
        | Parsed parsed => processJson parsed name this
        | SyntaxError message => handleParseError (ThrownError message) this
        end
  | ReadFailed =>
      handleParseError (ThrownError "Could not read the selected file.") this
  end.

End Loading.

(** ** View queries and the raw JSON preview *)



(** [isFilterOptionSelected] *)
Definition isFilterOptionSelected (filterType : FilterType) (option : string)
    (this : AppComponent) : bool :=
  match filterType with
  | FilterLevel => Str.mem option (selectedLevels this)
  | FilterApplication => Str.mem option (selectedApplications this)
  | FilterContext => Str.mem option (selectedContexts this)
  end.

(** The interface [JsonPreviewTarget]: a raw value and the cache of its
    text, which [getMetaRawJson] assigns. *)
Class JsonPreviewTarget (T : Type) : Type := {
  rawValue : T -> JValue;
  rawJsonCache : T -> option string;
  setRawJsonCache : string -> T -> T;
  rawJsonCache_set : forall text target, rawJsonCache (setRawJsonCache text target) = Some text;
  rawValue_set : forall text target, rawValue (setRawJsonCache text target) = rawValue target
}.

#[export] Instance MetaEntry_target : JsonPreviewTarget MetaEntry.t := {|
  rawValue := MetaEntry.rawValue;
  rawJsonCache := MetaEntry.rawJsonCache;
  setRawJsonCache := fun text target =>
    {| MetaEntry.key := MetaEntry.key target;
       MetaEntry.value := MetaEntry.value target;
       MetaEntry.rawValue := MetaEntry.rawValue target;
       MetaEntry.rawJsonCache := Some text |};
  rawJsonCache_set := fun _ _ => eq_refl;
  rawValue_set := fun _ _ => eq_refl
|}.

#[export] Instance PrettyMetadataBlock_target : JsonPreviewTarget PrettyMetadataBlock.t := {|
  rawValue := PrettyMetadataBlock.rawValue;
  rawJsonCache := PrettyMetadataBlock.rawJsonCache;
  setRawJsonCache := fun text target =>
    {| PrettyMetadataBlock.key := PrettyMetadataBlock.key target;
       PrettyMetadataBlock.title := PrettyMetadataBlock.title target;
       PrettyMetadataBlock.subtitle := PrettyMetadataBlock.subtitle target;
       PrettyMetadataBlock.facts := PrettyMetadataBlock.facts target;
       PrettyMetadataBlock.highlights := PrettyMetadataBlock.highlights target;
       PrettyMetadataBlock.rawValue := PrettyMetadataBlock.rawValue target;
       PrettyMetadataBlock.rawJsonCache := Some text |};
  rawJsonCache_set := fun _ _ => eq_refl;
  rawValue_set := fun _ _ => eq_refl
|}.

(** [const maxChars = 120000] *)
Definition maxChars : nat := Z.to_nat 120000.

(** The text [getMetaRawJson] caches for a serialization [rawJson]. *)
Definition previewText (rawJson : string) : string :=
  if maxChars <? String.length rawJson
  then Str.slice0 maxChars rawJson ++ Json.LF ++
       "... [truncated at " ++ Str.ofNat maxChars ++ " characters]"
  else rawJson.

(** [getMetaRawJson]: the text returned and the target with its cache. *)
Definition getMetaRawJson {T : Type} `{JsonPreviewTarget T} (target : T) : string * T :=
  let compute :=
    let rawJson := toJsonString (rawValue target) 2 in
    let text := previewText rawJson in
    (text, setRawJsonCache text target) in
  match rawJsonCache target with
  | Some cache => if Str.nonEmpty cache then (cache, target) else compute
  | None => compute
  end.

(** * Specifications

    The predicates and reference functions the properties are stated with,
    written from the specification of the program. *)

(** ** Filtering *)

(** [t] occurs in [s]. *)
Definition isSubstring (t s : string) : Prop := exists a b, s = a ++ t ++ b.

(** [kept] is the subsequence of [all], in the order of [all], of exactly
    the members that satisfy [P]. *)
Inductive Selects {A : Type} (P : A -> Prop) : list A -> list A -> Prop :=
| Selects_nil : Selects P [] []
| Selects_keep x all kept : P x -> Selects P all kept -> Selects P (x :: all) (x :: kept)
| Selects_drop x all kept : ~ P x -> Selects P all kept -> Selects P (x :: all) kept.

(** The search term of the filter state: trimmed and case-folded. *)
Definition searchTerm (this : AppComponent) : string :=
  Str.toLowerCase (Str.trim (searchText this)).

(** [include(e)] of the filter engine, as specified. *)
Definition include (term : string) (levels applications contexts : list string)
    (e : EventView.t) : Prop :=
  (term = "" \/ isSubstring term (EventView.searchable e)) /\
  (levels = [] \/ In (EventView.level e) levels) /\
  (applications = [] \/ In (EventView.application e) applications) /\
  (contexts = [] \/ In (EventView.context e) contexts).

(** The four components of the filter state set at once. *)
Definition withFilters (text : string) (levels applications contexts : list string)
    (this : AppComponent) : AppComponent :=
  setSelectedContexts contexts
    (setSelectedApplications applications
       (setSelectedLevels levels (setSearchText text this))).

(** ** Expansion *)

(** The expanded event, if any, is one of the filtered events. *)
Definition expansionVisible (this : AppComponent) : Prop :=
  expandedEventUid this = None \/
  exists e, In e (filteredEvents this) /\ expandedEventUid this = Some (EventView.uid e).

(** ** Levels *)

Module LevelSpec.

(** [s] contains [t]. *)
Definition contains (s t : string) : Prop := isSubstring t s.

(** The level rules in their precedence, on the uppercased text [u]. *)
Definition rules (u : string) : list (Prop * string) :=
  [ (contains u "CRITICAL" \/ contains u "FATAL", "CRITICAL");
    (contains u "ERROR" \/ u = "ERR", "ERROR");
    (contains u "WARN", "WARNING");
    (contains u "DEBUG", "DEBUG");
    (contains u "TRACE", "TRACE");
    (contains u "INFO" \/ u = "LOG", "INFO") ].

(** The outcome of an ordered rule list: the result of the first rule whose
    condition holds, if any. *)
Inductive Decides : list (Prop * string) -> option string -> Prop :=
| Decides_none : Decides [] None
| Decides_hit (P : Prop) r rest : P -> Decides ((P, r) :: rest) (Some r)
| Decides_miss (P : Prop) r rest out :
    ~ P -> Decides rest out -> Decides ((P, r) :: rest) out.

(** A character of the class [[A-Z0-9_-]]. *)
Definition tokenChar (c : ascii) : Prop :=
  65 <= Str.code c <= 90 \/ 48 <= Str.code c <= 57 \/ c = "_"%char \/ c = "-"%char.

(** [u] matches [[A-Z0-9_-]{2,20}] as a whole. *)
Definition customToken (u : string) : Prop :=
  2 <= String.length u <= 20 /\
  forall c, In c (list_ascii_of_string u) -> tokenChar c.

(** The normalization of one candidate text: [None] is its rejection. *)
Inductive Normalizes (text : string) : option string -> Prop :=
| Normalizes_rule level :
    Decides (rules (Str.toUpperCase text)) (Some level) ->
    Normalizes text (Some level)
| Normalizes_custom :
    Decides (rules (Str.toUpperCase text)) None ->
    customToken (Str.toUpperCase text) ->
    Normalizes text (Some (Str.toUpperCase text))
| Normalizes_reject :
    Decides (rules (Str.toUpperCase text)) None ->
    ~ customToken (Str.toUpperCase text) ->
    Normalizes text None.

(** The scan of the candidates in order. *)
Inductive Scans : list (option JValue) -> string -> Prop :=
| Scans_end : Scans [] "UNKNOWN"
| Scans_blank c rest level :
    valueToInlineString c = "" -> Scans rest level -> Scans (c :: rest) level
| Scans_rejected c rest level :
    valueToInlineString c <> "" -> Normalizes (valueToInlineString c) None ->
    Scans rest level -> Scans (c :: rest) level
| Scans_accepted c rest level :
    valueToInlineString c <> "" -> Normalizes (valueToInlineString c) (Some level) ->
    Scans (c :: rest) level.

End LevelSpec.

(** The outcome of [normalizeLevel], the empty string read as rejection. *)
Definition normalizedLevel (text : string) : option string :=
  if Str.nonEmpty (normalizeLevel text) then Some (normalizeLevel text) else None.

(** ** Event collection *)

Module ResolverSpec.

(** The array under key [k] of [o], if there is one. *)
Definition arrayUnder (o : JRecord) (k : string) : option (list JValue) :=
  match getProp o k with
  | Some (JArr items) => Some items
  | _ => None
  end.

(** The arrays under [events], then [logs], of the object under [outer]. *)
Definition nestedUnder (o : JRecord) (outer : string) : list (option (list JValue)) :=
  match getProp o outer with
  | Some (JObj inner) => [arrayUnder inner "events"; arrayUnder inner "logs"]
  | _ => []
  end.

(** First match wins. *)
Fixpoint firstSome {A : Type} (l : list (option A)) : option A :=
  match l with
  | [] => None
  | Some x :: _ => Some x
  | None :: rest => firstSome rest
  end.

(** [o] has the key [k]. *)
Definition hasKey (o : JRecord) (k : string) : bool :=
  existsb (String.eqb k) (objectKeys o).

(** An object containing any of the event keys. *)
Definition eventLike (v : JValue) : bool :=
  match v with
  | JObj o => existsb (hasKey o) ["timestamp"; "topic"; "message"; "event"; "data"]
  | _ => false
  end.

(** An array one of whose first 20 elements is event-like. *)
Definition fallbackArray (v : JValue) : option (list JValue) :=
  match v with
  | JArr items => if existsb eventLike (firstn 20 items) then Some items else None
  | _ => None
  end.

(** The resolution order of the event collection, rules 1 to 5. *)
Definition resolveEvents (root : JValue) : list JValue :=
  match root with
  | JArr items => items
  | JObj o =>
      match firstSome (List.map (arrayUnder o)
                         ["events"; "logs"; "records"; "entries"; "items"]) with
      | Some items => items
      | None =>
          match firstSome (nestedUnder o "data" ++ nestedUnder o "payload")%list with
          | Some items => items
          | None =>
              match firstSome (List.map fallbackArray (objectValues o)) with
              | Some items => items
              | None => []
              end
          end
      end
  | _ => []
  end.

End ResolverSpec.

(** [Array.isArray]: the array a candidate is, if it is one. *)
Definition asArray (candidate : option JValue) : option (list JValue) :=
  match candidate with
  | Some (JArr items) => Some items
  | _ => None
  end.

(** ** Metadata entries *)

(** The entries of the metadata root [extractMetaEntries] keeps. *)
Definition genericEntries (meta : JRecord) : JRecord :=
  filter (fun entry => negb (Str.mem (fst entry) prettyMetaKeys)) meta.

(** The claim C6 makes of a key no pretty block is built for. *)
Definition keysWithoutBlockAreEntries {E : JsEngine} (meta : JRecord) : Prop :=
  forall k,
    In k (objectKeys meta) ->
    ~ In k (List.map PrettyMetadataBlock.key (buildPrettyMetaBlocks (Some meta))) ->
    In k (List.map MetaEntry.key (extractMetaEntries (Some meta))).

(** ** Parsed values and their text *)

Module Producible.

(** [a] is enumerated before [b] in an object that has both: array indices
    come first, in ascending order, and the other keys follow. *)
Definition precedes (a b : string) : bool :=
  negb (String.eqb a b) &&
  match Json.arrayIndex a, Json.arrayIndex b with
  | Some m, Some n => (m <? n)%N
  | Some _, None => true
  | None, None => true
  | None, Some _ => false
  end.

(** The keys are distinct and in enumeration order. *)
Fixpoint enumOrdered (keys : list string) : bool :=
  match keys with
  | [] => true
  | k :: rest => forallb (precedes k) rest && enumOrdered rest
  end.

(** The values [JSON.parse] produces: numbers are in range and the
    properties of every object are distinct and in enumeration order. *)
Fixpoint wellFormed (v : JValue) : bool :=
  match v with
  | JNum z => Json.inRange z
  | JArr items => forallb wellFormed items
  | JObj props =>
      enumOrdered (List.map fst props) && forallb (fun p => wellFormed (snd p)) props
  | _ => true
  end.

(** The value [JSON.stringify] writes for a value: negative zero is written
    as zero and an infinity as [null]. *)
Fixpoint written (v : JValue) : JValue :=
  match v with
  | JSpecial NegativeZero => JNum 0
  | JSpecial _ => JNull
  | JArr items => JArr (List.map written items)
  | JObj props => JObj (List.map (fun p => (fst p, written (snd p))) props)
  | _ => v
  end.

(** The values [JSON.parse] produces that [JSON.stringify] writes as they
    are: the well-formed values without negative zero and infinities. *)
Fixpoint lossless (v : JValue) : bool :=
  match v with
  | JNum z => Json.inRange z
  | JSpecial _ => false
  | JArr items => forallb lossless items
  | JObj props =>
      enumOrdered (List.map fst props) && forallb (fun p => lossless (snd p)) props
  | _ => true
  end.

(** The recursion depth budget [parseValue] needs for the text of a value. *)
Fixpoint cost (v : JValue) : nat :=
  match v with
  | JArr items => S (fold_right (fun x n => S (cost x + n)) 0 items)
  | JObj props => S (fold_right (fun p n => S (cost (snd p) + n)) 0 props)
  | _ => 1
  end.

End Producible.

(** A string of JSON white space. *)
Definition allWs (s : string) : bool := allChars Json.isWs s.

(** What may follow a number: no digit and no start of a fraction or an
    exponent. *)
Definition delimited (rest : string) : bool :=
  match rest with
  | EmptyString => true
  | String c _ => negb (Str.isDigit c) && negb (Json.startsFraction rest)
  end.

(** The text of [v], after white space and before a delimiter, is parsed
    back to [v] with the budget of its cost. *)
Definition Parses (gap : string) (v : JValue) : Prop :=
  Producible.lossless v = true ->
  forall indent w rest fuel,
    allWs indent = true -> allWs w = true -> delimited rest = true ->
    Producible.cost v <= fuel ->
    Json.parseValue fuel (w ++ Json.ser gap indent v ++ rest) = Some (v, rest).

(** The budget of the elements of an array, of the properties of an object. *)
Definition costOf (items : list JValue) : nat :=
  fold_right (fun x n => S (Producible.cost x + n)) 0 items.

Definition costOfProps (props : JRecord) : nat :=
  fold_right (fun p n => S (Producible.cost (snd p) + n)) 0 props.

(** The text of one property: the quoted key, the colon, the value. *)
Definition member (gap inner : string) (p : string * JValue) : string :=
  Json.quote (fst p) ++ Json.colon gap ++ Json.ser gap inner (snd p).



(** ** Examples and the reference engine *)

(** The document of the specification's example. *)
Definition exampleDocument : JValue :=
  JObj [("events",
         JArr [JObj [("id", JStr "1"); ("level", JStr "ERR");
                     ("timestamp", JNum 1700000000); ("message", JStr "x")]])].

(** [JSON.parse] of the reference engine: the reference parser.  It is the
    engine of the closed examples, whose texts are texts of the embedding;
    every other text gets a [SyntaxError] from it, also a JSON text with a
    number that is no number of the embedding. *)
Definition referenceParse (text : string) : ParseResult :=
  match Json.parse text with
  | Some v => Parsed v
  | None => SyntaxError "Unexpected token in JSON"
  end.

(** ** Search text *)

(** The characters whose upper-case form has their lower-case form: every
    8-bit character but the sharp s, whose upper-case form [SS] has the
    lower-case form [ss], and the micro sign and U+00FF, whose upper-case
    forms U+039C and U+0178 have the lower-case forms U+03BC and U+00FF. *)
Definition caseRoundTrips (c : ascii) : bool :=
  negb ((Str.code c =? 181) || (Str.code c =? 223) || (Str.code c =? 255)).

(** ** Filter options *)

(** [filterType === otherType] *)
Definition sameFilter (a b : FilterType) : bool :=
  match a, b with
  | FilterLevel, FilterLevel => true
  | FilterApplication, FilterApplication => true
  | FilterContext, FilterContext => true
  | _, _ => false
  end.

(** * Properties *)

(** ** A reference engine

    Collation by code unit and the reference parser: an engine exists, and
    the closed examples below run on it. *)

Lemma ascii_compare_spec (a b : ascii) :
  CompareSpec (a = b) (N_of_ascii a < N_of_ascii b)%N (N_of_ascii b < N_of_ascii a)%N
    (Ascii.compare a b).
Proof.
  unfold Ascii.compare.
  destruct (N.compare_spec (N_of_ascii a) (N_of_ascii b)) as [H | H | H];
    constructor; auto.
  rewrite <- (ascii_N_embedding a), <- (ascii_N_embedding b), H. reflexivity.
Qed.

Lemma string_compare_trans (a b c : string) :
  String.compare a b <> Gt -> String.compare b c <> Gt -> String.compare a c <> Gt.
Proof.
  revert b c. induction a as [| x a IH]; intros [| y b] [| z c]; simpl;
    try (intros; congruence).
  destruct (ascii_compare_spec x y) as [Hxy | Hxy | Hxy];
    destruct (ascii_compare_spec y z) as [Hyz | Hyz | Hyz];
    destruct (ascii_compare_spec x z) as [Hxz | Hxz | Hxz];
    subst; try (intros; congruence); try lia; try (apply IH).
Qed.

Lemma referenceParse_reference (text : string) (v : JValue) :
  Json.parse text = Some v -> referenceParse text = Parsed v.
Proof. unfold referenceParse. intros ->. reflexivity. Qed.

#[export] Instance referenceEngine : JsEngine := {|
  localeCompare := String.compare;
  localeCompare_antisym := fun a b => String.compare_antisym b a;
  localeCompare_trans := string_compare_trans;
  JSON_parse := referenceParse;
  JSON_parse_reference := referenceParse_reference
|}.

(** ** Strings *)

Lemma append_assoc (a b c : string) : (a ++ b) ++ c = a ++ (b ++ c).
Proof. induction a as [| x a IH]; simpl; [reflexivity | now rewrite IH]. Qed.

Lemma append_nil_r (a : string) : a ++ "" = a.
Proof. induction a as [| x a IH]; simpl; [reflexivity | now rewrite IH]. Qed.

Lemma length_append (a b : string) :
  String.length (a ++ b) = String.length a + String.length b.
Proof. induction a as [| x a IH]; simpl; [reflexivity | now rewrite IH]. Qed.

Lemma nonEmpty_false (s : string) : Str.nonEmpty s = false <-> s = "".
Proof.
  unfold Str.nonEmpty. rewrite negb_false_iff. apply String.eqb_eq.
Qed.

Lemma nonEmpty_true (s : string) : Str.nonEmpty s = true <-> s <> "".
Proof.
  unfold Str.nonEmpty. rewrite negb_true_iff. apply String.eqb_neq.
Qed.

Lemma mem_In (x : string) (xs : list string) : Str.mem x xs = true <-> In x xs.
Proof.
  unfold Str.mem. rewrite existsb_exists. split.
  - intros (y & Hy & Heq). apply String.eqb_eq in Heq. now subst.
  - intros H. exists x. split; [assumption | apply String.eqb_refl].
Qed.

Lemma length_zero_nil {A : Type} (l : list A) : (List.length l =? 0) = true <-> l = [].
Proof.
  destruct l; simpl; split; intros H; try reflexivity; discriminate.
Qed.

Lemma prefix_append (t s : string) :
  String.prefix t s = true <-> exists b, s = t ++ b.
Proof.
  revert s. induction t as [| x t IH]; intros s.
  - destruct s; simpl; split; intros _; try reflexivity; eexists; reflexivity.
  - destruct s as [| y s]; simpl.
    + split; [discriminate | intros (b & H); discriminate].
    + destruct (ascii_dec x y) as [-> | Hne].
      * rewrite IH. split; intros (b & H); exists b; [now rewrite H | now inversion H].
      * split; [discriminate | intros (b & H); inversion H; congruence].
Qed.

Lemma includes_isSubstring (s t : string) :
  Str.includes s t = true <-> isSubstring t s.
Proof.
  induction s as [| x s IH]; cbn [Str.includes]; rewrite orb_true_iff, prefix_append.
  - split.
    + intros [(b & H) | H]; [| discriminate]. exists "", b. exact H.
    + intros ([| y a] & b & H); [left; now exists b | discriminate].
  - rewrite IH. split.
    + intros [(b & H) | (a & b & H)].
      * exists "", b. exact H.
      * exists (String x a), b. simpl. now rewrite H.
    + intros ([| y a] & b & H).
      * left. now exists b.
      * right. inversion H. now exists a, b.
Qed.

(** ** The filter engine *)

Lemma Selects_filter {A : Type} (P : A -> Prop) (f : A -> bool) (l : list A) :
  (forall x, f x = true <-> P x) -> Selects P l (filter f l).
Proof.
  intros Hf. induction l as [| x l IH]; simpl.
  - constructor.
  - destruct (f x) eqn:Hx.
    + apply Selects_keep; [now apply Hf | exact IH].
    + apply Selects_drop; [| exact IH]. rewrite <- Hf, Hx. discriminate.
Qed.

Lemma Selects_length {A : Type} (P : A -> Prop) (all kept : list A) :
  Selects P all kept -> List.length kept <= List.length all.
Proof. induction 1; simpl; lia. Qed.

Lemma applyFilters_filteredEvents (this : AppComponent) :
  filteredEvents (applyFilters this) =
  filter
    (fun e =>
       (negb (Str.nonEmpty (searchTerm this)) ||
        Str.includes (EventView.searchable e) (searchTerm this)) &&
       ((List.length (selectedLevels this) =? 0) ||
        Str.mem (EventView.level e) (selectedLevels this)) &&
       ((List.length (selectedApplications this) =? 0) ||
        Str.mem (EventView.application e) (selectedApplications this)) &&
       ((List.length (selectedContexts this) =? 0) ||
        Str.mem (EventView.context e) (selectedContexts this)))
    (eventViews this).
Proof.
  unfold applyFilters, searchTerm.
  match goal with |- context [if ?c then _ else _] => destruct c end; reflexivity.
Qed.

Lemma applyFilters_eventViews (this : AppComponent) :
  eventViews (applyFilters this) = eventViews this.
Proof.
  unfold applyFilters.
  match goal with |- context [if ?c then _ else _] => destruct c end; reflexivity.
Qed.

Lemma applyFilters_selects (this : AppComponent) :
  Selects
    (include (searchTerm this) (selectedLevels this) (selectedApplications this)
       (selectedContexts this))
    (eventViews this) (filteredEvents (applyFilters this)).
Proof.
  rewrite applyFilters_filteredEvents. apply Selects_filter. intros e.
  unfold include.
  rewrite !andb_true_iff, !orb_true_iff, negb_true_iff, nonEmpty_false,
    includes_isSubstring, !length_zero_nil, !mem_In.
  tauto.
Qed.

Lemma filter_all {A : Type} (f : A -> bool) (l : list A) :
  (forall x, f x = true) -> filter f l = l.
Proof.
  intros H. induction l as [| x l IH]; simpl; [reflexivity |].
  now rewrite H, IH.
Qed.

Lemma applyFilters_no_filter (this : AppComponent) :
  filteredEvents (applyFilters (withFilters "" [] [] [] this)) = eventViews this.
Proof.
  rewrite applyFilters_filteredEvents. simpl. apply filter_all. reflexivity.
Qed.

Section FilterEngine.

Context {E : JsEngine}.

Lemma processJson_eventViews (parsed : JValue) (name : string) (this : AppComponent) :
  eventViews (processJson parsed name this) =
  mapi toEventView (extractEvents parsed (asRecord (Some parsed))).
Proof. unfold processJson. rewrite applyFilters_eventViews. reflexivity. Qed.

Lemma processJson_filteredEvents (parsed : JValue) (name : string) (this : AppComponent) :
  filteredEvents (processJson parsed name this) =
  mapi toEventView (extractEvents parsed (asRecord (Some parsed))).
Proof.
  unfold processJson. rewrite applyFilters_filteredEvents. simpl.
  apply filter_all. reflexivity.
Qed.

(** C2.  For every filter state, the filtered list computed by
    [applyFilters] is the subsequence of the normalized events, in their
    order, of exactly the events that satisfy [include] for the trimmed,
    case-folded search term and the three selections; it is no longer than
    the normalized list; with the four components empty it is the whole
    normalized list; and a freshly loaded document shows all its events. *)
Theorem filtered_events_are_the_included_subsequence :
  (forall this : AppComponent,
     Selects
       (include (searchTerm this) (selectedLevels this) (selectedApplications this)
          (selectedContexts this))
       (eventViews this) (filteredEvents (applyFilters this)) /\
     List.length (filteredEvents (applyFilters this)) <= List.length (eventViews this) /\
     eventViews (applyFilters this) = eventViews this) /\
  (forall this : AppComponent,
     filteredEvents (applyFilters (withFilters "" [] [] [] this)) = eventViews this) /\
  (forall (parsed : JValue) (name : string) (this : AppComponent),
     filteredEvents (processJson parsed name this) =
     eventViews (processJson parsed name this)).
Proof.
  split; [| split].
  - intros this. split; [apply applyFilters_selects | split].
    + eapply Selects_length, applyFilters_selects.
    + apply applyFilters_eventViews.
  - apply applyFilters_no_filter.
  - intros. now rewrite processJson_filteredEvents, processJson_eventViews.
Qed.

End FilterEngine.

(** C9.  [clearFilters] empties the search text and the three selections
    together and applies the filters once on that state; afterwards the
    filtered list is the whole normalized list, and the normalized events,
    the option catalogs, the metadata and the other document fields are
    those of the state before. *)
Theorem clearFilters_restores_full_list (this : AppComponent) :
  clearFilters this = applyFilters (withFilters "" [] [] [] this) /\
  searchText (clearFilters this) = "" /\
  selectedLevels (clearFilters this) = [] /\
  selectedApplications (clearFilters this) = [] /\
  selectedContexts (clearFilters this) = [] /\
  filteredEvents (clearFilters this) = eventViews this /\
  eventViews (clearFilters this) = eventViews this /\
  levelOptions (clearFilters this) = levelOptions this /\
  applicationOptions (clearFilters this) = applicationOptions this /\
  contextOptions (clearFilters this) = contextOptions this /\
  metaEntries (clearFilters this) = metaEntries this /\
  prettyMetaBlocks (clearFilters this) = prettyMetaBlocks this /\
  fileName (clearFilters this) = fileName this /\
  applicationName (clearFilters this) = applicationName this /\
  totalEvents (clearFilters this) = totalEvents this /\
  isLoaded (clearFilters this) = isLoaded this.
Proof.
  split; [reflexivity |].
  assert (Hf : filteredEvents (clearFilters this) = eventViews this)
    by apply applyFilters_no_filter.
  unfold clearFilters, applyFilters in *.
  match goal with |- context [if ?c then _ else _] => destruct c end;
    repeat split; try reflexivity; exact Hf.
Qed.

(** ** The expansion state *)

Lemma applyFilters_expansionVisible (this : AppComponent) :
  expansionVisible (applyFilters this).
Proof.
  unfold applyFilters, expansionVisible.
  match goal with |- context [if negb ?c then _ else _] => destruct c eqn:Hc end;
    cbn [negb]; [right | left; reflexivity].
  apply existsb_exists in Hc. destruct Hc as (e & He & Hu).
  exists e. split; [exact He |].
  cbn [expandedEventUid setFilteredEvents] in *.
  destruct (expandedEventUid this) as [u |]; cbn [isUid] in Hu; [| discriminate].
  apply String.eqb_eq in Hu. now subst.
Qed.

Lemma handleParseError_expansionVisible (error : Thrown) (this : AppComponent) :
  expansionVisible (handleParseError error this).
Proof. left. reflexivity. Qed.

Section Expansion.

Context {E : JsEngine}.

Lemma loadFile_expansionVisible (name : string) (result : ReadResult)
    (this : AppComponent) :
  expansionVisible (loadFile name result this).
Proof.
  unfold loadFile. destruct result as [rawText |].
  - destruct (negb (Str.nonEmpty (Str.trim rawText))).
    + apply handleParseError_expansionVisible.
    + destruct (JSON_parse rawText).
      * apply applyFilters_expansionVisible.
      * apply handleParseError_expansionVisible.
  - apply handleParseError_expansionVisible.
Qed.

(** C10.  After each operation that recomputes the filtered list (applying
    the filters, a search input, the toggle of a level, application or
    context option, clearing the filters, processing or loading a document)
    and after each reset (the reset itself, a parse error), the expanded
    event uid is null or the uid of an event of the filtered list. *)
Theorem expanded_event_is_visible (this : AppComponent) :
  expansionVisible (applyFilters this) /\
  expansionVisible (onFilterChange this) /\
  (forall text, expansionVisible (onSearchInput text this)) /\
  (forall filterType option checked,
     expansionVisible (toggleFilterOption filterType option checked this)) /\
  expansionVisible (clearFilters this) /\
  (forall parsed name, expansionVisible (processJson parsed name this)) /\
  (forall name result, expansionVisible (loadFile name result this)) /\
  expansionVisible (resetViewerState this) /\
  (forall error, expansionVisible (handleParseError error this)).
Proof.
  repeat split; intros;
    try apply applyFilters_expansionVisible;
    try apply loadFile_expansionVisible;
    left; reflexivity.
Qed.

End Expansion.

(** ** Failed loads *)

Section FailedLoads.

Context {E : JsEngine}.

Lemma handleParseError_state (message : string) (this : AppComponent) :
  handleParseError (ThrownError message) this =
  setParseError ("Invalid JSON file: " ++ message) initial.
Proof. reflexivity. Qed.

(** C7.  When the text of the file is blank, or [JSON.parse] throws on it,
    [loadFile] ends in the state in which every field has its empty default
    but [parseError], which holds a message starting with
    [Invalid JSON file: ]; nothing of the previous state remains. *)
Theorem failed_load_resets_the_view_model
    (name rawText : string) (this : AppComponent) :
  Str.trim rawText = "" \/ (exists message, JSON_parse rawText = SyntaxError message) ->
  exists message,
    loadFile name (ReadText rawText) this =
    setParseError ("Invalid JSON file: " ++ message) initial /\
    parseError (loadFile name (ReadText rawText) this) <> "" /\
    fileName (loadFile name (ReadText rawText) this) = "" /\
    applicationName (loadFile name (ReadText rawText) this) = "-" /\
    totalEvents (loadFile name (ReadText rawText) this) = 0 /\
    eventViews (loadFile name (ReadText rawText) this) = [] /\
    filteredEvents (loadFile name (ReadText rawText) this) = [] /\
    levelOptions (loadFile name (ReadText rawText) this) = [] /\
    applicationOptions (loadFile name (ReadText rawText) this) = [] /\
    contextOptions (loadFile name (ReadText rawText) this) = [] /\
    metaEntries (loadFile name (ReadText rawText) this) = [] /\
    prettyMetaBlocks (loadFile name (ReadText rawText) this) = [] /\
    searchText (loadFile name (ReadText rawText) this) = "" /\
    selectedLevels (loadFile name (ReadText rawText) this) = [] /\
    selectedApplications (loadFile name (ReadText rawText) this) = [] /\
    selectedContexts (loadFile name (ReadText rawText) this) = [] /\
    expandedEventUid (loadFile name (ReadText rawText) this) = None /\
    expandedMetaKey (loadFile name (ReadText rawText) this) = None /\
    isLoaded (loadFile name (ReadText rawText) this) = false.
Proof.
  intros H.
  assert (Hload : exists message,
             loadFile name (ReadText rawText) this =
             setParseError ("Invalid JSON file: " ++ message) initial).
  { unfold loadFile.
    destruct (Str.nonEmpty (Str.trim rawText)) eqn:Hblank; cbn [negb].
    - destruct H as [H | (message & H)].
      + apply nonEmpty_true in Hblank. contradiction.
      + rewrite H. exists message. apply handleParseError_state.
    - eexists. apply handleParseError_state. }
  destruct Hload as (message & ->). exists message.
  repeat split; try reflexivity. discriminate.
Qed.

End FailedLoads.

(** The text [not json] is refused by the reference parser, and a blank text
    is an empty file. *)
Lemma failed_load_resets_the_view_model_witness :
  (exists message,
     loadFile "events.json" (ReadText "not json") (setSearchText "err" initial) =
     setParseError ("Invalid JSON file: " ++ message) initial) /\
  (exists message,
     loadFile "events.json" (ReadText "  ") (setSearchText "err" initial) =
     setParseError ("Invalid JSON file: " ++ message) initial).
Proof.
  split.
  - destruct (failed_load_resets_the_view_model (E := referenceEngine)
                "events.json" "not json" (setSearchText "err" initial))
      as (message & H & _).
    + right. exists "Unexpected token in JSON". vm_compute. reflexivity.
    + exists message. exact H.
  - destruct (failed_load_resets_the_view_model (E := referenceEngine)
                "events.json" "  " (setSearchText "err" initial))
      as (message & H & _).
    + left. reflexivity.
    + exists message. exact H.
Defined.

(** ** Timestamps *)

Lemma string_of_uint_nonEmpty (d : Decimal.uint) : NilZero.string_of_uint d <> "".
Proof. destruct d; discriminate. Qed.

Lemma ofZ_nonEmpty (z : Z) : Str.ofZ z <> "".
Proof.
  unfold Str.ofZ. destruct (Z.to_int z) as [d | d]; simpl.
  - apply string_of_uint_nonEmpty.
  - discriminate.
Qed.

(** A number is its own inline string, so [normalizeTimestamp] returns it
    before the branch that builds a date. *)
Lemma normalizeTimestamp_number (z : Z) :
  normalizeTimestamp (Some (JNum z)) = Str.ofZ z.
Proof.
  unfold normalizeTimestamp. cbn [valueToInlineString].
  destruct (Str.nonEmpty (Str.ofZ z)) eqn:H; [reflexivity |].
  apply nonEmpty_false in H. now apply ofZ_nonEmpty in H.
Qed.

(** C1.  A numeric timestamp candidate is returned as its decimal string:
    the event of the example document gets the timestamp [1700000000], not
    the ISO form [2023-11-14T22:13:20.000Z] of that Unix time, and so does
    every number. *)
Theorem numeric_timestamp_is_kept_verbatim {E : JsEngine} :
  List.map EventView.timestamp
    (eventViews (processJson exampleDocument "events.json" initial)) = ["1700000000"] /\
  DateIso.toISOString (1700000000 * 1000) = Some "2023-11-14T22:13:20.000Z" /\
  List.map EventView.timestamp
    (eventViews (processJson exampleDocument "events.json" initial)) <>
    ["2023-11-14T22:13:20.000Z"] /\
  (forall z : Z, normalizeTimestamp (Some (JNum z)) = Str.ofZ z).
Proof.
  assert (H : List.map EventView.timestamp
                (eventViews (processJson exampleDocument "events.json" initial)) =
              ["1700000000"])
    by (rewrite processJson_eventViews; vm_compute; reflexivity).
  split; [exact H | split; [| split]].
  - vm_compute. reflexivity.
  - rewrite H. discriminate.
  - apply normalizeTimestamp_number.
Qed.

(** ** Decimal strings *)

Lemma string_of_uint_digits (d : Decimal.uint) :
  allChars Str.isDigit (NilEmpty.string_of_uint d) = true.
Proof. induction d; simpl; auto. Qed.

Lemma nz_string_of_uint_digits (d : Decimal.uint) :
  allChars Str.isDigit (NilZero.string_of_uint d) = true.
Proof.
  destruct d;
    [ reflexivity
    | exact (string_of_uint_digits (Decimal.D0 d))
    | exact (string_of_uint_digits (Decimal.D1 d))
    | exact (string_of_uint_digits (Decimal.D2 d))
    | exact (string_of_uint_digits (Decimal.D3 d))
    | exact (string_of_uint_digits (Decimal.D4 d))
    | exact (string_of_uint_digits (Decimal.D5 d))
    | exact (string_of_uint_digits (Decimal.D6 d))
    | exact (string_of_uint_digits (Decimal.D7 d))
    | exact (string_of_uint_digits (Decimal.D8 d))
    | exact (string_of_uint_digits (Decimal.D9 d)) ].
Qed.

Lemma ofNat_digits (n : nat) : allChars Str.isDigit (Str.ofNat n) = true.
Proof.
  unfold Str.ofNat, Str.ofZ. destruct (Z.of_nat n) as [| p | p] eqn:Hn.
  - reflexivity.
  - apply nz_string_of_uint_digits.
  - lia.
Qed.

Lemma to_int_proper (z : Z) :
  Z.to_int z <> Decimal.Pos Decimal.Nil /\ Z.to_int z <> Decimal.Neg Decimal.Nil.
Proof.
  destruct z as [| p | p]; simpl; split; try discriminate;
    intros H; injection H as H; now apply DecimalPos.Unsigned.to_uint_nonnil in H.
Qed.

Lemma ofZ_inj (a b : Z) : Str.ofZ a = Str.ofZ b -> a = b.
Proof.
  unfold Str.ofZ. intros H.
  apply DecimalZ.to_int_inj.
  destruct (to_int_proper a) as [Ha1 Ha2], (to_int_proper b) as [Hb1 Hb2].
  pose proof (NilZero.isi _ Ha1 Ha2) as Ia.
  pose proof (NilZero.isi _ Hb1 Hb2) as Ib.
  rewrite H in Ia. congruence.
Qed.

Lemma ofNat_inj (i j : nat) : Str.ofNat i = Str.ofNat j -> i = j.
Proof. unfold Str.ofNat. intros H. apply ofZ_inj in H. lia. Qed.

(** Two strings of digits followed by a hyphen agree when what they start
    agrees: the hyphen ends the digits. *)
Lemma digits_before_hyphen (d1 d2 a b : string) :
  allChars Str.isDigit d1 = true -> allChars Str.isDigit d2 = true ->
  d1 ++ "-" ++ a = d2 ++ "-" ++ b -> d1 = d2.
Proof.
  revert d2. induction d1 as [| x d1 IH]; intros [| y d2] H1 H2 Heq; simpl in *.
  - reflexivity.
  - injection Heq as Hc _. subst y. discriminate.
  - injection Heq as Hc _. subst x. discriminate.
  - injection Heq as Hc Heq. subst y.
    apply andb_true_iff in H1, H2. f_equal. apply IH; tauto.
Qed.

(** ** Event uids *)

Lemma toEventView_uid (eventValue : JValue) (index : nat) :
  EventView.uid (toEventView eventValue index) =
  Str.ofNat index ++ "-" ++ EventView.id (toEventView eventValue index).
Proof. reflexivity. Qed.

Lemma uid_index_inj (v w : JValue) (i j : nat) :
  EventView.uid (toEventView v i) = EventView.uid (toEventView w j) -> i = j.
Proof.
  rewrite !toEventView_uid. intros H.
  apply ofNat_inj. eapply digits_before_hyphen; eauto using ofNat_digits.
Qed.

Lemma mapiFrom_uid_index (start : nat) (events : list JValue) (u : string) :
  In u (List.map EventView.uid (mapiFrom toEventView start events)) ->
  exists v i, start <= i /\ u = EventView.uid (toEventView v i).
Proof.
  revert start. induction events as [| e events IH]; intros start; simpl.
  - contradiction.
  - intros [H | H].
    + exists e, start. split; [lia | now symmetry].
    + apply IH in H. destruct H as (v & i & Hi & Hu). exists v, i. split; [lia | exact Hu].
Qed.

Lemma mapiFrom_uid_NoDup (start : nat) (events : list JValue) :
  NoDup (List.map EventView.uid (mapiFrom toEventView start events)).
Proof.
  revert start. induction events as [| e events IH]; intros start; simpl.
  - constructor.
  - constructor; [| apply IH].
    intros H. apply mapiFrom_uid_index in H. destruct H as (v & i & Hi & Hu).
    apply uid_index_inj in Hu. lia.
Qed.

(** C3.  The uids of the normalized events of a raw event list, and so of
    any loaded document, are pairwise distinct, whatever the ids of the raw
    events are. *)
Theorem uids_are_pairwise_distinct {E : JsEngine} :
  (forall events : list JValue,
     NoDup (List.map EventView.uid (mapi toEventView events))) /\
  (forall (parsed : JValue) (name : string) (this : AppComponent),
     NoDup (List.map EventView.uid (eventViews (processJson parsed name this)))).
Proof.
  split.
  - intros events. apply mapiFrom_uid_NoDup.
  - intros. rewrite processJson_eventViews. apply mapiFrom_uid_NoDup.
Qed.

(** ** Level inference *)

Lemma allChars_forall (p : ascii -> bool) (s : string) :
  allChars p s = true <-> forall c, In c (list_ascii_of_string s) -> p c = true.
Proof.
  induction s as [| x s IH]; simpl.
  - split; [contradiction | reflexivity].
  - rewrite andb_true_iff, IH. split.
    + intros [Hx Hs] c [<- | Hc]; auto.
    + intros H. split; [apply H; now left | intros c Hc; apply H; now right].
Qed.

Lemma isLevelTokenChar_spec (c : ascii) :
  isLevelTokenChar c = true <-> LevelSpec.tokenChar c.
Proof.
  unfold isLevelTokenChar, LevelSpec.tokenChar, Str.isUpper, Str.isDigit.
  rewrite !orb_true_iff, !andb_true_iff, !Nat.leb_le, !Ascii.eqb_eq. tauto.
Qed.

Lemma isLevelToken_spec (u : string) :
  isLevelToken u = true <-> LevelSpec.customToken u.
Proof.
  unfold isLevelToken, LevelSpec.customToken.
  rewrite !andb_true_iff, !Nat.leb_le, allChars_forall.
  split.
  - intros [[H1 H2] H3]. split; [lia |]. intros c Hc. now apply isLevelTokenChar_spec, H1.
  - intros [H1 H2]. repeat split; try lia. intros c Hc. now apply isLevelTokenChar_spec, H2.
Qed.

Lemma Decides_fun (rs : list (Prop * string)) (a b : option string) :
  LevelSpec.Decides rs a -> LevelSpec.Decides rs b -> a = b.
Proof.
  intros Ha. revert b. induction Ha; intros b Hb; inversion Hb; subst;
    try reflexivity; try contradiction; auto.
Qed.

Lemma Normalizes_fun (text : string) (a b : option string) :
  LevelSpec.Normalizes text a -> LevelSpec.Normalizes text b -> a = b.
Proof.
  intros Ha Hb.
  destruct Ha as [la Ha | Ha Ta | Ha Ta]; destruct Hb as [lb Hb | Hb Tb | Hb Tb];
    try reflexivity; try contradiction;
    pose proof (Decides_fun _ _ _ Ha Hb) as H; congruence.
Qed.

Lemma customToken_nonEmpty (u : string) : LevelSpec.customToken u -> u <> "".
Proof. intros [H _] ->. simpl in H. lia. Qed.

Lemma normalizeLevel_spec (text : string) :
  LevelSpec.Normalizes text (normalizedLevel text).
Proof.
  unfold normalizedLevel, normalizeLevel.
  set (u := Str.toUpperCase text).
  assert (Hinc : forall t, Str.includes u t = true <-> LevelSpec.contains u t)
    by (intros t; apply includes_isSubstring).
  assert (Hno : forall t, Str.includes u t = false -> ~ LevelSpec.contains u t)
    by (intros t H C; apply Hinc in C; congruence).
  assert (Heq : forall t, String.eqb u t = false -> u <> t)
    by (intros t H; now apply String.eqb_neq).
  destruct (Str.includes u "CRITICAL") eqn:C1; cbn [orb].
  { apply LevelSpec.Normalizes_rule, LevelSpec.Decides_hit. left. now apply Hinc. }
  destruct (Str.includes u "FATAL") eqn:C2.
  { apply LevelSpec.Normalizes_rule, LevelSpec.Decides_hit. right. now apply Hinc. }
  assert (N1 : ~ (LevelSpec.contains u "CRITICAL" \/ LevelSpec.contains u "FATAL"))
    by (intros [C | C]; [now apply (Hno _ C1) | now apply (Hno _ C2)]).
  destruct (Str.includes u "ERROR") eqn:C3; cbn [orb].
  { apply LevelSpec.Normalizes_rule, LevelSpec.Decides_miss; [exact N1 |].
    apply LevelSpec.Decides_hit. left. now apply Hinc. }
  destruct (String.eqb u "ERR") eqn:C4.
  { apply LevelSpec.Normalizes_rule, LevelSpec.Decides_miss; [exact N1 |].
    apply LevelSpec.Decides_hit. right. now apply String.eqb_eq. }
  assert (N2 : ~ (LevelSpec.contains u "ERROR" \/ u = "ERR"))
    by (intros [C | C]; [now apply (Hno _ C3) | now apply (Heq _ C4)]).
  destruct (Str.includes u "WARN") eqn:C5.
  { apply LevelSpec.Normalizes_rule.
    do 2 (apply LevelSpec.Decides_miss; [assumption |]).
    apply LevelSpec.Decides_hit. now apply Hinc. }
  apply Hno in C5.
  destruct (Str.includes u "DEBUG") eqn:C6.
  { apply LevelSpec.Normalizes_rule.
    do 3 (apply LevelSpec.Decides_miss; [assumption |]).
    apply LevelSpec.Decides_hit. now apply Hinc. }
  apply Hno in C6.
  destruct (Str.includes u "TRACE") eqn:C7.
  { apply LevelSpec.Normalizes_rule.
    do 4 (apply LevelSpec.Decides_miss; [assumption |]).
    apply LevelSpec.Decides_hit. now apply Hinc. }
  apply Hno in C7.
  destruct (Str.includes u "INFO") eqn:C8; cbn [orb].
  { apply LevelSpec.Normalizes_rule.
    do 5 (apply LevelSpec.Decides_miss; [assumption |]).
    apply LevelSpec.Decides_hit. left. now apply Hinc. }
  destruct (String.eqb u "LOG") eqn:C9.
  { apply LevelSpec.Normalizes_rule.
    do 5 (apply LevelSpec.Decides_miss; [assumption |]).
    apply LevelSpec.Decides_hit. right. now apply String.eqb_eq. }
  assert (N6 : ~ (LevelSpec.contains u "INFO" \/ u = "LOG"))
    by (intros [C | C]; [now apply (Hno _ C8) | now apply (Heq _ C9)]).
  assert (HD : LevelSpec.Decides (LevelSpec.rules u) None)
    by (do 6 (apply LevelSpec.Decides_miss; [assumption |]); constructor).
  destruct (isLevelToken u) eqn:C10.
  - apply isLevelToken_spec in C10.
    pose proof (customToken_nonEmpty _ C10) as Hne. apply nonEmpty_true in Hne.
    rewrite Hne. now apply LevelSpec.Normalizes_custom.
  - cbn. apply LevelSpec.Normalizes_reject; [exact HD |].
    intros C. apply isLevelToken_spec in C. unfold u in *. congruence.
Qed.

Lemma inferLevelFrom_scans (candidates : list (option JValue)) :
  LevelSpec.Scans candidates (inferLevelFrom candidates).
Proof.
  induction candidates as [| c rest IH]; cbn [inferLevelFrom].
  - constructor.
  - destruct (Str.nonEmpty (valueToInlineString c)) eqn:Hc; cbn [negb].
    + apply nonEmpty_true in Hc.
      pose proof (normalizeLevel_spec (valueToInlineString c)) as Hn.
      unfold normalizedLevel in Hn.
      destruct (Str.nonEmpty (normalizeLevel (valueToInlineString c))).
      * now apply LevelSpec.Scans_accepted.
      * now apply LevelSpec.Scans_rejected.
    + apply nonEmpty_false in Hc. now apply LevelSpec.Scans_blank.
Qed.

Lemma Scans_fun (candidates : list (option JValue)) (a b : string) :
  LevelSpec.Scans candidates a -> LevelSpec.Scans candidates b -> a = b.
Proof.
  intros Ha. revert b. induction Ha; intros b Hb; inversion Hb; subst;
    try reflexivity; try contradiction; auto;
    match goal with
    | H1 : LevelSpec.Normalizes ?t _, H2 : LevelSpec.Normalizes ?t _ |- _ =>
        pose proof (Normalizes_fun _ _ _ H1 H2); congruence
    end.
Qed.

(** C4, as amended.  The level of an event is the one the scan of
    [metaData.level], [event.level], [event.severity], [data.level],
    [data.severity], [data.notificationType], [event.channel] determines:
    candidates of empty text are passed over; the text of a candidate is
    uppercased and decided by the rules in their precedence; when no rule
    applies and the uppercased text matches [[A-Z0-9_-]{2,20}], the
    uppercased text is the level; otherwise the candidate is rejected and
    the scan goes on; with no candidate left the level is [UNKNOWN].  The
    scan determines one level only. *)
Theorem level_is_inferred_by_ordered_scan
    (event : JRecord) (data metaData : option JRecord) :
  LevelSpec.Scans
    [ getOpt metaData "level"; getProp event "level"; getProp event "severity";
      getOpt data "level"; getOpt data "severity"; getOpt data "notificationType";
      getProp event "channel" ]
    (inferLevel event data metaData) /\
  (forall level,
     LevelSpec.Scans
       [ getOpt metaData "level"; getProp event "level"; getProp event "severity";
         getOpt data "level"; getOpt data "severity"; getOpt data "notificationType";
         getProp event "channel" ]
       level ->
     level = inferLevel event data metaData).
Proof.
  split.
  - apply inferLevelFrom_scans.
  - intros level H. eapply Scans_fun; [exact H | apply inferLevelFrom_scans].
Qed.

(** The custom level [notice] does not pass through unchanged: it is
    uppercased. *)
Lemma custom_level_is_uppercased :
  inferLevel [("level", JStr "notice")] None None = "NOTICE" /\
  inferLevel [("level", JStr "notice")] None None <> "notice".
Proof. split; [reflexivity | discriminate]. Qed.

(** ** The event collection resolver *)

Lemma getProp_hasKey (o : JRecord) (k : string) :
  isDefined (getProp o k) = ResolverSpec.hasKey o k.
Proof.
  unfold ResolverSpec.hasKey. induction o as [| [k' v] o IH]; simpl; [reflexivity |].
  rewrite (String.eqb_sym k k'). destruct (String.eqb k' k); [reflexivity | exact IH].
Qed.

Lemma firstn_min_length {A : Type} (n : nat) (l : list A) :
  firstn (Nat.min (List.length l) n) l = firstn n l.
Proof.
  destruct (Nat.le_gt_cases (List.length l) n) as [H | H].
  - rewrite Nat.min_l by exact H. now rewrite firstn_all, firstn_all2.
  - rewrite Nat.min_r by lia. reflexivity.
Qed.

Lemma count_matches (p : JValue -> bool) (l : list JValue) (n : nat) :
  (1 <=? fold_left (fun matches v => if p v then matches + 1 else matches) l n) =
  (1 <=? n) || existsb p l.
Proof.
  revert n. induction l as [| x l IH]; intros n; cbn [fold_left existsb].
  - now rewrite orb_false_r.
  - rewrite IH. destruct (p x); cbn [orb].
    + replace (1 <=? n + 1) with true by (symmetry; apply Nat.leb_le; lia).
      now rewrite orb_true_r.
    + reflexivity.
Qed.

Lemma fold_left_ext {A B : Type} (f g : A -> B -> A) (l : list B) (a : A) :
  (forall x y, f x y = g x y) -> fold_left f l a = fold_left g l a.
Proof.
  intros H. revert a. induction l as [| y l IH]; intros a; simpl; [reflexivity |].
  now rewrite H, IH.
Qed.

Lemma looksLikeEventArray_spec (values : list JValue) :
  looksLikeEventArray values = existsb ResolverSpec.eventLike (firstn 20 values).
Proof.
  unfold looksLikeEventArray. rewrite firstn_min_length.
  rewrite (fold_left_ext _
             (fun matches v => if ResolverSpec.eventLike v then matches + 1 else matches)).
  - now rewrite count_matches.
  - intros n [| | | | | | o]; try reflexivity.
    cbn [asRecord ResolverSpec.eventLike existsb]. rewrite !getProp_hasKey.
    now rewrite orb_false_r, !orb_assoc.
Qed.

Lemma firstEventArray_spec (values : list JValue) :
  firstEventArray values =
  ResolverSpec.firstSome (List.map ResolverSpec.fallbackArray values).
Proof.
  induction values as [| v values IH];
    cbn [firstEventArray List.map ResolverSpec.firstSome]; [reflexivity |].
  destruct v; cbn [ResolverSpec.fallbackArray ResolverSpec.firstSome]; try exact IH.
  rewrite looksLikeEventArray_spec.
  destruct (existsb ResolverSpec.eventLike (firstn 20 items)); [reflexivity | exact IH].
Qed.

Lemma firstArray_spec (candidates : list (option JValue)) :
  firstArray candidates = ResolverSpec.firstSome (List.map asArray candidates).
Proof.
  induction candidates as [| c candidates IH]; simpl; [reflexivity |].
  destruct c as [[] |]; simpl; auto.
Qed.

Lemma firstSome_app {A : Type} (a b : list (option A)) :
  ResolverSpec.firstSome (a ++ b)%list =
  match ResolverSpec.firstSome a with
  | Some x => Some x
  | None => ResolverSpec.firstSome b
  end.
Proof.
  induction a as [| [x |] a IH]; simpl; auto.
Qed.

Lemma nested_candidates (o : JRecord) (outer : string) :
  [ asArray (getOpt (asRecord (getProp o outer)) "events");
    asArray (getOpt (asRecord (getProp o outer)) "logs") ] =
  ResolverSpec.nestedUnder o outer \/
  (ResolverSpec.nestedUnder o outer = [] /\
   asArray (getOpt (asRecord (getProp o outer)) "events") = None /\
   asArray (getOpt (asRecord (getProp o outer)) "logs") = None).
Proof.
  unfold ResolverSpec.nestedUnder.
  destruct (getProp o outer) as [[] |]; simpl; auto.
Qed.

Lemma arrayUnder_asArray (o : JRecord) (k : string) :
  ResolverSpec.arrayUnder o k = asArray (getProp o k).
Proof. reflexivity. Qed.

Lemma extractEvents_object (o : JRecord) :
  extractEvents (JObj o) (Some o) = ResolverSpec.resolveEvents (JObj o).
Proof.
  unfold extractEvents, ResolverSpec.resolveEvents.
  rewrite firstArray_spec, firstEventArray_spec.
  cbn [List.map getOpt]. rewrite !arrayUnder_asArray.
  change (?a :: ?b :: ?c :: ?d :: ?e :: ?rest)
    with ([a; b; c; d; e] ++ rest)%list at 1.
  rewrite firstSome_app.
  destruct (ResolverSpec.firstSome
              [ asArray (getProp o "events"); asArray (getProp o "logs");
                asArray (getProp o "records"); asArray (getProp o "entries");
                asArray (getProp o "items") ]); [reflexivity |].
  change (?a :: ?b :: ?rest) with ([a; b] ++ rest)%list at 1.
  rewrite !firstSome_app.
  destruct (nested_candidates o "data") as [-> | (-> & -> & ->)];
    destruct (nested_candidates o "payload") as [-> | (-> & -> & ->)];
    cbn [ResolverSpec.firstSome app];
    repeat match goal with
      | |- context [match ?x with Some _ => _ | None => _ end] => destruct x
      end; reflexivity.
Qed.

(** C5.  [extractEvents] resolves the event collection in the specified
    order, the first match winning: the root when it is an array; else the
    first array under [events], [logs], [records], [entries], [items] of the
    root object; else the first array under [events], then [logs], of the
    object under [data], then of the one under [payload]; else the first of
    the root object's values, in enumeration order, that is an array with an
    event-like object among its first 20 elements; else the empty list.  An
    [events] array nested under [data] is found with no top-level key. *)
Theorem events_are_resolved_in_order :
  (forall parsed : JValue,
     extractEvents parsed (asRecord (Some parsed)) = ResolverSpec.resolveEvents parsed) /\
  (forall items : list JValue,
     extractEvents (JObj [("data", JObj [("events", JArr items)])])
       (asRecord (Some (JObj [("data", JObj [("events", JArr items)])]))) = items).
Proof.
  split.
  - intros [| b | z | x | s | items | o]; try reflexivity. apply extractEvents_object.
  - reflexivity.
Qed.

(** ** Sorting *)

Section Sorting.

Context {A : Type} (cmp : A -> A -> comparison).

Hypothesis cmp_antisym : forall a b, cmp b a = CompOpp (cmp a b).
Hypothesis cmp_trans : forall a b c, cmp a b <> Gt -> cmp b c <> Gt -> cmp a c <> Gt.

Lemma insertBy_perm (x : A) (l : list A) : Permutation (x :: l) (insertBy cmp x l).
Proof.
  induction l as [| y l IH]; simpl; [reflexivity |].
  destruct (cmp x y); try reflexivity.
  rewrite perm_swap. now constructor.
Qed.

Lemma sortBy_perm (l : list A) : Permutation l (sortBy cmp l).
Proof.
  induction l as [| x l IH]; simpl; [reflexivity |].
  rewrite <- insertBy_perm. now constructor.
Qed.

Lemma insertBy_sorted (x : A) (l : list A) :
  StronglySorted (fun a b => cmp a b <> Gt) l ->
  StronglySorted (fun a b => cmp a b <> Gt) (insertBy cmp x l).
Proof.
  induction 1 as [| y l Hs IH Hy]; simpl.
  - repeat constructor.
  - destruct (cmp x y) eqn:Hxy.
    + constructor; [now constructor |].
      constructor; [congruence |].
      eapply Forall_impl; [| exact Hy]. intros z Hz.
      apply (cmp_trans x y z); congruence.
    + constructor; [now constructor |].
      constructor; [congruence |].
      eapply Forall_impl; [| exact Hy]. intros z Hz.
      apply (cmp_trans x y z); congruence.
    + constructor; [exact IH |].
      rewrite <- insertBy_perm. constructor; [| exact Hy].
      rewrite cmp_antisym, Hxy. discriminate.
Qed.

Lemma sortBy_sorted (l : list A) :
  StronglySorted (fun a b => cmp a b <> Gt) (sortBy cmp l).
Proof.
  induction l as [| x l IH]; simpl; [constructor | now apply insertBy_sorted].
Qed.

End Sorting.

Lemma map_insertBy {A B : Type} (cmp : B -> B -> comparison) (f : A -> B)
    (x : A) (l : list A) :
  List.map f (insertBy (fun a b => cmp (f a) (f b)) x l) =
  insertBy cmp (f x) (List.map f l).
Proof.
  induction l as [| y l IH]; simpl; [reflexivity |].
  destruct (cmp (f x) (f y)); simpl; try reflexivity. now rewrite IH.
Qed.

Lemma map_sortBy {A B : Type} (cmp : B -> B -> comparison) (f : A -> B) (l : list A) :
  List.map f (sortBy (fun a b => cmp (f a) (f b)) l) = sortBy cmp (List.map f l).
Proof.
  induction l as [| x l IH]; simpl; [reflexivity |].
  now rewrite map_insertBy, IH.
Qed.

(** ** Generic metadata entries *)

Section MetaEntries.

Context {E : JsEngine}.

Lemma extractMetaEntries_keys (meta : JRecord) :
  List.map MetaEntry.key (extractMetaEntries (Some meta)) =
  sortBy localeCompare (List.map fst (genericEntries meta)).
Proof.
  unfold extractMetaEntries. rewrite map_map. cbn [MetaEntry.key].
  apply (map_sortBy localeCompare fst).
Qed.

Lemma extractMetaEntries_pairs (meta : JRecord) :
  List.map (fun e => (MetaEntry.key e, MetaEntry.rawValue e))
    (extractMetaEntries (Some meta)) =
  sortBy (fun left right => localeCompare (fst left) (fst right)) (genericEntries meta).
Proof.
  unfold extractMetaEntries. rewrite map_map. cbn [MetaEntry.key MetaEntry.rawValue].
  etransitivity; [| apply map_id]. apply map_ext. now intros [k v].
Qed.

Lemma genericEntries_keys (meta : JRecord) :
  List.map fst (genericEntries meta) =
  filter (fun k => negb (Str.mem k prettyMetaKeys)) (objectKeys meta).
Proof.
  unfold genericEntries, objectKeys.
  induction meta as [| [k v] meta IH]; [reflexivity |].
  cbn [filter List.map fst].
  destruct (negb (Str.mem k prettyMetaKeys)); cbn [List.map fst]; now rewrite IH.
Qed.

(** C6, as amended.  The generic metadata entries are the properties of the
    metadata root whose key is none of the five names [browser], [agent],
    [settings], [templates], [widgets], whether or not a pretty block is
    built for such a name: one entry per kept property, holding its key, its
    value and the summary of the value, in the order of the stable sort of
    the keys by [localeCompare]. *)
Theorem generic_entries_are_the_other_keys_sorted (meta : JRecord) :
  List.map MetaEntry.key (extractMetaEntries (Some meta)) =
    sortBy localeCompare
      (filter (fun k => negb (Str.mem k ["browser"; "agent"; "settings"; "templates"; "widgets"]))
         (objectKeys meta)) /\
  StronglySorted (fun a b => localeCompare a b <> Gt)
    (List.map MetaEntry.key (extractMetaEntries (Some meta))) /\
  Permutation
    (List.map (fun e => (MetaEntry.key e, MetaEntry.rawValue e))
       (extractMetaEntries (Some meta)))
    (filter
       (fun entry =>
          negb (Str.mem (fst entry) ["browser"; "agent"; "settings"; "templates"; "widgets"]))
       meta) /\
  (forall k,
     In k (List.map MetaEntry.key (extractMetaEntries (Some meta))) <->
     In k (objectKeys meta) /\
     ~ In k ["browser"; "agent"; "settings"; "templates"; "widgets"]) /\
  Forall (fun e => MetaEntry.value e = summarizeMetaValue (MetaEntry.rawValue e))
    (extractMetaEntries (Some meta)) /\
  extractMetaEntries None = [].
Proof.
  pose proof (genericEntries_keys meta) as Hkeys.
  repeat split.
  - rewrite extractMetaEntries_keys, Hkeys. reflexivity.
  - rewrite extractMetaEntries_keys.
    apply sortBy_sorted; [apply localeCompare_antisym | apply localeCompare_trans].
  - rewrite extractMetaEntries_pairs. symmetry. apply sortBy_perm.
  - rewrite extractMetaEntries_keys, Hkeys in H.
    apply (Permutation_in _ (Permutation_sym (sortBy_perm _ _))) in H.
    now apply filter_In in H.
  - rewrite extractMetaEntries_keys, Hkeys in H.
    apply (Permutation_in _ (Permutation_sym (sortBy_perm _ _))) in H.
    apply filter_In in H. destruct H as [_ H].
    apply negb_true_iff in H. intros C. apply mem_In in C.
    unfold prettyMetaKeys in H. congruence.
  - intros [Hin Hnot]. rewrite extractMetaEntries_keys, Hkeys.
    apply (Permutation_in _ (sortBy_perm _ _)).
    apply filter_In. split; [exact Hin |].
    apply negb_true_iff. destruct (Str.mem k prettyMetaKeys) eqn:C; [| reflexivity].
    apply mem_In in C. contradiction.
  - unfold extractMetaEntries. apply Forall_forall. intros e He.
    apply in_map_iff in He. destruct He as (x & <- & _). reflexivity.
Qed.

End MetaEntries.

(** A [browser] value that is not an object, an empty [templates] array
    and a [widgets] key get no pretty block and no generic entry. *)
Lemma key_without_block_is_dropped :
  buildPrettyMetaBlocks (E := referenceEngine)
    (Some [("browser", JStr "Chrome"); ("templates", JArr []); ("widgets", JNum 1)]) = [] /\
  extractMetaEntries (E := referenceEngine)
    (Some [("browser", JStr "Chrome"); ("templates", JArr []); ("widgets", JNum 1)]) = [] /\
  ~ keysWithoutBlockAreEntries (E := referenceEngine)
      [("browser", JStr "Chrome"); ("templates", JArr []); ("widgets", JNum 1)].
Proof.
  split; [reflexivity | split; [reflexivity |]].
  intros H. specialize (H "browser"). simpl in H. apply H; auto.
Qed.

(** ** The round trip of [JSON.stringify] and [JSON.parse] *)

(** Induction on a JSON value with the hypothesis for each element of an
    array and each property value of an object. *)
Lemma JValue_ind (P : JValue -> Prop) :
  P JNull ->
  (forall b, P (JBool b)) ->
  (forall z, P (JNum z)) ->
  (forall x, P (JSpecial x)) ->
  (forall s, P (JStr s)) ->
  (forall items, Forall P items -> P (JArr items)) ->
  (forall props, Forall (fun p => P (snd p)) props -> P (JObj props)) ->
  forall v, P v.
Proof.
  intros Hnull Hbool Hnum Hspecial Hstr Harr Hobj.
  fix IH 1. intros [| b | z | x | s | items | props].
  - exact Hnull.
  - apply Hbool.
  - apply Hnum.
  - apply Hspecial.
  - apply Hstr.
  - apply Harr. induction items as [| x items IHitems]; constructor; [apply IH | exact IHitems].
  - apply Hobj. induction props as [| [k x] props IHprops]; constructor;
      [apply IH | exact IHprops].
Qed.

(** *** White space *)

Lemma skipWs_append (w s : string) :
  allWs w = true -> Json.skipWs (w ++ s) = Json.skipWs s.
Proof.
  unfold allWs. induction w as [| c w IH]; simpl; [reflexivity |].
  intros H. apply andb_true_iff in H. destruct H as [Hc Hw]. rewrite Hc. now apply IH.
Qed.

Lemma allWs_append (a b : string) :
  allWs a = true -> allWs b = true -> allWs (a ++ b) = true.
Proof.
  unfold allWs. induction a as [| c a IH]; simpl; [auto |].
  intros H Hb. apply andb_true_iff in H. destruct H as [Hc Ha].
  rewrite Hc. now apply IH.
Qed.

Lemma allWs_opening (gap indent : string) :
  allWs gap = true -> allWs indent = true -> allWs (Json.opening gap indent) = true.
Proof.
  intros Hg Hi. unfold Json.opening. destruct (Str.nonEmpty gap); [| reflexivity].
  apply (allWs_append Json.LF); [reflexivity | now apply allWs_append].
Qed.

Lemma allWs_closing (gap indent : string) :
  allWs indent = true -> allWs (Json.closing gap indent) = true.
Proof.
  intros Hi. unfold Json.closing. destruct (Str.nonEmpty gap); [| reflexivity].
  now apply (allWs_append Json.LF).
Qed.

Lemma allWs_spaces (n : nat) :
  allWs (string_of_list_ascii (repeat " "%char n)) = true.
Proof. induction n as [| n IH]; simpl; [reflexivity | exact IH]. Qed.

(** *** String literals *)

Lemma parseChars_escapeChar (c : ascii) (r : string) :
  Json.parseChars (Json.escapeChar c ++ r) = Json.consChar c (Json.parseChars r).
Proof.
  destruct c as [[] [] [] [] [] [] [] []]; reflexivity.
Qed.

Lemma parseChars_escape (s rest : string) :
  Json.parseChars (Json.escape s ++ String Json.dquote rest) = Some (s, rest).
Proof.
  induction s as [| c s IH]; [reflexivity |].
  cbn [Json.escape]. rewrite append_assoc, parseChars_escapeChar, IH. reflexivity.
Qed.

Lemma parseChars_quote (s rest : string) :
  exists body,
    Json.quote s ++ rest = String Json.dquote body /\
    Json.parseChars body = Some (s, rest).
Proof.
  exists (Json.escape s ++ String Json.dquote rest). split.
  - unfold Json.quote. cbn [append]. now rewrite append_assoc.
  - apply parseChars_escape.
Qed.

(** *** Numbers *)

Lemma spanDigits_digits (d : Decimal.uint) (rest : string) :
  delimited rest = true ->
  Json.spanDigits (NilEmpty.string_of_uint d ++ rest) = (NilEmpty.string_of_uint d, rest).
Proof.
  intros Hrest. induction d; cbn [NilEmpty.string_of_uint append Json.spanDigits];
    try (change (Str.isDigit _) with true; cbn iota; now rewrite IHd).
  destruct rest as [| c rest]; [reflexivity |].
  cbn [Json.spanDigits]. cbn [delimited] in Hrest.
  apply andb_true_iff in Hrest. destruct Hrest as [Hc _].
  apply negb_true_iff in Hc. now rewrite Hc.
Qed.

Lemma delimited_no_fraction (rest : string) :
  delimited rest = true -> Json.startsFraction rest = false.
Proof.
  destruct rest as [| c rest]; [reflexivity |]. cbn [delimited].
  intros H. apply andb_true_iff in H. destruct H as [_ H]. now apply negb_true_iff in H.
Qed.

Lemma to_uint_no_leading_zero (p : positive) (d : Decimal.uint) :
  Pos.to_uint p <> Decimal.D0 d.
Proof.
  intros H.
  pose proof (DecimalPos.Unsigned.to_of (Pos.to_uint p)) as Hn.
  rewrite DecimalPos.Unsigned.of_to in Hn. cbn [N.to_uint] in Hn.
  rewrite H, DecimalFacts.unorm_D0 in Hn.
  unfold Decimal.unorm in Hn.
  destruct (Decimal.nzhead d) eqn:Hd; try discriminate.
  - injection Hn as Hn. subst d.
    apply (DecimalPos.Unsigned.to_uint_nonzero p). exact H.
  - injection Hn as Hn. subst d. now apply DecimalFacts.nzhead_nonzero in Hd.
Qed.

Lemma parseInt_digits (d : Decimal.uint) (rest : string) :
  d <> Decimal.Nil ->
  (forall d', d = Decimal.D0 d' -> d' = Decimal.Nil) ->
  delimited rest = true ->
  Json.parseInt (NilEmpty.string_of_uint d ++ rest) =
    Some (NilEmpty.string_of_uint d, rest).
Proof.
  intros Hnil Hzero Hrest. unfold Json.parseInt, Json.parseDigits.
  rewrite (spanDigits_digits d rest Hrest).
  destruct d; try contradiction;
    try (cbn [NilEmpty.string_of_uint] in *;
         destruct (NilEmpty.string_of_uint d); reflexivity).
  rewrite (Hzero d eq_refl) in *. reflexivity.
Qed.

Lemma digitsValue_digits (d : Decimal.uint) :
  Json.digitsValue (NilEmpty.string_of_uint d) = Z.of_uint d.
Proof. unfold Json.digitsValue. now rewrite NilEmpty.usu. Qed.

Lemma parseFraction_delimited (rest : string) :
  delimited rest = true -> Json.parseFraction rest = Some ("", rest).
Proof.
  intros H. apply delimited_no_fraction in H.
  destruct rest as [| c rest]; [reflexivity |].
  cbn [Json.startsFraction] in H. apply orb_false_iff in H. destruct H as [H _].
  apply orb_false_iff in H. destruct H as [H _].
  cbn [Json.parseFraction]. now rewrite H.
Qed.

Lemma parseExponent_delimited (rest : string) :
  delimited rest = true -> Json.parseExponent rest = Some (0%Z, rest).
Proof.
  intros H. apply delimited_no_fraction in H.
  destruct rest as [| c rest]; [reflexivity |].
  cbn [Json.startsFraction] in H. apply orb_false_iff in H. destruct H as [H HE].
  apply orb_false_iff in H. destruct H as [_ He].
  cbn [Json.parseExponent]. now rewrite He, HE.
Qed.

(** An integer literal in range denotes its integer. *)
Lemma numberOf_integer (negative : bool) (p : positive) :
  Json.inRange (Z.pos p) = true ->
  Json.numberOf negative (Z.pos p) 0 =
    Some (JNum (if negative then Z.neg p else Z.pos p)).
Proof.
  intros Hp. unfold Json.numberOf. cbn [Z.leb Z.compare].
  rewrite Z.pow_0_r, Z.mul_1_r. unfold Json.integerNumber. rewrite Hp.
  cbn [Z.eqb Z.opp]. reflexivity.
Qed.

Lemma uint_head_digit (d : Decimal.uint) :
  d <> Decimal.Nil ->
  exists c s, NilEmpty.string_of_uint d = String c s /\ Ascii.eqb c "-" = false.
Proof.
  intros H. destruct d; try contradiction; eexists; eexists; split; reflexivity.
Qed.

Lemma parseMagnitude_digits (negative : bool) (p : positive) (rest : string) :
  Json.inRange (Z.pos p) = true -> delimited rest = true ->
  Json.parseMagnitude negative (NilEmpty.string_of_uint (Pos.to_uint p) ++ rest) =
    Some (JNum (if negative then Z.neg p else Z.pos p), rest).
Proof.
  intros Hp Hrest. unfold Json.parseMagnitude. rewrite parseInt_digits.
  - rewrite (parseFraction_delimited rest Hrest), (parseExponent_delimited rest Hrest).
    rewrite append_nil_r, digitsValue_digits. unfold Z.of_uint.
    rewrite DecimalPos.Unsigned.of_to.
    change (0 - Z.of_nat (String.length ""))%Z with 0%Z.
    change (Z.of_N (N.pos p)) with (Z.pos p).
    now rewrite (numberOf_integer negative p Hp).
  - apply DecimalPos.Unsigned.to_uint_nonnil.
  - intros d' H. now apply to_uint_no_leading_zero in H.
  - exact Hrest.
Qed.

Lemma parseNumber_unsigned (c : ascii) (r : string) :
  Ascii.eqb c "-" = false ->
  Json.parseNumber (String c r) = Json.parseMagnitude false (String c r).
Proof. intros H. unfold Json.parseNumber. now rewrite H. Qed.

Lemma nz_string_of_pos (p : positive) :
  NilZero.string_of_uint (Pos.to_uint p) = NilEmpty.string_of_uint (Pos.to_uint p).
Proof.
  pose proof (DecimalPos.Unsigned.to_uint_nonnil p) as H.
  destruct (Pos.to_uint p); [contradiction | reflexivity ..].
Qed.

Lemma parseNumber_zero (rest : string) :
  delimited rest = true -> Json.parseNumber (String "0" rest) = Some (JNum 0, rest).
Proof.
  intros Hrest. rewrite parseNumber_unsigned by reflexivity.
  change (String "0" rest) with (NilEmpty.string_of_uint (Decimal.D0 Decimal.Nil) ++ rest).
  unfold Json.parseMagnitude.
  rewrite parseInt_digits; auto; [| discriminate | now intros d' [= <-]].
  rewrite (parseFraction_delimited rest Hrest), (parseExponent_delimited rest Hrest).
  replace (Json.numberOf false
             (Json.digitsValue (NilEmpty.string_of_uint (Decimal.D0 Decimal.Nil) ++ ""))
             (0 - Z.of_nat (String.length "")))
    with (Some (JNum 0)) by (vm_compute; reflexivity).
  reflexivity.
Qed.

Lemma parseNumber_positive (p : positive) (rest : string) :
  Json.inRange (Z.pos p) = true -> delimited rest = true ->
  Json.parseNumber (NilEmpty.string_of_uint (Pos.to_uint p) ++ rest) =
    Some (JNum (Z.pos p), rest).
Proof.
  intros Hp Hrest.
  destruct (uint_head_digit (Pos.to_uint p))
    as (c & s & Hs & Hc); [apply DecimalPos.Unsigned.to_uint_nonnil |].
  rewrite Hs. cbn [append]. rewrite (parseNumber_unsigned c _ Hc).
  change (String c (s ++ rest)) with (String c s ++ rest). rewrite <- Hs.
  apply (parseMagnitude_digits false p rest Hp Hrest).
Qed.

Lemma parseNumber_negative (p : positive) (rest : string) :
  Json.inRange (Z.pos p) = true -> delimited rest = true ->
  Json.parseNumber (String "-" (NilEmpty.string_of_uint (Pos.to_uint p) ++ rest)) =
    Some (JNum (Z.neg p), rest).
Proof.
  intros Hp Hrest.
  change (Json.parseMagnitude true (NilEmpty.string_of_uint (Pos.to_uint p) ++ rest) =
          Some (JNum (Z.neg p), rest)).
  apply (parseMagnitude_digits true p rest Hp Hrest).
Qed.

Lemma inRange_neg (p : positive) :
  Json.inRange (Z.neg p) = Json.inRange (Z.pos p).
Proof.
  unfold Json.inRange. change (Z.neg p) with (- Z.pos p)%Z. now rewrite Z.abs_opp.
Qed.

Lemma parseNumber_ofZ (z : Z) (rest : string) :
  Json.inRange z = true -> delimited rest = true ->
  Json.parseNumber (Str.ofZ z ++ rest) = Some (JNum z, rest).
Proof.
  intros Hz Hrest. unfold Str.ofZ.
  destruct z as [| p | p]; cbn [Z.to_int NilZero.string_of_int].
  - apply (parseNumber_zero rest Hrest).
  - rewrite nz_string_of_pos. now apply parseNumber_positive.
  - rewrite nz_string_of_pos. rewrite inRange_neg in Hz.
    apply (parseNumber_negative p rest Hz Hrest).
Qed.

(** *** Objects *)

Lemma precedes_neq (a b : string) :
  Producible.precedes a b = true -> String.eqb a b = false.
Proof.
  unfold Producible.precedes. intros H. apply andb_true_iff in H.
  destruct H as [H _]. now apply negb_true_iff in H.
Qed.

Lemma hasProp_preceding (p : JRecord) (k : string) :
  Forall (fun e => Producible.precedes (fst e) k = true) p -> Json.hasProp p k = false.
Proof.
  unfold Json.hasProp. induction 1 as [| e p He Hp IH]; simpl; [reflexivity |].
  now rewrite (precedes_neq _ _ He), IH.
Qed.

Lemma insertIndex_preceding (p : JRecord) (n : N) (k : string) (v : JValue) :
  Json.arrayIndex k = Some n ->
  Forall (fun e => Producible.precedes (fst e) k = true) p ->
  Json.insertIndex p n k v = (p ++ [(k, v)])%list.
Proof.
  intros Hk. induction 1 as [| [k' v'] p He Hp IH]; cbn [Json.insertIndex app];
    [reflexivity |].
  unfold Producible.precedes in He. cbn [fst] in He. rewrite Hk in He.
  apply andb_true_iff in He. destruct He as [_ He].
  destruct (Json.arrayIndex k') as [m |]; [| discriminate].
  now rewrite He, IH.
Qed.

Lemma defineProp_preceding (p : JRecord) (k : string) (v : JValue) :
  Forall (fun e => Producible.precedes (fst e) k = true) p ->
  Json.defineProp p k v = (p ++ [(k, v)])%list.
Proof.
  intros H. unfold Json.defineProp. rewrite (hasProp_preceding p k H).
  destruct (Json.arrayIndex k) as [n |] eqn:Hk; [| reflexivity].
  now apply insertIndex_preceding.
Qed.

Lemma enumOrdered_app (a b : list string) :
  Producible.enumOrdered (a ++ b)%list = true ->
  Producible.enumOrdered a = true /\ Producible.enumOrdered b = true /\
  Forall (fun x => forallb (Producible.precedes x) b = true) a.
Proof.
  induction a as [| x a IH]; cbn [app Producible.enumOrdered].
  - intros H. repeat split; [exact H | constructor].
  - intros H. apply andb_true_iff in H. destruct H as [Hx Ha].
    rewrite forallb_app in Hx. apply andb_true_iff in Hx. destruct Hx as [Hxa Hxb].
    destruct (IH Ha) as (H1 & H2 & H3). rewrite Hxa, H1. repeat split; auto.
Qed.

Lemma buildObject_from (s p : JRecord) :
  Producible.enumOrdered (List.map fst (p ++ s)%list) = true ->
  fold_left (fun o e => Json.defineProp o (fst e) (snd e)) s p = (p ++ s)%list.
Proof.
  revert p. induction s as [| [k v] s IH]; intros p H; cbn [fold_left fst snd].
  - now rewrite List.app_nil_r.
  - rewrite defineProp_preceding.
    + rewrite IH; rewrite <- List.app_assoc; [reflexivity | exact H].
    + rewrite map_app in H. apply enumOrdered_app in H. destruct H as (_ & _ & H).
      apply Forall_forall. intros e He.
      rewrite Forall_forall in H. specialize (H (fst e) (in_map fst _ _ He)).
      cbn [List.map fst forallb] in H. apply andb_true_iff in H. tauto.
Qed.

Lemma buildObject_ordered (props : JRecord) :
  Producible.enumOrdered (List.map fst props) = true -> Json.buildObject props = props.
Proof. intros H. unfold Json.buildObject. now rewrite buildObject_from. Qed.

(** *** Values *)

Lemma substring_all (s : string) : String.substring 0 (String.length s) s = s.
Proof. induction s as [| c s IH]; simpl; [reflexivity | now rewrite IH]. Qed.

Lemma substring_skip (a b : string) (n : nat) :
  String.substring (String.length a) n (a ++ b) = String.substring 0 n b.
Proof. induction a as [| c a IH]; simpl; [reflexivity | exact IH]. Qed.

Lemma expect_prefix (lit rest : string) (v : JValue) :
  Json.expect lit v (lit ++ rest) = Some (v, rest).
Proof.
  unfold Json.expect.
  replace (String.prefix lit (lit ++ rest)) with true
    by (symmetry; apply prefix_append; now exists rest).
  rewrite substring_skip, length_append, Nat.add_comm, Nat.add_sub.
  now rewrite substring_all.
Qed.

Lemma ws_delimits (c : ascii) (r : string) :
  Json.isWs c = true -> delimited (String c r) = true.
Proof.
  destruct c as [[] [] [] [] [] [] [] []]; intros H; try discriminate H; reflexivity.
Qed.

Lemma delimited_ws_prefix (w s : string) :
  allWs w = true -> delimited s = true -> delimited (w ++ s) = true.
Proof.
  destruct w as [| c w]; [auto |]. intros H _. cbn [append].
  apply ws_delimits. unfold allWs in H. cbn [allChars] in H.
  apply andb_true_iff in H. tauto.
Qed.

Lemma number_head (z : Z) :
  exists c s, Str.ofZ z = String c s /\ (Str.isDigit c = true \/ c = "-"%char).
Proof.
  unfold Str.ofZ. destruct z as [| p | p]; cbn [Z.to_int NilZero.string_of_int].
  - exists "0"%char, "". split; [reflexivity | now left].
  - pose proof (nz_string_of_uint_digits (Pos.to_uint p)) as H.
    pose proof (string_of_uint_nonEmpty (Pos.to_uint p)) as Hne.
    destruct (NilZero.string_of_uint (Pos.to_uint p)) as [| c s]; [contradiction |].
    exists c, s. split; [reflexivity |]. left.
    cbn [allChars] in H. apply andb_true_iff in H. tauto.
  - eexists. eexists. split; [reflexivity | now right].
Qed.

Lemma number_dispatch (c : ascii) :
  Str.isDigit c = true \/ c = "-"%char ->
  Json.isWs c = false /\ Ascii.eqb c "{" = false /\ Ascii.eqb c "[" = false /\
  Ascii.eqb c Json.dquote = false /\ Ascii.eqb c "t" = false /\
  Ascii.eqb c "f" = false /\ Ascii.eqb c "n" = false /\ Ascii.eqb c "]" = false.
Proof.
  intros [H | ->]; [| repeat split; reflexivity].
  destruct c as [[] [] [] [] [] [] [] []]; try discriminate H; repeat split; reflexivity.
Qed.

Lemma parseValue_number (f : nat) (s : string) (c : ascii) (r : string) :
  Json.skipWs s = String c r ->
  Str.isDigit c = true \/ c = "-"%char ->
  Json.parseValue (S f) s = Json.parseNumber (String c r).
Proof.
  intros Hs Hc. apply number_dispatch in Hc.
  destruct Hc as (_ & H1 & H2 & H3 & H4 & H5 & H6 & _).
  cbn [Json.parseValue]. rewrite Hs, H1, H2, H3, H4, H5, H6. reflexivity.
Qed.

Lemma parseValue_string (f : nat) (s r : string) :
  Json.skipWs s = String Json.dquote r ->
  Json.parseValue (S f) s =
  match Json.parseChars r with
  | Some (str, rest) => Some (JStr str, rest)
  | None => None
  end.
Proof. intros Hs. cbn [Json.parseValue]. rewrite Hs. reflexivity. Qed.

Lemma parseValue_array (f : nat) (s r : string) :
  Json.skipWs s = String "[" r ->
  Json.parseValue (S f) s =
  match Json.skipWs r with
  | String c2 r2 as inside =>
      if Ascii.eqb c2 "]" then Some (JArr [], r2)
      else
        match Json.parseElements f inside with
        | Some (items, rest) => Some (JArr items, rest)
        | None => None
        end
  | EmptyString => None
  end.
Proof. intros Hs. cbn [Json.parseValue]. rewrite Hs. reflexivity. Qed.

Lemma parseValue_object (f : nat) (s r : string) :
  Json.skipWs s = String "{" r ->
  Json.parseValue (S f) s =
  match Json.skipWs r with
  | String c2 r2 as inside =>
      if Ascii.eqb c2 "}" then Some (JObj [], r2)
      else
        match Json.parseMembers f inside with
        | Some (members, rest) => Some (JObj (Json.buildObject members), rest)
        | None => None
        end
  | EmptyString => None
  end.
Proof. intros Hs. cbn [Json.parseValue]. rewrite Hs. reflexivity. Qed.

(** The text of a value starts with a character that is no white space and
    closes no array. *)
Lemma ser_head (gap indent : string) (v : JValue) :
  exists c s,
    Json.ser gap indent v = String c s /\ Json.isWs c = false /\
    Ascii.eqb c "]" = false.
Proof.
  destruct v as [| [] | z | [] | str | [| x items] | [| p props]];
    try (eexists; eexists; split; [reflexivity | split; reflexivity]).
  destruct (number_head z) as (c & s & Hs & Hc). exists c, s.
  apply number_dispatch in Hc. cbn [Json.ser]. tauto.
Qed.

Lemma skipWs_value (gap indent : string) (v : JValue) (w rest : string) :
  allWs w = true ->
  Json.skipWs (w ++ Json.ser gap indent v ++ rest) = Json.ser gap indent v ++ rest.
Proof.
  intros Hw. rewrite skipWs_append by exact Hw.
  destruct (ser_head gap indent v) as (c & s & -> & Hc & _).
  cbn [append Json.skipWs]. now rewrite Hc.
Qed.

Section RoundTrip.

Variable gap : string.
Hypothesis gap_ws : allWs gap = true.

Lemma closing_bracket (cl rest : string) (c : ascii) :
  allWs cl = true -> Json.isWs c = false -> delimited (String c rest) = true ->
  delimited (cl ++ String c rest) = true /\
  Json.skipWs (cl ++ String c rest) = String c rest.
Proof.
  intros Hcl Hc Hd. split.
  - now apply delimited_ws_prefix.
  - rewrite skipWs_append by exact Hcl. cbn [Json.skipWs]. now rewrite Hc.
Qed.

Lemma parseElements_ser (items : list JValue) :
  Forall (Parses gap) items -> forallb Producible.lossless items = true ->
  items <> [] ->
  forall inner op cl w rest fuel,
    allWs inner = true -> allWs op = true -> allWs cl = true -> allWs w = true ->
    costOf items <= fuel ->
    Json.parseElements fuel
      (w ++ Str.join ("," ++ op) (List.map (Json.ser gap inner) items) ++
       cl ++ "]" ++ rest) = Some (items, rest).
Proof.
  induction 1 as [| x items Hx Hitems IH]; intros Hwf Hne; [contradiction |].
  intros inner op cl w rest fuel Hinner Hop Hcl Hw Hfuel.
  cbn [forallb] in Hwf. apply andb_true_iff in Hwf. destruct Hwf as [Hwx Hwitems].
  cbn [costOf fold_right] in Hfuel. fold (costOf items) in Hfuel.
  destruct fuel as [| f]; [lia |]. cbn [Json.parseElements].
  destruct (closing_bracket cl rest "]" Hcl eq_refl eq_refl) as [Hd Hskip].
  destruct items as [| y items].
  - cbn [List.map Str.join String.concat].
    rewrite (Hx Hwx inner w (cl ++ "]" ++ rest) f Hinner Hw Hd) by lia.
    cbn [append] in Hskip |- *. rewrite Hskip. reflexivity.
  - change (Str.join ("," ++ op) (List.map (Json.ser gap inner) (x :: y :: items)))
      with (Json.ser gap inner x ++ ("," ++ op) ++
            Str.join ("," ++ op) (List.map (Json.ser gap inner) (y :: items))).
    rewrite !append_assoc. cbn [append].
    rewrite (Hx Hwx inner w _ f Hinner Hw) by (reflexivity || lia).
    cbn [Json.skipWs]. change (Json.isWs ",") with false. cbn iota.
    change (Ascii.eqb "," "]") with false. change (Ascii.eqb "," ",") with true.
    cbn iota.
    specialize (IH Hwitems ltac:(discriminate) inner op cl op rest f
                  Hinner Hop Hcl Hop ltac:(lia)).
    cbn [append] in IH. rewrite IH. reflexivity.
Qed.

Lemma colon_shape : exists cw, Json.colon gap = String ":" cw /\ allWs cw = true.
Proof.
  unfold Json.colon. destruct (Str.nonEmpty gap); eexists; split; reflexivity.
Qed.

Lemma parseMembers_ser (props : JRecord) :
  Forall (fun p => Parses gap (snd p)) props ->
  forallb (fun p => Producible.lossless (snd p)) props = true ->
  props <> [] ->
  forall inner op cl w rest fuel,
    allWs inner = true -> allWs op = true -> allWs cl = true -> allWs w = true ->
    costOfProps props <= fuel ->
    Json.parseMembers fuel
      (w ++ Str.join ("," ++ op) (List.map (member gap inner) props) ++
       cl ++ "}" ++ rest) = Some (props, rest).
Proof.
  induction 1 as [| [k x] props Hx Hprops IH]; intros Hwf Hne; [contradiction |].
  intros inner op cl w rest fuel Hinner Hop Hcl Hw Hfuel.
  cbn [forallb snd] in Hwf. apply andb_true_iff in Hwf. destruct Hwf as [Hwx Hwprops].
  cbn [costOfProps fold_right snd] in Hfuel. fold (costOfProps props) in Hfuel.
  cbn [snd] in Hx.
  destruct fuel as [| f]; [lia |]. cbn [Json.parseMembers].
  destruct (closing_bracket cl rest "}" Hcl eq_refl eq_refl) as [Hd Hskip].
  destruct colon_shape as (cw & Hcolon & Hcw).
  rewrite skipWs_append by exact Hw.
  destruct props as [| q props].
  - cbn [List.map Str.join String.concat]. unfold member. cbn [fst snd].
    rewrite Hcolon, !append_assoc.
    match goal with
    | |- context [Json.quote k ++ ?R] =>
        destruct (parseChars_quote k R) as (body & Hb & Hp); rewrite Hb
    end.
    cbn [Json.skipWs]. change (Json.isWs Json.dquote) with false. cbn iota.
    rewrite Ascii.eqb_refl, Hp. cbn [append Json.skipWs].
    change (Json.isWs ":") with false. cbn iota. rewrite Ascii.eqb_refl.
    rewrite (Hx Hwx inner cw _ f Hinner Hcw Hd) by lia.
    rewrite Hskip. reflexivity.
  - change (Str.join ("," ++ op) (List.map (member gap inner) ((k, x) :: q :: props)))
      with (member gap inner (k, x) ++ ("," ++ op) ++
            Str.join ("," ++ op) (List.map (member gap inner) (q :: props))).
    unfold member at 1. cbn [fst snd]. rewrite Hcolon, !append_assoc.
    match goal with
    | |- context [Json.quote k ++ ?R] =>
        destruct (parseChars_quote k R) as (body & Hb & Hp); rewrite Hb
    end.
    cbn [Json.skipWs]. change (Json.isWs Json.dquote) with false. cbn iota.
    rewrite Ascii.eqb_refl, Hp. cbn [append Json.skipWs].
    change (Json.isWs ":") with false. cbn iota. rewrite Ascii.eqb_refl.
    rewrite (Hx Hwx inner cw _ f Hinner Hcw) by (reflexivity || lia).
    cbn [Json.skipWs]. change (Json.isWs ",") with false. cbn iota.
    change (Ascii.eqb "," "}") with false. change (Ascii.eqb "," ",") with true.
    cbn iota.
    specialize (IH Hwprops ltac:(discriminate) inner op cl op rest f
                  Hinner Hop Hcl Hop ltac:(lia)).
    cbn [append] in IH. rewrite IH. reflexivity.
Qed.

(** The text of a non-empty sequence starts as the text of its first
    element does. *)
Lemma join_head (sep : string) (part : string) (parts : list string) (tail : string)
    (c : ascii) (s : string) :
  part = String c s ->
  exists s', Str.join sep (part :: parts) ++ tail = String c s'.
Proof.
  intros ->. destruct parts as [| p parts]; cbn [Str.join String.concat append];
    eexists; reflexivity.
Qed.

Theorem parseValue_ser (v : JValue) : Parses gap v.
Proof.
  induction v as [| b | z | x | str | items IH | props IH] using JValue_ind;
    intros Hwf indent w rest fuel Hindent Hw Hrest Hfuel;
    (destruct fuel as [| f]; [cbn [Producible.cost] in Hfuel; lia |]).
  - cbn [Json.parseValue].
    rewrite (skipWs_value gap indent JNull w rest Hw). cbn [Json.ser append].
    apply (expect_prefix "null").
  - cbn [Json.parseValue].
    rewrite (skipWs_value gap indent (JBool b) w rest Hw).
    destruct b; cbn [Json.ser append];
      [apply (expect_prefix "true") | apply (expect_prefix "false")].
  - destruct (number_head z) as (c & s & Hs & Hc).
    rewrite (parseValue_number f _ c (s ++ rest)); [| | exact Hc].
    + change (String c (s ++ rest)) with (String c s ++ rest). rewrite <- Hs.
      cbn [Json.ser]. now rewrite parseNumber_ofZ.
    + rewrite (skipWs_value gap indent (JNum z) w rest Hw). cbn [Json.ser].
      now rewrite Hs.
  - discriminate Hwf.
  - destruct (parseChars_quote str rest) as (body & Hbody & Hparse).
    rewrite (parseValue_string f _ body).
    + now rewrite Hparse.
    + rewrite (skipWs_value gap indent (JStr str) w rest Hw). exact Hbody.
  - cbn [Producible.lossless] in Hwf. cbn [Producible.cost] in Hfuel.
    fold (costOf items) in Hfuel.
    destruct items as [| x items].
    + rewrite (parseValue_array f _ ("]" ++ rest)).
      * reflexivity.
      * now rewrite (skipWs_value gap indent (JArr []) w rest Hw).
    + pose proof (allWs_opening gap indent gap_ws Hindent) as Hop.
      pose proof (allWs_closing gap indent Hindent) as Hcl.
      pose proof (allWs_append indent gap Hindent gap_ws) as Hinner.
      set (T := Str.join ("," ++ Json.opening gap indent)
                  (List.map (Json.ser gap (indent ++ gap)) (x :: items)) ++
                Json.closing gap indent ++ "]" ++ rest).
      rewrite (parseValue_array f _ (Json.opening gap indent ++ T)).
      * destruct (ser_head gap (indent ++ gap) x) as (c & s & Hs & Hc & Hb).
        destruct (join_head ("," ++ Json.opening gap indent) _
                    (List.map (Json.ser gap (indent ++ gap)) items)
                    (Json.closing gap indent ++ "]" ++ rest) c s Hs) as (s' & HT).
        rewrite skipWs_append by exact Hop.
        change (Str.join _ _ ++ _) with T in HT. rewrite HT.
        cbn [Json.skipWs]. rewrite Hc, Hb. rewrite <- HT.
        change T with ("" ++ T). unfold T.
        rewrite (parseElements_ser (x :: items) IH Hwf ltac:(discriminate)
                   (indent ++ gap) _ _ "" rest f Hinner Hop Hcl eq_refl);
          [reflexivity | unfold costOf in *; lia].
      * rewrite (skipWs_value gap indent (JArr (x :: items)) w rest Hw).
        unfold T. cbn [Json.ser]. now rewrite !append_assoc.
  - cbn [Producible.lossless] in Hwf. apply andb_true_iff in Hwf.
    destruct Hwf as [Hord Hwf]. cbn [Producible.cost] in Hfuel.
    fold (costOfProps props) in Hfuel.
    destruct props as [| p props].
    + rewrite (parseValue_object f _ ("}" ++ rest)).
      * reflexivity.
      * now rewrite (skipWs_value gap indent (JObj []) w rest Hw).
    + pose proof (allWs_opening gap indent gap_ws Hindent) as Hop.
      pose proof (allWs_closing gap indent Hindent) as Hcl.
      pose proof (allWs_append indent gap Hindent gap_ws) as Hinner.
      set (T := Str.join ("," ++ Json.opening gap indent)
                  (List.map (member gap (indent ++ gap)) (p :: props)) ++
                Json.closing gap indent ++ "}" ++ rest).
      rewrite (parseValue_object f _ (Json.opening gap indent ++ T)).
      * destruct (join_head ("," ++ Json.opening gap indent)
                    (member gap (indent ++ gap) p)
                    (List.map (member gap (indent ++ gap)) props)
                    (Json.closing gap indent ++ "}" ++ rest) Json.dquote
                    (Json.escape (fst p) ++ String Json.dquote "" ++
                     Json.colon gap ++ Json.ser gap (indent ++ gap) (snd p)))
          as (s' & HT).
        { unfold member, Json.quote. cbn [append]. now rewrite !append_assoc. }
        rewrite skipWs_append by exact Hop.
        change (Str.join _ _ ++ _) with T in HT. rewrite HT.
        cbn [Json.skipWs]. change (Json.isWs Json.dquote) with false. cbn iota.
        change (Ascii.eqb Json.dquote "}") with false. cbn iota.
        rewrite <- HT. change T with ("" ++ T). unfold T.
        rewrite (parseMembers_ser (p :: props) IH Hwf ltac:(discriminate)
                   (indent ++ gap) _ _ "" rest f Hinner Hop Hcl eq_refl);
          [| unfold costOfProps in *; lia].
        now rewrite (buildObject_ordered _ Hord).
      * rewrite (skipWs_value gap indent (JObj (p :: props)) w rest Hw).
        unfold T. cbn [Json.ser]. now rewrite !append_assoc.
Qed.

End RoundTrip.

(** *** The whole text *)

Lemma join_cost {A : Type} (cost : A -> nat) (text : A -> string) (sep : string)
    (l : list A) :
  Forall (fun a => cost a <= String.length (text a)) l ->
  1 <= String.length sep ->
  fold_right (fun a n => S (cost a + n)) 0 l <=
  String.length (Str.join sep (List.map text l)) + 1.
Proof.
  intros H Hsep. induction H as [| a l Ha Hl IH]; cbn [fold_right]; [lia |].
  destruct l as [| b l].
  - cbn [fold_right List.map Str.join String.concat]. lia.
  - change (Str.join sep (List.map text (a :: b :: l)))
      with (text a ++ sep ++ Str.join sep (List.map text (b :: l))).
    rewrite !length_append. lia.
Qed.

Lemma cost_le_length (gap : string) (v : JValue) :
  forall indent, Producible.cost v <= String.length (Json.ser gap indent v).
Proof.
  induction v as [| b | z | x | str | items IH | props IH] using JValue_ind; intros indent.
  - cbn. lia.
  - destruct b; cbn; lia.
  - cbn [Producible.cost Json.ser]. pose proof (ofZ_nonEmpty z) as H.
    destruct (Str.ofZ z); [contradiction | cbn; lia].
  - destruct x; cbn; lia.
  - cbn [Producible.cost Json.ser]. unfold Json.quote. cbn [String.length]. lia.
  - destruct items as [| x items]; [cbn; lia |].
    cbn [Producible.cost Json.ser]. rewrite !length_append.
    pose proof (join_cost Producible.cost (Json.ser gap (indent ++ gap))
                  ("," ++ Json.opening gap indent) (x :: items)) as H.
    cbn [String.length append] in H |- *.
    assert (Hall : Forall
                     (fun a => Producible.cost a <=
                               String.length (Json.ser gap (indent ++ gap) a))
                     (x :: items))
      by (eapply Forall_impl; [| exact IH]; intros a Ha; apply Ha).
    specialize (H Hall ltac:(lia)). lia.
  - destruct props as [| p props]; [cbn; lia |].
    cbn [Producible.cost Json.ser]. rewrite !length_append.
    pose proof (join_cost (fun p => Producible.cost (snd p))
                  (fun p => Json.quote (fst p) ++ Json.colon gap ++
                            Json.ser gap (indent ++ gap) (snd p))
                  ("," ++ Json.opening gap indent) (p :: props)) as H.
    cbn [String.length append] in H |- *.
    assert (Hall : Forall
                     (fun a => Producible.cost (snd a) <=
                               String.length
                                 (Json.quote (fst a) ++ Json.colon gap ++
                                  Json.ser gap (indent ++ gap) (snd a)))
                     (p :: props)).
    { eapply Forall_impl; [| exact IH]. intros a Ha. cbn beta in Ha.
      rewrite !length_append. specialize (Ha (indent ++ gap)). lia. }
    specialize (H Hall ltac:(lia)). lia.
Qed.

(** [JSON.parse(JSON.stringify(v, null, indentation))] is [v], for a value
    that [JSON.stringify] writes as it is. *)
Lemma parse_stringify_lossless (v : JValue) (indentation : nat) :
  Producible.lossless v = true ->
  Json.parse (Json.stringify v indentation) = Some v.
Proof.
  intros Hwf. unfold Json.parse, Json.stringify.
  set (gap := string_of_list_ascii (repeat " "%char (Nat.min indentation 10))).
  pose proof (parseValue_ser gap (allWs_spaces _) v Hwf "" "" ""
                (S (String.length (Json.ser gap "" v))) eq_refl eq_refl eq_refl) as H.
  cbn [append] in H. rewrite append_nil_r in H.
  rewrite H; [reflexivity |].
  pose proof (cost_le_length gap v ""). lia.
Qed.

(** *** What is written *)

Lemma map_written_keys (props : JRecord) :
  List.map fst (List.map (fun p => (fst p, Producible.written (snd p))) props) =
  List.map fst props.
Proof. rewrite List.map_map. apply List.map_ext. reflexivity. Qed.

(** The text of a value is the text of what is written for it. *)
Lemma ser_written (gap : string) (v : JValue) :
  forall indent,
    Json.ser gap indent (Producible.written v) = Json.ser gap indent v.
Proof.
  induction v as [| b | z | x | str | items IH | props IH] using JValue_ind;
    intros indent; try reflexivity.
  - destruct x; reflexivity.
  - cbn [Producible.written]. destruct items as [| y items]; [reflexivity |].
    cbn [List.map]. change (Producible.written y :: List.map Producible.written items)
      with (List.map Producible.written (y :: items)).
    cbn [Json.ser]. rewrite List.map_map.
    assert (Hmap : List.map (fun a => Json.ser gap (indent ++ gap) (Producible.written a))
                     (y :: items) =
                   List.map (Json.ser gap (indent ++ gap)) (y :: items)).
    { apply List.map_ext_in. intros a Ha. rewrite Forall_forall in IH. now apply IH. }
    rewrite Hmap. destruct (List.map Producible.written (y :: items)) eqn:Hw;
      [discriminate | reflexivity].
  - cbn [Producible.written]. destruct props as [| q props]; [reflexivity |].
    cbn [List.map].
    change ((fst q, Producible.written (snd q)) ::
            List.map (fun p => (fst p, Producible.written (snd p))) props)
      with (List.map (fun p => (fst p, Producible.written (snd p))) (q :: props)).
    cbn [Json.ser]. rewrite List.map_map.
    assert (Hmap : List.map
                     (fun a => Json.quote (fst (fst a, Producible.written (snd a))) ++
                               Json.colon gap ++
                               Json.ser gap (indent ++ gap)
                                 (snd (fst a, Producible.written (snd a))))
                     (q :: props) =
                   List.map
                     (fun p => Json.quote (fst p) ++ Json.colon gap ++
                               Json.ser gap (indent ++ gap) (snd p))
                     (q :: props)).
    { apply List.map_ext_in. intros a Ha. cbn [fst snd].
      rewrite Forall_forall in IH. now rewrite (IH a Ha). }
    rewrite Hmap.
    destruct (List.map (fun p => (fst p, Producible.written (snd p))) (q :: props)) eqn:Hw;
      [discriminate | reflexivity].
Qed.

(** What is written for a well-formed value is written as it is. *)
Lemma written_lossless (v : JValue) :
  Producible.wellFormed v = true -> Producible.lossless (Producible.written v) = true.
Proof.
  induction v as [| b | z | x | str | items IH | props IH] using JValue_ind;
    cbn [Producible.wellFormed Producible.written Producible.lossless];
    try (intros _; reflexivity).
  - auto.
  - intros _. destruct x; vm_compute; reflexivity.
  - intros H. rewrite forallb_forall in H. apply forallb_forall.
    intros y Hy. apply in_map_iff in Hy. destruct Hy as (a & <- & Ha).
    rewrite Forall_forall in IH. apply IH; auto.
  - intros H. apply andb_true_iff in H. destruct H as [Hord H].
    rewrite map_written_keys, Hord. cbn [andb].
    rewrite forallb_forall in H. apply forallb_forall.
    intros y Hy. apply in_map_iff in Hy. destruct Hy as (a & <- & Ha).
    cbn [snd]. rewrite Forall_forall in IH. apply IH; auto.
Qed.

(** A well-formed value is written as it is exactly when it holds no
    negative zero and no infinity. *)
Lemma written_fixed (v : JValue) :
  Producible.wellFormed v = true ->
  (Producible.written v = v <-> Producible.lossless v = true).
Proof.
  intros Hwf. split.
  - intros H. rewrite <- H. now apply written_lossless.
  - clear Hwf.
    induction v as [| b | z | x | str | items IH | props IH] using JValue_ind;
      cbn [Producible.written Producible.lossless]; try reflexivity.
    + discriminate.
    + intros H. f_equal. rewrite forallb_forall in H. rewrite Forall_forall in IH.
      rewrite <- (List.map_id items) at 2. apply List.map_ext_in.
      intros a Ha. apply IH; auto.
    + intros H. apply andb_true_iff in H. destruct H as [_ H]. f_equal.
      rewrite forallb_forall in H. rewrite Forall_forall in IH.
      rewrite <- (List.map_id props) at 2. apply List.map_ext_in.
      intros [k a] Ha. cbn [fst snd]. f_equal. apply (IH (k, a) Ha). now apply (H (k, a)).
Qed.

(** [JSON.parse(JSON.stringify(v, null, indentation))] is what is written
    for [v], for a value in the range of [JSON.parse]. *)
Theorem parse_stringify (v : JValue) (indentation : nat) :
  Producible.wellFormed v = true ->
  Json.parse (Json.stringify v indentation) = Some (Producible.written v).
Proof.
  intros Hwf. unfold Json.stringify. rewrite <- ser_written.
  apply (parse_stringify_lossless (Producible.written v) indentation).
  now apply written_lossless.
Qed.

(** *** The values the parser produces *)

Lemma arrayIndex_canonical (k : string) (n : N) :
  Json.arrayIndex k = Some n -> k = Str.ofZ (Z.of_N n).
Proof.
  unfold Json.arrayIndex. destruct (NilZero.uint_of_string k) as [d |]; [| discriminate].
  destruct (String.eqb (Str.ofZ (Z.of_N (N.of_uint d))) k) eqn:Hk; [| discriminate].
  destruct (N.of_uint d <? 4294967295)%N; [| discriminate].
  cbn [andb]. intros [= <-]. apply String.eqb_eq in Hk. now symmetry.
Qed.

Lemma arrayIndex_neq (a b : string) :
  Json.arrayIndex a <> Json.arrayIndex b -> String.eqb a b = false.
Proof. intros H. apply String.eqb_neq. intros ->. now apply H. Qed.

Lemma precedes_index (a b : string) (m n : N) :
  Json.arrayIndex a = Some m -> Json.arrayIndex b = Some n -> (m < n)%N ->
  Producible.precedes a b = true.
Proof.
  intros Ha Hb Hlt. unfold Producible.precedes. rewrite Ha, Hb.
  rewrite arrayIndex_neq by (rewrite Ha, Hb; intros [= H]; lia).
  now apply N.ltb_lt.
Qed.

Lemma precedes_index_other (a b : string) (m : N) :
  Json.arrayIndex a = Some m -> Json.arrayIndex b = None ->
  Producible.precedes a b = true.
Proof.
  intros Ha Hb. unfold Producible.precedes. rewrite Ha, Hb.
  now rewrite arrayIndex_neq by (rewrite Ha, Hb; discriminate).
Qed.

Lemma precedes_other (a b : string) :
  Json.arrayIndex b = None -> String.eqb a b = false ->
  Producible.precedes a b = true.
Proof.
  intros Hb Hne. unfold Producible.precedes. rewrite Hb, Hne.
  now destruct (Json.arrayIndex a).
Qed.

(** What [precedes x z] tells of [z], by the kind of [x]. *)
Lemma precedes_inv (x z : string) :
  Producible.precedes x z = true ->
  match Json.arrayIndex x with
  | Some m => Json.arrayIndex z = None \/
              exists m', Json.arrayIndex z = Some m' /\ (m < m')%N
  | None => Json.arrayIndex z = None
  end.
Proof.
  unfold Producible.precedes. intros H. apply andb_true_iff in H. destruct H as [_ H].
  destruct (Json.arrayIndex x) as [m |], (Json.arrayIndex z) as [m' |];
    try discriminate; auto.
  right. exists m'. split; [reflexivity | now apply N.ltb_lt].
Qed.

Lemma replaceProp_keys (o : JRecord) (k : string) (v : JValue) :
  List.map fst (Json.replaceProp o k v) = List.map fst o.
Proof.
  induction o as [| [k' v'] o IH]; cbn [Json.replaceProp List.map fst]; [reflexivity |].
  destruct (String.eqb k' k); cbn [List.map fst]; [reflexivity | now rewrite IH].
Qed.

Lemma insertIndex_forallb (P : string -> bool) (o : JRecord) (n : N) (k : string)
    (v : JValue) :
  forallb P (List.map fst (Json.insertIndex o n k v)) =
  P k && forallb P (List.map fst o).
Proof.
  induction o as [| [k' v'] o IH]; cbn [Json.insertIndex List.map fst forallb].
  - reflexivity.
  - destruct (Json.arrayIndex k') as [m |]; [destruct (m <? n)%N |];
      cbn [List.map fst forallb]; try reflexivity.
    rewrite IH. now rewrite !andb_assoc, (andb_comm (P k')).
Qed.

Lemma hasProp_cons (k' : string) (v' : JValue) (o : JRecord) (k : string) :
  Json.hasProp ((k', v') :: o) k = false ->
  String.eqb k' k = false /\ Json.hasProp o k = false.
Proof.
  unfold Json.hasProp. cbn [existsb fst]. intros H. now apply orb_false_iff in H.
Qed.

Lemma insertIndex_ordered (o : JRecord) (n : N) (k : string) (v : JValue) :
  Json.arrayIndex k = Some n -> Json.hasProp o k = false ->
  Producible.enumOrdered (List.map fst o) = true ->
  Producible.enumOrdered (List.map fst (Json.insertIndex o n k v)) = true.
Proof.
  intros Hk. induction o as [| [k' v'] o IH]; intros Hhas Hord;
    cbn [Json.insertIndex List.map fst Producible.enumOrdered forallb].
  - reflexivity.
  - apply hasProp_cons in Hhas. destruct Hhas as [Hne Hhas].
    cbn [List.map fst Producible.enumOrdered] in Hord.
    apply andb_true_iff in Hord. destruct Hord as [Hk' Hord].
    assert (Hkk' : String.eqb k k' = false) by now rewrite String.eqb_sym.
    assert (Hafter :
      (forall z, Producible.precedes k' z = true -> Producible.precedes k' k = false ->
                 Producible.precedes k z = true)).
    { intros z Hz Hnot. apply precedes_inv in Hz.
      unfold Producible.precedes in Hnot. rewrite Hne, Hk in Hnot. cbn [negb andb] in Hnot.
      destruct (Json.arrayIndex k') as [m |] eqn:Hm.
      - apply N.ltb_ge in Hnot.
        destruct Hz as [Hz | (m' & Hz & Hlt)].
        + now apply (precedes_index_other k z n).
        + apply (precedes_index k z n m'); auto.
          assert (m <> n)
            by (intros ->; apply arrayIndex_canonical in Hm, Hk;
                apply String.eqb_neq in Hne; congruence).
          lia.
      - now apply (precedes_index_other k z n). }
    destruct (Json.arrayIndex k') as [m |] eqn:Hm; [destruct (m <? n)%N eqn:Hmn |];
      cbn [List.map fst Producible.enumOrdered forallb].
    + rewrite insertIndex_forallb, Hk', (IH Hhas Hord).
      rewrite (precedes_index k' k m n Hm Hk) by now apply N.ltb_lt.
      reflexivity.
    + assert (Hnot : Producible.precedes k' k = false).
      { unfold Producible.precedes. rewrite Hm, Hk, Hmn. apply andb_false_r. }
      rewrite Hk', Hord, !andb_true_r. apply andb_true_iff. split.
      * apply N.ltb_ge in Hmn.
        apply (precedes_index k k' n m); auto.
        assert (m <> n)
          by (intros ->; apply arrayIndex_canonical in Hm, Hk;
              apply String.eqb_neq in Hne; congruence).
        lia.
      * apply forallb_forall. intros z Hz.
        rewrite forallb_forall in Hk'. now apply Hafter; [apply Hk' |].
    + assert (Hnot : Producible.precedes k' k = false).
      { unfold Producible.precedes. rewrite Hm, Hk. apply andb_false_r. }
      rewrite Hk', Hord, !andb_true_r. apply andb_true_iff. split.
      * now apply (precedes_index_other k k' n).
      * apply forallb_forall. intros z Hz.
        rewrite forallb_forall in Hk'. now apply Hafter; [apply Hk' |].
Qed.

Lemma enumOrdered_snoc (keys : list string) (k : string) :
  Producible.enumOrdered keys = true ->
  forallb (fun x => Producible.precedes x k) keys = true ->
  Producible.enumOrdered (keys ++ [k]) = true.
Proof.
  induction keys as [| x keys IH]; cbn [app Producible.enumOrdered forallb];
    [reflexivity |].
  intros H1 H2. apply andb_true_iff in H1, H2. destruct H1 as [Hx H1], H2 as [Hxk H2].
  rewrite forallb_app, Hx, (IH H1 H2). cbn [forallb]. now rewrite Hxk.
Qed.

Lemma defineProp_ordered (o : JRecord) (k : string) (v : JValue) :
  Producible.enumOrdered (List.map fst o) = true ->
  Producible.enumOrdered (List.map fst (Json.defineProp o k v)) = true.
Proof.
  intros Hord. unfold Json.defineProp.
  destruct (Json.hasProp o k) eqn:Hhas.
  - now rewrite replaceProp_keys.
  - destruct (Json.arrayIndex k) as [n |] eqn:Hk.
    + now apply insertIndex_ordered.
    + rewrite map_app. cbn [List.map fst]. apply enumOrdered_snoc; [exact Hord |].
      apply forallb_forall. intros x Hx. apply precedes_other; [exact Hk |].
      apply in_map_iff in Hx. destruct Hx as ([x' v'] & <- & Hin). cbn [fst].
      unfold Json.hasProp in Hhas.
      destruct (String.eqb x' k) eqn:Hxk; [| reflexivity].
      assert (existsb (fun p => String.eqb (fst p) k) o = true)
        by (apply existsb_exists; exists (x', v'); auto).
      congruence.
Qed.

Lemma defineProp_values (P : JValue -> bool) (o : JRecord) (k : string) (v : JValue) :
  P v = true -> forallb (fun p => P (snd p)) o = true ->
  forallb (fun p => P (snd p)) (Json.defineProp o k v) = true.
Proof.
  intros Hv Ho. unfold Json.defineProp.
  destruct (Json.hasProp o k).
  - induction o as [| [k' v'] o IH]; cbn [Json.replaceProp]; [reflexivity |].
    cbn [forallb snd] in Ho. apply andb_true_iff in Ho. destruct Ho as [Hv' Ho].
    destruct (String.eqb k' k); cbn [forallb snd].
    + now rewrite Hv, Ho.
    + now rewrite Hv', (IH Ho).
  - destruct (Json.arrayIndex k) as [n |].
    + induction o as [| [k' v'] o IH]; cbn [Json.insertIndex forallb snd].
      * now rewrite Hv.
      * cbn [forallb snd] in Ho. apply andb_true_iff in Ho. destruct Ho as [Hv' Ho].
        destruct (Json.arrayIndex k') as [m |]; [destruct (m <? n)%N |];
          cbn [forallb snd]; rewrite ?Hv, ?Hv', ?Ho, ?(IH Ho); reflexivity.
    + rewrite forallb_app. cbn [forallb snd]. now rewrite Ho, Hv.
Qed.

Lemma buildObject_wellFormed (members : JRecord) :
  forallb (fun p => Producible.wellFormed (snd p)) members = true ->
  Producible.wellFormed (JObj (Json.buildObject members)) = true.
Proof.
  intros H. unfold Json.buildObject.
  assert (Hgen : forall acc,
             Producible.wellFormed (JObj acc) = true ->
             Producible.wellFormed
               (JObj (fold_left (fun o p => Json.defineProp o (fst p) (snd p)) members acc))
             = true).
  { induction members as [| [k v] members IH]; intros acc Hacc; cbn [fold_left];
      [exact Hacc |].
    cbn [forallb snd] in H. apply andb_true_iff in H. destruct H as [Hv H].
    apply (IH H). cbn [Producible.wellFormed fst snd] in Hacc |- *.
    apply andb_true_iff in Hacc. destruct Hacc as [H1 H2].
    now rewrite defineProp_ordered, defineProp_values. }
  apply Hgen. reflexivity.
Qed.

Lemma inRange_opp (z : Z) : Json.inRange (- z) = Json.inRange z.
Proof. unfold Json.inRange. now rewrite Z.abs_opp. Qed.

Lemma zero_wellFormed (negative : bool) :
  Producible.wellFormed (Json.zero negative) = true.
Proof. destruct negative; vm_compute; reflexivity. Qed.

Lemma integerNumber_wellFormed (negative : bool) (z : Z) (v : JValue) :
  Json.integerNumber negative z = Some v -> Producible.wellFormed v = true.
Proof.
  unfold Json.integerNumber. destruct (Json.inRange z) eqn:Hz.
  - intros [= <-]. destruct (z =? 0)%Z; [apply zero_wellFormed |].
    cbn [Producible.wellFormed]. destruct negative; [now rewrite inRange_opp | exact Hz].
  - destruct (Json.overflow <=? z)%Z; [| discriminate].
    intros [= <-]. reflexivity.
Qed.

Lemma numberOf_wellFormed (negative : bool) (mantissa exponent : Z) (v : JValue) :
  Json.numberOf negative mantissa exponent = Some v -> Producible.wellFormed v = true.
Proof.
  unfold Json.numberOf. destruct (0 <=? exponent)%Z; [apply integerNumber_wellFormed |].
  cbv zeta.
  match goal with |- (if ?c then _ else _) = _ -> _ => destruct c end;
    [apply integerNumber_wellFormed |].
  match goal with |- (if ?c then _ else _) = _ -> _ => destruct c end;
    [now intros [= <-] |].
  match goal with |- (if ?c then _ else _) = _ -> _ => destruct c end;
    [| discriminate].
  intros [= <-]. apply zero_wellFormed.
Qed.

Lemma parseMagnitude_wellFormed (negative : bool) (s : string) (v : JValue)
    (rest : string) :
  Json.parseMagnitude negative s = Some (v, rest) -> Producible.wellFormed v = true.
Proof.
  unfold Json.parseMagnitude.
  destruct (Json.parseInt s) as [[whole afterWhole] |]; [| discriminate].
  destruct (Json.parseFraction afterWhole) as [[fraction afterFraction] |];
    [| discriminate].
  destruct (Json.parseExponent afterFraction) as [[exponent rest'] |]; [| discriminate].
  destruct (Json.numberOf negative (Json.digitsValue (whole ++ fraction))
              (exponent - Z.of_nat (String.length fraction))) as [n |] eqn:Hn;
    [| discriminate].
  cbn [option_map]. intros [= <- _]. now apply numberOf_wellFormed in Hn.
Qed.

Lemma parseNumber_wellFormed (s : string) (v : JValue) (rest : string) :
  Json.parseNumber s = Some (v, rest) -> Producible.wellFormed v = true.
Proof.
  unfold Json.parseNumber. destruct s as [| c r]; [discriminate |].
  destruct (Ascii.eqb c "-"); apply parseMagnitude_wellFormed.
Qed.

Ltac split_match H :=
  repeat match type of H with
    | match ?x with _ => _ end = Some _ => destruct x eqn:?; try discriminate H
    | (if ?x then _ else _) = Some _ => destruct x eqn:?; try discriminate H
    | (let (_, _) := ?x in _) = Some _ => destruct x eqn:?
    end.

Lemma parse_steps_wellFormed (fuel : nat) :
  (forall s v rest, Json.parseValue fuel s = Some (v, rest) ->
                    Producible.wellFormed v = true) /\
  (forall s vs rest, Json.parseElements fuel s = Some (vs, rest) ->
                     forallb Producible.wellFormed vs = true) /\
  (forall s ms rest, Json.parseMembers fuel s = Some (ms, rest) ->
                     forallb (fun p => Producible.wellFormed (snd p)) ms = true).
Proof.
  induction fuel as [| f (IHv & IHe & IHm)]; [repeat split; discriminate |].
  repeat split.
  - intros s v rest H. cbn [Json.parseValue] in H.
    unfold Json.expect, option_map in H.
    split_match H; try (now apply parseNumber_wellFormed in H);
      injection H as <- _; try reflexivity.
    + eapply buildObject_wellFormed, IHm; eassumption.
    + cbn [Producible.wellFormed]. eapply IHe; eassumption.
  - intros s vs rest H. cbn [Json.parseElements] in H.
    split_match H; injection H as <- _; cbn [forallb].
    + erewrite IHv by eassumption. reflexivity.
    + erewrite IHv by eassumption. eapply IHe; eassumption.
  - intros s ms rest H. cbn [Json.parseMembers] in H.
    split_match H; injection H as <- _; cbn [forallb snd].
    + erewrite IHv by eassumption. reflexivity.
    + erewrite IHv by eassumption. eapply IHm; eassumption.
Qed.

(** Every value of the reference parser is well formed. *)
Theorem parse_wellFormed (text : string) (v : JValue) :
  Json.parse text = Some v -> Producible.wellFormed v = true.
Proof.
  unfold Json.parse. intros H. split_match H. injection H as <-.
  eapply parse_steps_wellFormed; eassumption.
Qed.

(** ** The raw JSON of an event *)










Section RawJson.

Context {E : JsEngine}.


End RawJson.



(** A raw event with an infinite number, read from a literal too large for
    a number: its [rawJson] has [null] for the number and does not parse
    back to the event. *)
Example rawJson_of_an_infinite_number_has_null :
  Json.parse ("[{" ++ Json.quote "x" ++ ":1e400}]") =
    Some (JArr [JObj [("x", JSpecial PositiveInfinity)]]) /\
  extractEvents (JArr [JObj [("x", JSpecial PositiveInfinity)]])
    (asRecord (Some (JArr [JObj [("x", JSpecial PositiveInfinity)]]))) =
    [JObj [("x", JSpecial PositiveInfinity)]] /\
  Json.parse
    (EventView.rawJson (toEventView (JObj [("x", JSpecial PositiveInfinity)]) 0)) =
    Some (JObj [("x", JNull)]) /\
  @JSON_parse referenceEngine
    (EventView.rawJson (toEventView (JObj [("x", JSpecial PositiveInfinity)]) 0))
    <> Parsed (JObj [("x", JSpecial PositiveInfinity)]).
Proof.
  repeat split; try (vm_compute; reflexivity). vm_compute. discriminate.
Qed.

(** * Further properties *)

(** ** Selections *)

Lemma mem_false (x : string) (xs : list string) : Str.mem x xs = false <-> ~ In x xs.
Proof.
  rewrite <- mem_In. destruct (Str.mem x xs); split; intros; congruence.
Qed.

Lemma toggleSelection_In (values : list string) (option : string) (checked : bool)
    (x : string) :
  In x (toggleSelection values option checked) <->
  if checked then In x values \/ x = option else In x values /\ x <> option.
Proof.
  unfold toggleSelection.
  destruct (Str.mem option values) eqn:Hmem; destruct checked; cbn [negb andb].
  - apply mem_In in Hmem. split; [now left | intros [H | ->]; assumption].
  - rewrite filter_In, negb_true_iff, String.eqb_neq. reflexivity.
  - rewrite in_app_iff. cbn [In]. intuition.
  - apply mem_false in Hmem. split; [| tauto].
    intros H. split; [exact H | intros ->; contradiction].
Qed.

Lemma toggleSelection_mem (values : list string) (option : string) (checked : bool) :
  Str.mem option (toggleSelection values option checked) = checked.
Proof.
  destruct checked.
  - apply mem_In, toggleSelection_In. now right.
  - apply mem_false. rewrite toggleSelection_In. tauto.
Qed.

(** X1.  [toggleSelection] sets the membership of the option to the state
    of the check box and nothing else: checked, the result has the old
    values and the option; unchecked, the old values but the option. *)
Theorem toggleSelection_sets_membership
    (values : list string) (option : string) (checked : bool) :
  (forall x,
     In x (toggleSelection values option checked) <->
     if checked then In x values \/ x = option else In x values /\ x <> option) /\
  Str.mem option (toggleSelection values option checked) = checked.
Proof.
  split; [apply toggleSelection_In | apply toggleSelection_mem].
Qed.

Lemma filter_neq_absent (values : list string) (option : string) :
  ~ In option values ->
  filter (fun value => negb (String.eqb value option)) values = values.
Proof.
  induction values as [| v values IH]; cbn [filter In]; [reflexivity |].
  intros H. destruct (String.eqb_spec v option) as [-> | Hne]; cbn [negb].
  - exfalso. apply H. now left.
  - rewrite IH; [reflexivity | tauto].
Qed.

Lemma filter_app_last (values : list string) (option : string) :
  filter (fun value => negb (String.eqb value option)) (values ++ [option]) =
  filter (fun value => negb (String.eqb value option)) values.
Proof.
  rewrite filter_app. cbn [filter]. rewrite String.eqb_refl. cbn [negb].
  apply List.app_nil_r.
Qed.

(** X2.  On a selection without repetition that lacks the option, checking
    the option keeps the selection without repetition, and unchecking it
    again gives the selection back. *)
Theorem toggleSelection_check_uncheck (values : list string) (option : string) :
  NoDup values -> ~ In option values ->
  NoDup (toggleSelection values option true) /\
  toggleSelection (toggleSelection values option true) option false = values.
Proof.
  intros Hnd Hnot.
  assert (Hon : toggleSelection values option true = (values ++ [option])%list).
  { unfold toggleSelection. apply mem_false in Hnot. now rewrite Hnot. }
  rewrite Hon. split.
  - apply NoDup_app; [exact Hnd | repeat constructor; intros [] |].
    intros x Hx [<- | []]. contradiction.
  - unfold toggleSelection.
    replace (Str.mem option (values ++ [option])) with true
      by (symmetry; apply mem_In, in_app_iff; right; now left).
    cbn [negb andb]. rewrite filter_app_last. now apply filter_neq_absent.
Qed.

Lemma toggleSelection_check_uncheck_witness :
  NoDup (toggleSelection ["ERROR"] "INFO" true) /\
  toggleSelection (toggleSelection ["ERROR"] "INFO" true) "INFO" false = ["ERROR"].
Proof.
  apply (toggleSelection_check_uncheck ["ERROR"] "INFO").
  - repeat constructor. intros [].
  - intros [H | []]. discriminate H.
Defined.

(** ** Filter options *)

Lemma applyFilters_selections (this : AppComponent) :
  searchText (applyFilters this) = searchText this /\
  selectedLevels (applyFilters this) = selectedLevels this /\
  selectedApplications (applyFilters this) = selectedApplications this /\
  selectedContexts (applyFilters this) = selectedContexts this.
Proof.
  unfold applyFilters.
  match goal with |- context [if ?c then _ else _] => destruct c end;
    repeat split; reflexivity.
Qed.

(** X3.  After [toggleFilterOption], [isFilterOptionSelected] answers the
    state of the check box for the toggled option of the toggled filter, and
    what it answered before for every other option and filter. *)
Theorem toggled_option_is_selected_as_checked
    (filterType : FilterType) (option : string) (checked : bool)
    (this : AppComponent) :
  isFilterOptionSelected filterType option
    (toggleFilterOption filterType option checked this) = checked /\
  (forall other,
     isFilterOptionSelected filterType other
       (toggleFilterOption filterType option checked this) =
     if String.eqb other option then checked
     else isFilterOptionSelected filterType other this) /\
  (forall otherType other,
     sameFilter otherType filterType = false ->
     isFilterOptionSelected otherType other
       (toggleFilterOption filterType option checked this) =
     isFilterOptionSelected otherType other this).
Proof.
  assert (Hmem : forall values other,
             Str.mem other (toggleSelection values option checked) =
             if String.eqb other option then checked else Str.mem other values).
  { intros values other. destruct (String.eqb_spec other option) as [-> | Hne].
    - apply toggleSelection_mem.
    - destruct (Str.mem other values) eqn:Hm.
      + apply mem_In. apply toggleSelection_In. apply mem_In in Hm.
        destruct checked; tauto.
      + apply mem_false. rewrite toggleSelection_In. apply mem_false in Hm.
        destruct checked; tauto. }
  unfold toggleFilterOption, isFilterOptionSelected.
  destruct (applyFilters_selections
              match filterType with
              | FilterLevel =>
                  setSelectedLevels (toggleSelection (selectedLevels this) option checked) this
              | FilterApplication =>
                  setSelectedApplications
                    (toggleSelection (selectedApplications this) option checked) this
              | FilterContext =>
                  setSelectedContexts
                    (toggleSelection (selectedContexts this) option checked) this
              end) as (_ & Hl & Ha & Hc).
  rewrite Hl, Ha, Hc.
  split; [| split].
  - destruct filterType;
      cbn [selectedLevels selectedApplications selectedContexts
           setSelectedLevels setSelectedApplications setSelectedContexts];
      rewrite Hmem; now rewrite String.eqb_refl.
  - intros other. destruct filterType;
      cbn [selectedLevels selectedApplications selectedContexts
           setSelectedLevels setSelectedApplications setSelectedContexts];
      apply Hmem.
  - intros otherType other Hdiff.
    destruct filterType, otherType; try discriminate Hdiff; reflexivity.
Qed.

Lemma toggled_option_is_selected_as_checked_witness :
  isFilterOptionSelected FilterApplication "chat"
    (toggleFilterOption FilterLevel "ERROR" true initial) =
  isFilterOptionSelected FilterApplication "chat" initial.
Proof.
  apply (toggled_option_is_selected_as_checked FilterLevel "ERROR" true initial).
  reflexivity.
Defined.

(** X4.  With no search text and no other selection, checking one level,
    application or context shows exactly the events that have it, whatever
    their other fields are. *)
Theorem single_selection_filters_by_equality
    (option : string) (this : AppComponent) :
  filteredEvents
    (toggleFilterOption FilterLevel option true (withFilters "" [] [] [] this)) =
    filter (fun e => String.eqb (EventView.level e) option) (eventViews this) /\
  filteredEvents
    (toggleFilterOption FilterApplication option true (withFilters "" [] [] [] this)) =
    filter (fun e => String.eqb (EventView.application e) option) (eventViews this) /\
  filteredEvents
    (toggleFilterOption FilterContext option true (withFilters "" [] [] [] this)) =
    filter (fun e => String.eqb (EventView.context e) option) (eventViews this).
Proof.
  unfold toggleFilterOption.
  repeat split; rewrite applyFilters_filteredEvents; cbn;
    apply filter_ext; intros e; now rewrite orb_false_r, ?andb_true_r.
Qed.

(** ** Expanded rows *)


(** ** Recomputing the filters *)

Lemma AppComponent_ext (a b : AppComponent) :
  fileName a = fileName b ->
  parseError a = parseError b ->
  applicationName a = applicationName b ->
  totalEvents a = totalEvents b ->
  metaEntries a = metaEntries b ->
  prettyMetaBlocks a = prettyMetaBlocks b ->
  searchText a = searchText b ->
  selectedLevels a = selectedLevels b ->
  selectedApplications a = selectedApplications b ->
  selectedContexts a = selectedContexts b ->
  levelOptions a = levelOptions b ->
  applicationOptions a = applicationOptions b ->
  contextOptions a = contextOptions b ->
  isLoaded a = isLoaded b ->
  expandedEventUid a = expandedEventUid b ->
  expandedMetaKey a = expandedMetaKey b ->
  filteredEvents a = filteredEvents b ->
  eventViews a = eventViews b ->
  a = b.
Proof.
  destruct a, b. cbn. intros. subst. reflexivity.
Qed.

Lemma applyFilters_frame (this : AppComponent) :
  fileName (applyFilters this) = fileName this /\
  parseError (applyFilters this) = parseError this /\
  applicationName (applyFilters this) = applicationName this /\
  totalEvents (applyFilters this) = totalEvents this /\
  metaEntries (applyFilters this) = metaEntries this /\
  prettyMetaBlocks (applyFilters this) = prettyMetaBlocks this /\
  searchText (applyFilters this) = searchText this /\
  selectedLevels (applyFilters this) = selectedLevels this /\
  selectedApplications (applyFilters this) = selectedApplications this /\
  selectedContexts (applyFilters this) = selectedContexts this /\
  levelOptions (applyFilters this) = levelOptions this /\
  applicationOptions (applyFilters this) = applicationOptions this /\
  contextOptions (applyFilters this) = contextOptions this /\
  isLoaded (applyFilters this) = isLoaded this /\
  expandedMetaKey (applyFilters this) = expandedMetaKey this /\
  eventViews (applyFilters this) = eventViews this.
Proof.
  unfold applyFilters.
  match goal with |- context [if ?c then _ else _] => destruct c end;
    repeat split; reflexivity.
Qed.

Lemma applyFilters_expanded (this : AppComponent) :
  expandedEventUid (applyFilters this) =
  if existsb (fun event => isUid (expandedEventUid this) (EventView.uid event))
       (filteredEvents (applyFilters this))
  then expandedEventUid this else None.
Proof.
  rewrite applyFilters_filteredEvents. unfold applyFilters, searchTerm.
  cbn [filteredEvents expandedEventUid setFilteredEvents].
  match goal with |- context [if negb ?c then _ else _] => destruct c end;
    reflexivity.
Qed.

Lemma filteredEvents_settled (this : AppComponent) :
  filteredEvents (applyFilters (applyFilters this)) = filteredEvents (applyFilters this).
Proof.
  rewrite (applyFilters_filteredEvents (applyFilters this)).
  rewrite (applyFilters_filteredEvents this).
  unfold searchTerm.
  destruct (applyFilters_frame this)
    as (_ & _ & _ & _ & _ & _ & Hs & Hl & Ha & Hc & _ & _ & _ & _ & _ & He).
  now rewrite Hs, Hl, Ha, Hc, He.
Qed.

(** X6.  Applying the filters keeps the expanded row exactly when one of
    the filtered events has its uid, and collapses it otherwise; applying
    them twice is applying them once. *)
Theorem applyFilters_is_idempotent (this : AppComponent) :
  expandedEventUid (applyFilters this) =
    (if existsb (fun event => isUid (expandedEventUid this) (EventView.uid event))
          (filteredEvents (applyFilters this))
     then expandedEventUid this else None) /\
  applyFilters (applyFilters this) = applyFilters this.
Proof.
  split; [apply applyFilters_expanded |].
  destruct (applyFilters_frame (applyFilters this))
    as (H1 & H2 & H3 & H4 & H5 & H6 & H7 & H8 & H9 & H10 & H11 & H12 & H13 & H14 &
        H15 & H16).
  apply AppComponent_ext; try assumption.
  - rewrite (applyFilters_expanded (applyFilters this)), filteredEvents_settled.
    rewrite (applyFilters_expanded this).
    destruct (existsb
                (fun event => isUid (expandedEventUid this) (EventView.uid event))
                (filteredEvents (applyFilters this))) eqn:Hvis.
    + now rewrite Hvis.
    + cbn [isUid].
      now destruct (existsb (fun _ => false) (filteredEvents (applyFilters this))).
  - apply filteredEvents_settled.
Qed.

(** ** The search text *)

Lemma isSpace_upperChar (c : ascii) : Str.isSpace (Str.upperChar c) = Str.isSpace c.
Proof. destruct c as [[] [] [] [] [] [] [] []]; reflexivity. Qed.

Lemma lowerChar_upperChar (c : ascii) :
  Str.lowerChar (Str.upperChar c) = Str.lowerChar c.
Proof. destruct c as [[] [] [] [] [] [] [] []]; reflexivity. Qed.

Lemma trimStart_map (f : ascii -> ascii) (s : string) :
  (forall c, Str.isSpace (f c) = Str.isSpace c) ->
  Str.trimStart (Str.map f s) = Str.map f (Str.trimStart s).
Proof.
  intros Hf. induction s as [| c s IH]; cbn [Str.map Str.trimStart]; [reflexivity |].
  rewrite Hf. destruct (Str.isSpace c); [exact IH | reflexivity].
Qed.

Lemma trimEnd_map (f : ascii -> ascii) (s : string) :
  (forall c, Str.isSpace (f c) = Str.isSpace c) ->
  Str.trimEnd (Str.map f s) = Str.map f (Str.trimEnd s).
Proof.
  intros Hf. induction s as [| c s IH]; cbn [Str.map Str.trimEnd]; [reflexivity |].
  rewrite IH, Hf. destruct (Str.trimEnd s); cbn [Str.map];
    [destruct (Str.isSpace c) |]; reflexivity.
Qed.

Lemma map_map_chars (f g : ascii -> ascii) (s : string) :
  Str.map f (Str.map g s) = Str.map (fun c => f (g c)) s.
Proof. induction s as [| c s IH]; cbn [Str.map]; [reflexivity | now rewrite IH]. Qed.

Lemma map_ext_chars (f g : ascii -> ascii) (s : string) :
  (forall c, f c = g c) -> Str.map f s = Str.map g s.
Proof.
  intros H. induction s as [| c s IH]; cbn [Str.map]; [reflexivity | now rewrite H, IH].
Qed.

Lemma toUpperCase_map (text : string) :
  allChars caseRoundTrips text = true ->
  Str.toUpperCase text = Str.map Str.upperChar text.
Proof.
  induction text as [| c text IH]; cbn [allChars Str.toUpperCase Str.map];
    [reflexivity |].
  intros H. apply andb_true_iff in H. destruct H as [Hc Htext].
  rewrite (IH Htext). unfold Str.upperUnits.
  destruct (Str.code c =? 223) eqn:Hsharp; [| reflexivity].
  unfold caseRoundTrips in Hc. rewrite Hsharp, orb_true_r in Hc. discriminate.
Qed.

Lemma term_of_uppercase (text : string) :
  allChars caseRoundTrips text = true ->
  Str.toLowerCase (Str.trim (Str.toUpperCase text)) = Str.toLowerCase (Str.trim text).
Proof.
  intros Htext. rewrite (toUpperCase_map text Htext).
  unfold Str.trim, Str.toLowerCase.
  rewrite trimStart_map, trimEnd_map by apply isSpace_upperChar.
  rewrite map_map_chars. apply map_ext_chars, lowerChar_upperChar.
Qed.

Lemma trimStart_spaces (pad s : string) :
  allChars Str.isSpace pad = true -> Str.trimStart (pad ++ s) = Str.trimStart s.
Proof.
  induction pad as [| c pad IH]; cbn [append allChars Str.trimStart]; [reflexivity |].
  intros H. apply andb_true_iff in H. destruct H as [Hc Hp]. rewrite Hc. now apply IH.
Qed.

Lemma trimEnd_spaces (s pad : string) :
  allChars Str.isSpace pad = true -> Str.trimEnd (s ++ pad) = Str.trimEnd s.
Proof.
  intros Hpad.
  assert (Hnil : Str.trimEnd pad = "").
  { induction pad as [| c pad IH]; cbn [Str.trimEnd allChars] in *; [reflexivity |].
    apply andb_true_iff in Hpad. destruct Hpad as [Hc Hp]. now rewrite (IH Hp), Hc. }
  induction s as [| c s IH]; cbn [append Str.trimEnd]; [exact Hnil | now rewrite IH].
Qed.

Lemma trimStart_append_spaces (s pad : string) :
  allChars Str.isSpace pad = true ->
  Str.trimStart (s ++ pad) = Str.trimStart s ++ pad \/
  (Str.trimStart s = "" /\ Str.trimStart (s ++ pad) = "").
Proof.
  intros Hpad. induction s as [| c s IH]; cbn [append Str.trimStart].
  - right. split; [reflexivity |].
    rewrite <- (append_nil_r pad). now rewrite trimStart_spaces.
  - destruct (Str.isSpace c); [exact IH | now left].
Qed.

Lemma trim_padding (before text after : string) :
  allChars Str.isSpace before = true -> allChars Str.isSpace after = true ->
  Str.trim (before ++ text ++ after) = Str.trim text.
Proof.
  intros Hb Ha. unfold Str.trim. rewrite trimStart_spaces by exact Hb.
  destruct (trimStart_append_spaces text after Ha) as [-> | [H1 H2]].
  - now apply trimEnd_spaces.
  - now rewrite H1, H2.
Qed.

Lemma onSearchInput_filteredEvents (text : string) (this : AppComponent) :
  filteredEvents (onSearchInput text this) =
  filter
    (fun e =>
       (negb (Str.nonEmpty (Str.toLowerCase (Str.trim text))) ||
        Str.includes (EventView.searchable e) (Str.toLowerCase (Str.trim text))) &&
       ((List.length (selectedLevels this) =? 0) ||
        Str.mem (EventView.level e) (selectedLevels this)) &&
       ((List.length (selectedApplications this) =? 0) ||
        Str.mem (EventView.application e) (selectedApplications this)) &&
       ((List.length (selectedContexts this) =? 0) ||
        Str.mem (EventView.context e) (selectedContexts this)))
    (eventViews this).
Proof.
  unfold onSearchInput, onFilterChange. now rewrite applyFilters_filteredEvents.
Qed.

(** X7.  The search ignores the white space around the text typed and,
    for a text without the sharp s, the micro sign and U+00FF, the case of
    its letters: such a text in upper case between two runs of white space
    filters as the text itself. *)
Theorem search_ignores_case_and_padding
    (before text after : string) (this : AppComponent) :
  allChars Str.isSpace before = true -> allChars Str.isSpace after = true ->
  allChars caseRoundTrips text = true ->
  filteredEvents (onSearchInput (before ++ Str.toUpperCase text ++ after) this) =
  filteredEvents (onSearchInput text this).
Proof.
  intros Hb Ha Htext. rewrite !onSearchInput_filteredEvents.
  now rewrite (trim_padding before _ after Hb Ha), (term_of_uppercase text Htext).
Qed.

Lemma search_ignores_case_and_padding_witness :
  filteredEvents
    (onSearchInput ("  " ++ Str.toUpperCase "err" ++ " ")
       (processJson (E := referenceEngine) exampleDocument "events.json" initial)) =
  filteredEvents
    (onSearchInput "err"
       (processJson (E := referenceEngine) exampleDocument "events.json" initial)).
Proof.
  apply (search_ignores_case_and_padding "  " "err" " "); reflexivity.
Defined.

Lemma isSubstring_trans (a b c : string) :
  isSubstring a b -> isSubstring b c -> isSubstring a c.
Proof.
  intros (x & y & ->) (u & v & ->).
  exists (u ++ x), (y ++ v). now rewrite !append_assoc.
Qed.

(** X8.  A search term that contains another one shows no event the other
    hides: with the same selections, the events filtered by the longer term
    are among those filtered by the term it contains. *)
Theorem longer_search_term_narrows (short long : string) (this : AppComponent) :
  isSubstring (Str.toLowerCase (Str.trim short)) (Str.toLowerCase (Str.trim long)) ->
  incl (filteredEvents (onSearchInput long this))
       (filteredEvents (onSearchInput short this)).
Proof.
  intros Hsub e. rewrite !onSearchInput_filteredEvents, !filter_In.
  intros [Hin Hkeep]. split; [exact Hin |].
  rewrite !andb_true_iff in Hkeep |- *.
  destruct Hkeep as [[[Hs Hl] Ha] Hc]. repeat split; try assumption.
  rewrite orb_true_iff, negb_true_iff, nonEmpty_false, includes_isSubstring in Hs |- *.
  destruct Hs as [Hs | Hs].
  - left. rewrite Hs in Hsub. destruct Hsub as ([| x a] & b & H); [| discriminate].
    cbn [append] in H.
    destruct (Str.toLowerCase (Str.trim short)); [reflexivity | discriminate].
  - right. eapply isSubstring_trans; eassumption.
Qed.

Lemma longer_search_term_narrows_witness :
  incl (filteredEvents (onSearchInput "Error 42" initial))
       (filteredEvents (onSearchInput "err" initial)).
Proof.
  apply (longer_search_term_narrows "err" "Error 42" initial).
  exists "", "or 42". reflexivity.
Defined.

(** ** Loading *)

Section LoadingProperties.

Context {E : JsEngine}.

(** X9.  A load discards the state before it: [loadFile] ends in the same
    state from any state, and [processJson] keeps nothing but [parseError]. *)
Theorem load_replaces_the_previous_state
    (name : string) (result : ReadResult) (parsed : JValue) (this : AppComponent) :
  loadFile name result this = loadFile name result initial /\
  processJson parsed name this =
    setParseError (parseError this) (processJson parsed name initial).
Proof.
  split.
  - unfold loadFile. destruct result as [rawText |]; [| reflexivity].
    destruct (negb (Str.nonEmpty (Str.trim rawText))); [reflexivity |].
    destruct (JSON_parse rawText); reflexivity.
  - unfold processJson, applyFilters.
    cbn [expandedEventUid filteredEvents setFilteredEvents resetViewerState initial
         searchText selectedLevels selectedApplications selectedContexts eventViews].
    match goal with |- context [if ?c then _ else _] => destruct c end; reflexivity.
Qed.




End LoadingProperties.


(** ** Option catalogs *)

Lemma dedupe_aux_In (seen xs : list string) (x : string) :
  In x (Str.dedupe_aux seen xs) <-> In x xs /\ ~ In x seen.
Proof.
  revert seen. induction xs as [| y xs IH]; intros seen; cbn [Str.dedupe_aux In].
  - tauto.
  - destruct (Str.mem y seen) eqn:Hy.
    + apply mem_In in Hy. rewrite IH. split; [tauto |].
      intros [[<- | H] Hn]; [contradiction | tauto].
    + apply mem_false in Hy. cbn [In]. rewrite IH. cbn [In]. split.
      * intros [<- | [H Hn]]; [tauto |]. split; [tauto |]. intros Hs. apply Hn. now right.
      * intros [[<- | H] Hn]; [now left |].
        destruct (String.eqb_spec y x) as [-> | Hne]; [now left |].
        right. split; [exact H |]. intros [C | C]; [congruence | contradiction].
Qed.

Lemma dedupe_aux_NoDup (seen xs : list string) : NoDup (Str.dedupe_aux seen xs).
Proof.
  revert seen. induction xs as [| y xs IH]; intros seen; cbn [Str.dedupe_aux].
  - constructor.
  - destruct (Str.mem y seen); [apply IH |].
    constructor; [| apply IH]. rewrite dedupe_aux_In. intros [_ H]. apply H. now left.
Qed.

Section Catalogs.

Context {E : JsEngine}.

Lemma uniqueOptions_spec (values : list string) :
  (forall x, In x (uniqueOptions values) <-> In x values) /\
  NoDup (uniqueOptions values) /\
  StronglySorted (fun a b => localeCompare a b <> Gt) (uniqueOptions values).
Proof.
  unfold uniqueOptions. split; [| split].
  - intros x. split; intros H.
    + apply (Permutation_in _ (Permutation_sym (sortBy_perm _ _))) in H.
      unfold Str.dedupe in H. now apply dedupe_aux_In in H.
    + apply (Permutation_in _ (sortBy_perm _ _)).
      unfold Str.dedupe. apply dedupe_aux_In. split; [exact H | intros []].
  - eapply Permutation_NoDup; [apply sortBy_perm | apply dedupe_aux_NoDup].
  - apply sortBy_sorted; [apply localeCompare_antisym | apply localeCompare_trans].
Qed.

Lemma processJson_options (parsed : JValue) (name : string) (this : AppComponent) :
  levelOptions (processJson parsed name this) =
    uniqueOptions (List.map EventView.level (eventViews (processJson parsed name this))) /\
  applicationOptions (processJson parsed name this) =
    uniqueOptions
      (List.map EventView.application (eventViews (processJson parsed name this))) /\
  contextOptions (processJson parsed name this) =
    uniqueOptions (List.map EventView.context (eventViews (processJson parsed name this))).
Proof.
  rewrite processJson_eventViews. unfold processJson.
  match goal with
  | |- context [applyFilters ?x] =>
      destruct (applyFilters_frame x)
        as (_ & _ & _ & _ & _ & _ & _ & _ & _ & _ & H11 & H12 & H13 & _)
  end.
  rewrite H11, H12, H13. repeat split; reflexivity.
Qed.

(** X11.  The option catalogs of a loaded document hold exactly the levels,
    applications and contexts of its normalized events, each once, in
    [localeCompare] order. *)
Theorem option_catalogs_are_the_distinct_sorted_values
    (parsed : JValue) (name : string) (this : AppComponent) :
  (forall x,
     In x (levelOptions (processJson parsed name this)) <->
     exists e, In e (eventViews (processJson parsed name this)) /\ EventView.level e = x) /\
  (forall x,
     In x (applicationOptions (processJson parsed name this)) <->
     exists e, In e (eventViews (processJson parsed name this)) /\
               EventView.application e = x) /\
  (forall x,
     In x (contextOptions (processJson parsed name this)) <->
     exists e, In e (eventViews (processJson parsed name this)) /\
               EventView.context e = x) /\
  NoDup (levelOptions (processJson parsed name this)) /\
  NoDup (applicationOptions (processJson parsed name this)) /\
  NoDup (contextOptions (processJson parsed name this)) /\
  StronglySorted (fun a b => localeCompare a b <> Gt)
    (levelOptions (processJson parsed name this)) /\
  StronglySorted (fun a b => localeCompare a b <> Gt)
    (applicationOptions (processJson parsed name this)) /\
  StronglySorted (fun a b => localeCompare a b <> Gt)
    (contextOptions (processJson parsed name this)).
Proof.
  destruct (processJson_options parsed name this) as (-> & -> & ->).
  assert (Hmap : forall (f : EventView.t -> string) l x,
             In x (List.map f l) <-> exists e, In e l /\ f e = x).
  { intros f l x. rewrite in_map_iff. split; intros (e & H1 & H2); exists e; tauto. }
  repeat split; try (intros H; apply Hmap; now apply uniqueOptions_spec);
    try (intros H; apply uniqueOptions_spec; now apply Hmap);
    apply uniqueOptions_spec.
Qed.

End Catalogs.

(** ** Normalized events *)

Lemma orElse_nonEmpty (a b : string) : b <> "" -> Str.orElse a b <> "".
Proof.
  intros Hb. unfold Str.orElse. destruct (Str.nonEmpty a) eqn:Ha; [| exact Hb].
  now apply nonEmpty_true.
Qed.

Lemma normalizeTimestamp_nonEmpty (value : option JValue) :
  normalizeTimestamp value <> "".
Proof.
  destruct value as [[| b | z | [] | s | items | props] |];
    try (rewrite normalizeTimestamp_number; apply ofZ_nonEmpty);
    unfold normalizeTimestamp;
    match goal with |- (if ?c then _ else _) <> _ => destruct c eqn:Hc end;
    try discriminate; now apply nonEmpty_true.
Qed.

Lemma inferLevelFrom_nonEmpty (candidates : list (option JValue)) :
  inferLevelFrom candidates <> "".
Proof.
  induction candidates as [| c rest IH]; cbn [inferLevelFrom]; [discriminate |].
  destruct (negb (Str.nonEmpty (valueToInlineString c))); [exact IH |].
  destruct (Str.nonEmpty (normalizeLevel (valueToInlineString c))) eqn:Hn; [| exact IH].
  now apply nonEmpty_true.
Qed.

Lemma extractMessage_nonEmpty (event : JRecord) (data : option JRecord) :
  extractMessage event data <> "".
Proof.
  unfold extractMessage.
  match goal with |- (if ?c then _ else _) <> _ => destruct c eqn:Hc end.
  - now apply nonEmpty_true.
  - destruct data as [d |]; [| discriminate].
    destruct (0 <? List.length (objectKeys d)); discriminate.
Qed.

Lemma append_nonEmpty_r (a b : string) : b <> "" -> a ++ b <> "".
Proof. destruct a; [auto | discriminate]. Qed.

(** X12.  No display field of a normalized event is empty: the id falls
    back to the position, the timestamp to a dash, the level to [UNKNOWN],
    the application to [unknown], the context to [none] and the message to
    a synthesized text. *)
Theorem normalized_event_fields_are_not_empty (eventValue : JValue) (index : nat) :
  EventView.id (toEventView eventValue index) <> "" /\
  EventView.uid (toEventView eventValue index) <> "" /\
  EventView.timestamp (toEventView eventValue index) <> "" /\
  EventView.level (toEventView eventValue index) <> "" /\
  EventView.application (toEventView eventValue index) <> "" /\
  EventView.context (toEventView eventValue index) <> "" /\
  EventView.message (toEventView eventValue index) <> "".
Proof.
  unfold toEventView.
  cbn [EventView.id EventView.uid EventView.timestamp EventView.level
       EventView.application EventView.context EventView.message].
  repeat split.
  - apply orElse_nonEmpty. unfold Str.ofNat. apply ofZ_nonEmpty.
  - apply append_nonEmpty_r. discriminate.
  - apply normalizeTimestamp_nonEmpty.
  - apply inferLevelFrom_nonEmpty.
  - apply orElse_nonEmpty. discriminate.
  - apply orElse_nonEmpty. discriminate.
  - apply extractMessage_nonEmpty.
Qed.

(** ** Levels and tones *)

Lemma toUpperCase_append (a b : string) :
  Str.toUpperCase (a ++ b) = Str.toUpperCase a ++ Str.toUpperCase b.
Proof.
  induction a as [| c a IH]; cbn [append Str.toUpperCase]; [reflexivity |].
  now rewrite IH, append_assoc.
Qed.

Lemma toUpperCase_upperUnits (c : ascii) :
  Str.toUpperCase (Str.upperUnits c) = Str.upperUnits c.
Proof. destruct c as [[] [] [] [] [] [] [] []]; reflexivity. Qed.

Lemma toUpperCase_toUpperCase (s : string) :
  Str.toUpperCase (Str.toUpperCase s) = Str.toUpperCase s.
Proof.
  induction s as [| c s IH]; cbn [Str.toUpperCase]; [reflexivity |].
  now rewrite toUpperCase_append, toUpperCase_upperUnits, IH.
Qed.

Lemma normalizeLevel_toUpperCase (value : string) :
  normalizeLevel (Str.toUpperCase value) = normalizeLevel value.
Proof. unfold normalizeLevel. now rewrite toUpperCase_toUpperCase. Qed.

Lemma normalizeLevel_cases (value : string) :
  In (normalizeLevel value) ["CRITICAL"; "ERROR"; "WARNING"; "DEBUG"; "TRACE"; "INFO"; ""] \/
  normalizeLevel value = Str.toUpperCase value.
Proof.
  unfold normalizeLevel.
  repeat match goal with
         | |- context [if ?c then _ else _] => destruct c
         end;
    try (right; reflexivity);
    left; cbn [In]; repeat (first [left; reflexivity | right]).
Qed.

Lemma normalizeLevel_normalizeLevel (value : string) :
  normalizeLevel (normalizeLevel value) = normalizeLevel value.
Proof.
  destruct (normalizeLevel_cases value) as [H | H].
  - cbn [In] in H.
    repeat (destruct H as [H | H]; [rewrite <- H; reflexivity |]). contradiction.
  - rewrite H at 1. apply normalizeLevel_toUpperCase.
Qed.

Lemma toUpperCase_normalizeLevel (value : string) :
  Str.toUpperCase (normalizeLevel value) = normalizeLevel value.
Proof.
  destruct (normalizeLevel_cases value) as [H | H].
  - cbn [In] in H.
    repeat (destruct H as [H | H]; [rewrite <- H; reflexivity |]). contradiction.
  - rewrite H. apply toUpperCase_toUpperCase.
Qed.

Lemma inferLevelFrom_cases (candidates : list (option JValue)) :
  inferLevelFrom candidates = "UNKNOWN" \/
  exists text, inferLevelFrom candidates = normalizeLevel text.
Proof.
  induction candidates as [| c rest IH]; cbn [inferLevelFrom]; [now left |].
  destruct (negb (Str.nonEmpty (valueToInlineString c))); [exact IH |].
  destruct (Str.nonEmpty (normalizeLevel (valueToInlineString c))); [| exact IH].
  right. now exists (valueToInlineString c).
Qed.

(** X13.  [normalizeLevel] is idempotent and its results are in upper
    case; the level of every normalized event is such a result, so
    normalizing it again changes nothing. *)
Theorem event_level_is_a_normal_form (value : string) (eventValue : JValue) (index : nat) :
  normalizeLevel (normalizeLevel value) = normalizeLevel value /\
  Str.toUpperCase (normalizeLevel value) = normalizeLevel value /\
  normalizeLevel (EventView.level (toEventView eventValue index)) =
    EventView.level (toEventView eventValue index) /\
  Str.toUpperCase (EventView.level (toEventView eventValue index)) =
    EventView.level (toEventView eventValue index).
Proof.
  split; [apply normalizeLevel_normalizeLevel |].
  split; [apply toUpperCase_normalizeLevel |].
  unfold toEventView. cbn [EventView.level]. unfold inferLevel.
  destruct (inferLevelFrom_cases
              (levelCandidates (eventRecord eventValue)
                 (asRecord (getProp (eventRecord eventValue) "data"))
                 (asRecord (getProp (eventRecord eventValue) "metaData"))))
    as [-> | [text ->]].
  - split; reflexivity.
  - split; [apply normalizeLevel_normalizeLevel | apply toUpperCase_normalizeLevel].
Qed.

Lemma getLevelTone_toUpperCase (level : string) :
  getLevelTone (Str.toUpperCase level) = getLevelTone level.
Proof. unfold getLevelTone. now rewrite toUpperCase_toUpperCase. Qed.

(** X14.  Normalizing a level keeps its badge tone: an accepted level text
    and its normalized name have the same tone, except the abbreviation
    [ERR], which has the neutral tone as written and the error tone once
    normalized to [ERROR]. *)
Theorem normalized_level_keeps_the_tone (text : string) :
  normalizeLevel text <> "" ->
  getLevelTone (normalizeLevel text) =
    if String.eqb (Str.toUpperCase text) "ERR" then ToneError else getLevelTone text.
Proof.
  intros Hn. unfold normalizeLevel in *. unfold getLevelTone at 2.
  set (upper := Str.toUpperCase text) in *.
  destruct (Str.includes upper "CRITICAL") eqn:H1.
  { cbn [orb] in *. rewrite orb_true_r. cbn [orb].
    destruct (String.eqb upper "ERR"); reflexivity. }
  destruct (Str.includes upper "FATAL") eqn:H2.
  { cbn [orb] in *. rewrite orb_true_r.
    destruct (String.eqb upper "ERR"); reflexivity. }
  cbn [orb] in *.
  destruct (Str.includes upper "ERROR") eqn:H3.
  { cbn [orb] in *. destruct (String.eqb upper "ERR"); reflexivity. }
  cbn [orb] in *.
  destruct (String.eqb upper "ERR") eqn:H4; [reflexivity |].
  destruct (Str.includes upper "WARN") eqn:H5; [reflexivity |].
  destruct (Str.includes upper "DEBUG") eqn:H6; [reflexivity |].
  destruct (Str.includes upper "TRACE") eqn:H7; [reflexivity |].
  destruct (Str.includes upper "INFO") eqn:H8; [reflexivity |].
  cbn [orb] in *.
  destruct (String.eqb_spec upper "LOG") as [Hlog | Hlog].
  { rewrite Hlog. reflexivity. }
  destruct (isLevelToken upper) eqn:H9; [| congruence].
  unfold upper at 1. rewrite getLevelTone_toUpperCase. unfold getLevelTone.
  fold upper. rewrite H1, H2, H3, H5, H6, H7, H8. reflexivity.
Qed.

Lemma normalized_level_keeps_the_tone_witness :
  normalizeLevel "warn" <> "" /\
  getLevelTone (normalizeLevel "warn") = getLevelTone "warn".
Proof.
  split; [discriminate |].
  apply (normalized_level_keeps_the_tone "warn"). discriminate.
Defined.

(** ** The raw JSON preview *)

Lemma ser_nonEmpty (gap indent : string) (v : JValue) : Json.ser gap indent v <> "".
Proof.
  destruct v as [| [] | z | [] | s | [| item items] | [| prop props]]; cbn [Json.ser append];
    try discriminate.
  apply ofZ_nonEmpty.
Qed.

Lemma length_slice0 (n : nat) (s : string) : String.length (Str.slice0 n s) <= n.
Proof.
  unfold Str.slice0. revert s.
  induction n as [| n IH]; intros [| c s]; cbn [substring String.length]; try lia.
  specialize (IH s). lia.
Qed.

Lemma length_previewText (rawJson : string) :
  String.length (previewText rawJson) <= maxChars + 37.
Proof.
  unfold previewText. destruct (maxChars <? String.length rawJson) eqn:Hlong.
  - rewrite length_append.
    assert (Hmark : String.length
                      (Json.LF ++ "... [truncated at " ++ Str.ofNat maxChars ++
                       " characters]") = 37)
      by (vm_compute; reflexivity).
    rewrite Hmark. pose proof (length_slice0 maxChars rawJson) as Hs.
    revert Hs. generalize maxChars. intros m Hs. lia.
  - apply Nat.ltb_ge in Hlong. revert Hlong. generalize maxChars. intros m Hm. lia.
Qed.

Lemma previewText_nonEmpty (rawJson : string) : rawJson <> "" -> previewText rawJson <> "".
Proof.
  intros Hne. unfold previewText. destruct (maxChars <? String.length rawJson); [| exact Hne].
  intros Habs. apply (f_equal String.length) in Habs.
  rewrite !length_append in Habs. cbn [Json.LF String.length] in Habs. lia.
Qed.

Section Preview.

Context {T : Type} `{JsonPreviewTarget T}.

(** X15.  [getMetaRawJson] computes the text of a target once: the text is
    not empty, it is left in the cache of the target, whose raw value is
    unchanged, and asking again returns the same text and the same target.
    A text that was computed has at most [maxChars] characters and the 37 of
    the truncation notice. *)
Theorem raw_json_preview_is_computed_once (target : T) :
  fst (getMetaRawJson target) <> "" /\
  rawJsonCache (snd (getMetaRawJson target)) = Some (fst (getMetaRawJson target)) /\
  rawValue (snd (getMetaRawJson target)) = rawValue target /\
  getMetaRawJson (snd (getMetaRawJson target)) = getMetaRawJson target /\
  (rawJsonCache target = Some (fst (getMetaRawJson target)) \/
   String.length (fst (getMetaRawJson target)) <= maxChars + 37).
Proof.
  assert (Hfresh : forall text, text <> "" ->
            getMetaRawJson (setRawJsonCache text target) =
              (text, setRawJsonCache text target)).
  { intros text Hne. unfold getMetaRawJson. rewrite rawJsonCache_set.
    destruct (Str.nonEmpty text) eqn:Ht; [reflexivity |].
    now apply nonEmpty_false in Ht. }
  assert (Htext : previewText (toJsonString (rawValue target) 2) <> "")
    by apply previewText_nonEmpty, ser_nonEmpty.
  assert (Hres : (exists cache, rawJsonCache target = Some cache /\ cache <> "" /\
                     getMetaRawJson target = (cache, target)) \/
                 getMetaRawJson target =
                   (previewText (toJsonString (rawValue target) 2),
                    setRawJsonCache (previewText (toJsonString (rawValue target) 2))
                      target)).
  { unfold getMetaRawJson. destruct (rawJsonCache target) as [cache |]; [| now right].
    destruct (Str.nonEmpty cache) eqn:Hne; [| now right].
    left. exists cache. apply nonEmpty_true in Hne. now repeat split. }
  destruct Hres as [(cache & Hcache & Hne & Hres) | Hres]; rewrite Hres; cbn [fst snd].
  - repeat split; try assumption. now left.
  - rewrite (Hfresh _ Htext), rawJsonCache_set, rawValue_set.
    repeat split; try assumption. right. apply length_previewText.
Qed.

Context {E : JsEngine}.

(** X16.  For a target with no cached text, whose raw value is as
    [JSON.parse] builds values (numbers in range, the properties of every
    object distinct and in enumeration order) and whose serialization fits
    in [maxChars] characters, the first preview is that serialization, and
    [JSON.parse] of it gives the raw value as [JSON.stringify] writes it:
    every infinite number replaced by [null] and negative zero by zero.  It
    is the raw value itself exactly when the value holds neither. *)
Theorem first_preview_parses_back (target : T) :
  rawJsonCache target = None ->
  Producible.wellFormed (rawValue target) = true ->
  String.length (toJsonString (rawValue target) 2) <= maxChars ->
  fst (getMetaRawJson target) = Json.stringify (rawValue target) 2 /\
  JSON_parse (fst (getMetaRawJson target)) =
    Parsed (Producible.written (rawValue target)) /\
  (Producible.written (rawValue target) = rawValue target <->
   Producible.lossless (rawValue target) = true).
Proof.
  intros Hcache Hwf Hlen.
  assert (Htext : fst (getMetaRawJson target) = Json.stringify (rawValue target) 2).
  { unfold getMetaRawJson. rewrite Hcache. cbn [fst]. unfold previewText.
    apply Nat.ltb_ge in Hlen. now rewrite Hlen. }
  split; [exact Htext |]. split; [| now apply written_fixed].
  rewrite Htext. apply JSON_parse_reference. now apply parse_stringify.
Qed.

End Preview.

(** An entry whose value holds an infinite number: the preview reads back
    with [null] in its place. *)
Lemma first_preview_parses_back_witness :
  @JSON_parse referenceEngine
    (fst (getMetaRawJson
            {| MetaEntry.key := "build"; MetaEntry.value := "Object(2 keys): version, limit";
               MetaEntry.rawValue :=
                 JObj [("version", JNum 7); ("limit", JSpecial PositiveInfinity)];
               MetaEntry.rawJsonCache := None |})) =
  Parsed (JObj [("version", JNum 7); ("limit", JNull)]).
Proof.
  refine (proj1 (proj2
            (@first_preview_parses_back MetaEntry.t MetaEntry_target referenceEngine
               {| MetaEntry.key := "build";
                  MetaEntry.value := "Object(2 keys): version, limit";
                  MetaEntry.rawValue :=
                    JObj [("version", JNum 7); ("limit", JSpecial PositiveInfinity)];
                  MetaEntry.rawJsonCache := None |} _ _ _))).
  - reflexivity.
  - vm_compute. reflexivity.
  - apply Nat.leb_le. vm_compute. reflexivity.
Defined.

(** ** Highlights and summaries *)

(** X17.  [compactHighlights] keeps no blank value and no long one: every
    highlight is the trimmed text of an input, or its first 137 characters
    and an ellipsis, is not empty and has at most 140 characters. *)
Theorem highlights_are_not_empty_and_short (values : list string) :
  List.length (compactHighlights values) <= List.length values /\
  (forall h, In h (compactHighlights values) ->
     h <> "" /\ String.length h <= 140 /\
     exists value, In value values /\
       (h = Str.trim value \/ h = Str.slice0 137 (Str.trim value) ++ "...")).
Proof.
  induction values as [| value rest [IHlen IH]]; cbn [compactHighlights].
  - split; [apply Nat.le_refl | intros h []].
  - destruct (Str.nonEmpty (Str.trim value)) eqn:Hne; cbn [negb].
    + split; [cbn [List.length]; lia |].
      intros h [<- | Hin].
      * destruct (140 <? String.length (Str.trim value)) eqn:Hlong.
        -- split; [now apply append_nonEmpty_r |]. split.
           ++ rewrite length_append. pose proof (length_slice0 137 (Str.trim value)).
              cbn [String.length]. lia.
           ++ exists value. split; [now left | now right].
        -- apply Nat.ltb_ge in Hlong. split; [now apply nonEmpty_true |].
           split; [exact Hlong |]. exists value. split; now left.
      * destruct (IH h Hin) as (H1 & H2 & v & Hv & Hh).
        split; [exact H1 |]. split; [exact H2 |]. exists v. split; [now right | exact Hh].
    + split; [cbn [List.length]; lia |].
      intros h Hin. destruct (IH h Hin) as (H1 & H2 & v & Hv & Hh).
      split; [exact H1 |]. split; [exact H2 |]. exists v. split; [now right | exact Hh].
Qed.

Lemma highlights_are_not_empty_and_short_witness :
  "b" <> "" /\ String.length "b" <= 140 /\
  exists value, In value [" b "; ""] /\
    ("b" = Str.trim value \/ "b" = Str.slice0 137 (Str.trim value) ++ "...").
Proof.
  apply (highlights_are_not_empty_and_short [" b "; ""]). left. reflexivity.
Defined.

Lemma summarizeMetaValue_nonEmpty (value : JValue) : summarizeMetaValue value <> "".
Proof.
  unfold summarizeMetaValue.
  destruct (Str.nonEmpty (valueToInlineString (Some value))) eqn:Hne.
  - destruct (180 <? String.length (valueToInlineString (Some value)));
      [now apply append_nonEmpty_r | now apply nonEmpty_true].
  - destruct value as [| [] | z | [] | s | items | props]; cbn [valueToInlineString] in Hne;
      try discriminate.
    apply nonEmpty_false in Hne. now apply ofZ_nonEmpty in Hne.
Qed.

(** X18.  The summary of a metadata value is never empty, and the summary
    of a value that is neither an array nor an object has at most 180
    characters. *)
Theorem summary_is_not_empty_and_bounded (value : JValue) :
  summarizeMetaValue value <> "" /\
  match value with
  | JArr _ | JObj _ => True
  | _ => String.length (summarizeMetaValue value) <= 180
  end.
Proof.
  split; [apply summarizeMetaValue_nonEmpty |]. unfold summarizeMetaValue.
  destruct (Str.nonEmpty (valueToInlineString (Some value))) eqn:Hne.
  - destruct (180 <? String.length (valueToInlineString (Some value))) eqn:Hlong.
    + assert (Hlen : String.length
                       (Str.slice0 177 (valueToInlineString (Some value)) ++ "...") <= 180).
      { rewrite length_append.
        pose proof (length_slice0 177 (valueToInlineString (Some value))).
        cbn [String.length]. lia. }
      destruct value; try exact I; exact Hlen.
    + apply Nat.ltb_ge in Hlong. destruct value; try exact I; exact Hlong.
  - destruct value as [| [] | z | [] | s | items | props]; cbn [valueToInlineString] in Hne;
      try discriminate; try exact I.
    + cbn. lia.
    + apply nonEmpty_false in Hne. now apply ofZ_nonEmpty in Hne.
    + apply nonEmpty_false in Hne. subst s. cbn. lia.
Qed.

(** ** Metadata blocks and entries *)

Lemma map_key_pushIf (blocks : list PrettyMetadataBlock.t)
    (block : option PrettyMetadataBlock.t) :
  List.map PrettyMetadataBlock.key (pushIf blocks block) =
    (List.map PrettyMetadataBlock.key blocks ++
     match block with
     | Some b => [PrettyMetadataBlock.key b]
     | None => []
     end)%list.
Proof.
  destruct block as [b |]; cbn [pushIf].
  - now rewrite List.map_app.
  - now rewrite List.app_nil_r.
Qed.

Section Metadata.

Context {E : JsEngine}.

Lemma buildWidgetsBlock_key (meta : JRecord) (templates : list JRecord)
    (block : PrettyMetadataBlock.t) :
  buildWidgetsBlock meta templates = Some block -> PrettyMetadataBlock.key block = "widgets".
Proof.
  unfold buildWidgetsBlock.
  match goal with |- (if ?c then _ else _) = _ -> _ => destruct c end; [discriminate |].
  intros Hb. injection Hb as <-. reflexivity.
Qed.

Lemma buildPrettyMetaBlocks_keys (meta : option JRecord) :
  exists keep : string -> bool,
    List.map PrettyMetadataBlock.key (buildPrettyMetaBlocks meta) =
      filter keep prettyMetaKeys.
Proof.
  destruct meta as [meta |]; [| exists (fun _ => false); reflexivity].
  unfold buildPrettyMetaBlocks. rewrite !map_key_pushIf.
  destruct (buildWidgetsBlock meta (toRecordArray (getProp meta "templates")))
    as [widgets |] eqn:Hw;
    [apply buildWidgetsBlock_key in Hw; rewrite Hw |];
    destruct (asRecord (getProp meta "browser"));
    destruct (asRecord (getProp meta "agent"));
    destruct (asRecord (getProp meta "settings"));
    destruct (0 <? List.length (toRecordArray (getProp meta "templates")));
    unfold buildBrowserBlock, buildAgentBlock, buildSettingsBlock, buildTemplatesBlock;
    cbn [option_map PrettyMetadataBlock.key List.map List.app];
    match goal with
    | |- exists keep, ?l = _ => exists (fun k => Str.mem k l); reflexivity
    end.
Qed.

Lemma In_pushIf {A : Type} (blocks : list A) (block : option A) (b : A) :
  In b (pushIf blocks block) <-> In b blocks \/ block = Some b.
Proof.
  destruct block as [b' |]; cbn [pushIf].
  - rewrite in_app_iff. cbn [In]. split.
    + intros [H | [-> | []]]; [now left | now right].
    + intros [H | H]; [now left |]. injection H as ->. right. now left.
  - split; [now left | intros [H | H]; [exact H | discriminate]].
Qed.

Lemma buildPrettyMetaBlocks_cache (meta : option JRecord) (block : PrettyMetadataBlock.t) :
  In block (buildPrettyMetaBlocks meta) -> PrettyMetadataBlock.rawJsonCache block = None.
Proof.
  destruct meta as [meta |]; cbn [buildPrettyMetaBlocks]; [| intros []].
  rewrite !In_pushIf. cbn [In].
  intros [[[[[[] | H] | H] | H] | H] | H].
  - destruct (asRecord (getProp meta "browser")); [| discriminate].
    injection H as <-. reflexivity.
  - destruct (asRecord (getProp meta "agent")); [| discriminate].
    injection H as <-. reflexivity.
  - destruct (asRecord (getProp meta "settings")); [| discriminate].
    injection H as <-. reflexivity.
  - destruct (0 <? List.length (toRecordArray (getProp meta "templates")));
      [| discriminate].
    injection H as <-. reflexivity.
  - unfold buildWidgetsBlock in H.
    match type of H with (if ?c then _ else _) = _ => destruct c end; [discriminate |].
    injection H as <-. reflexivity.
Qed.

Lemma extractMetaEntries_key (meta : option JRecord) (entry : MetaEntry.t) :
  In entry (extractMetaEntries meta) ->
  ~ In (MetaEntry.key entry) prettyMetaKeys /\
  MetaEntry.rawJsonCache entry = None /\
  MetaEntry.value entry = summarizeMetaValue (MetaEntry.rawValue entry) /\
  getOpt meta (MetaEntry.key entry) <> None.
Proof.
  destruct meta as [meta |]; cbn [extractMetaEntries]; [| intros []].
  rewrite in_map_iff. intros ([k v] & <- & Hin).
  apply (Permutation_in _ (Permutation_sym (sortBy_perm _ _))) in Hin.
  apply filter_In in Hin. destruct Hin as [Hin Hkeep].
  cbn [fst snd MetaEntry.key MetaEntry.rawJsonCache MetaEntry.value MetaEntry.rawValue]
    in *.
  apply negb_true_iff in Hkeep. apply mem_false in Hkeep.
  repeat split; try assumption.
  cbn [getOpt]. clear Hkeep. induction meta as [| [k' v'] meta IH]; [destruct Hin |].
  cbn [getProp]. destruct (String.eqb k' k) eqn:Hk; [discriminate |].
  destruct Hin as [Heq | Hin]; [| now apply IH].
  injection Heq as -> ->. now rewrite String.eqb_refl in Hk.
Qed.

(** X19.  The pretty blocks come in the fixed order browser, agent,
    settings, templates, widgets, each at most once; no generic entry has
    the key of a block; every entry shows the summary of a value the
    metadata record holds under its key, and no block or entry starts with
    a cached preview. *)
Theorem blocks_and_entries_share_no_key (meta : option JRecord) :
  (exists keep : string -> bool,
     List.map PrettyMetadataBlock.key (buildPrettyMetaBlocks meta) =
       filter keep prettyMetaKeys) /\
  NoDup (List.map PrettyMetadataBlock.key (buildPrettyMetaBlocks meta)) /\
  (forall block entry,
     In block (buildPrettyMetaBlocks meta) -> In entry (extractMetaEntries meta) ->
     PrettyMetadataBlock.key block <> MetaEntry.key entry) /\
  (forall entry,
     In entry (extractMetaEntries meta) ->
     MetaEntry.value entry = summarizeMetaValue (MetaEntry.rawValue entry) /\
     MetaEntry.value entry <> "" /\
     getOpt meta (MetaEntry.key entry) <> None /\
     MetaEntry.rawJsonCache entry = None) /\
  (forall block,
     In block (buildPrettyMetaBlocks meta) ->
     PrettyMetadataBlock.rawJsonCache block = None).
Proof.
  destruct (buildPrettyMetaBlocks_keys meta) as [keep Hkeys].
  split; [now exists keep |]. split; [| split; [| split]];
    [| | | apply buildPrettyMetaBlocks_cache].
  - rewrite Hkeys. apply NoDup_filter.
    unfold prettyMetaKeys. repeat constructor; cbn [In]; intuition discriminate.
  - intros block entry Hb He Heq.
    apply extractMetaEntries_key in He. destruct He as [Hnot _]. apply Hnot.
    rewrite <- Heq.
    assert (Hin : In (PrettyMetadataBlock.key block)
                    (List.map PrettyMetadataBlock.key (buildPrettyMetaBlocks meta)))
      by now apply in_map.
    rewrite Hkeys in Hin. now apply filter_In in Hin.
  - intros entry He. apply extractMetaEntries_key in He.
    destruct He as (_ & Hcache & Hvalue & Hget).
    repeat split; try assumption.
    rewrite Hvalue. apply summarizeMetaValue_nonEmpty.
Qed.

End Metadata.

Lemma blocks_and_entries_share_no_key_witness :
  PrettyMetadataBlock.key (buildBrowserBlock [("name", JStr "Firefox")]) <>
  MetaEntry.key
    {| MetaEntry.key := "version"; MetaEntry.value := "1";
       MetaEntry.rawValue := JNum 1; MetaEntry.rawJsonCache := None |}.
Proof.
  apply (blocks_and_entries_share_no_key (E := referenceEngine)
           (Some [("browser", JObj [("name", JStr "Firefox")]); ("version", JNum 1)])).
  - left. reflexivity.
  - left. reflexivity.
Defined.

(** ** The widget catalog and the templates *)

Lemma list_sum_cons (n : nat) (l : list nat) : list_sum (n :: l) = n + list_sum l.
Proof. reflexivity. Qed.

Lemma length_flat_map_sum {A B : Type} (f : A -> list B) (l : list A) :
  List.length (flat_map f l) = list_sum (List.map (fun x => List.length (f x)) l).
Proof.
  induction l as [| x l IH]; cbn [flat_map List.map]; [reflexivity |].
  now rewrite list_sum_cons, List.length_app, IH.
Qed.

Lemma list_sum_le {A : Type} (f g : A -> nat) (l : list A) :
  (forall x, f x <= g x) -> list_sum (List.map f l) <= list_sum (List.map g l).
Proof.
  intros H. induction l as [| x l IH]; cbn [List.map]; [apply Nat.le_refl |].
  rewrite !list_sum_cons. specialize (H x). lia.
Qed.

Lemma fold_left_add {A : Type} (f : A -> nat) (l : list A) (start : nat) :
  fold_left (fun count x => count + f x) l start = start + list_sum (List.map f l).
Proof.
  revert start. induction l as [| x l IH]; intros start; cbn [fold_left List.map].
  - cbn. lia.
  - rewrite IH, list_sum_cons. lia.
Qed.

Lemma countTemplateWidgetRefs_sum (template : JRecord) :
  countTemplateWidgetRefs template =
    list_sum
      (List.map (fun tabs => list_sum (List.map (@List.length JValue) (tabWidgets tabs)))
         (templateTabs template)).
Proof.
  unfold countTemplateWidgetRefs.
  assert (H : forall l start,
             fold_left
               (fun count tabs =>
                  fold_left (fun count widgets => count + List.length widgets)
                    (tabWidgets tabs) count) l start =
             start +
             list_sum
               (List.map
                  (fun tabs => list_sum (List.map (@List.length JValue) (tabWidgets tabs)))
                  l)).
  { induction l as [| tabs l IH]; intros start; cbn [fold_left List.map].
    - cbn. lia.
    - rewrite IH, fold_left_add, list_sum_cons. lia. }
  now rewrite H.
Qed.

(** X20.  The widget names read from the templates are never more than
    the widget references counted in them, and a template counts as many
    tabs as its role layouts have tab entries. *)
Theorem template_widget_names_are_within_the_references (templates : list JRecord) :
  List.length (extractTemplateWidgetNames templates) <=
    fold_left (fun n template => n + countTemplateWidgetRefs template) templates 0 /\
  (forall template,
     countTemplateTabs template =
       list_sum (List.map (fun tabs => List.length (objectKeys tabs))
                   (templateTabs template))).
Proof.
  split.
  - rewrite fold_left_add. cbn [Nat.add]. unfold extractTemplateWidgetNames.
    rewrite length_flat_map_sum. apply list_sum_le. intros template.
    rewrite countTemplateWidgetRefs_sum, length_flat_map_sum.
    apply list_sum_le. intros tabs. rewrite length_flat_map_sum.
    apply list_sum_le. intros widgets.
    etransitivity; [apply filter_length_le |]. now rewrite List.length_map.
  - intros template. unfold countTemplateTabs. now rewrite fold_left_add.
Qed.

Section WidgetCatalog.

Context {E : JsEngine}.

(** X21.  [parseWidgetCatalog] never fails: an empty text, a text that
    [JSON.parse] refuses and a text that is not an array give the empty
    catalog; an array gives one record for each of its object entries, and
    every record has the five fields name, metadataName, description,
    library and enabled. *)
Theorem widget_catalog_has_a_record_per_object (rawWidgets : string) :
  (if Str.nonEmpty rawWidgets
   then match JSON_parse rawWidgets with
        | Parsed (JArr entries) =>
            List.length (parseWidgetCatalog rawWidgets) =
              List.length (toRecordArray (Some (JArr entries)))
        | _ => parseWidgetCatalog rawWidgets = []
        end
   else parseWidgetCatalog rawWidgets = []) /\
  (forall widget,
     In widget (parseWidgetCatalog rawWidgets) ->
     objectKeys widget = ["name"; "metadataName"; "description"; "library"; "enabled"]).
Proof.
  unfold parseWidgetCatalog.
  destruct (Str.nonEmpty rawWidgets); cbn [negb]; [| split; [reflexivity | intros w []]].
  destruct (JSON_parse rawWidgets) as [[| b | z | x | s | entries | props] | message];
    try (split; [reflexivity | intros w []]).
  split.
  - unfold toRecordArray. rewrite !length_flat_map_sum. f_equal.
    apply map_ext. intros entry. now destruct (asRecord (Some entry)).
  - intros widget Hin. apply in_flat_map in Hin. destruct Hin as (entry & _ & Hin).
    destruct (asRecord (Some entry)) as [w |]; [| destruct Hin].
    destruct Hin as [<- | []]. reflexivity.
Qed.

End WidgetCatalog.

Lemma widget_catalog_has_a_record_per_object_witness :
  objectKeys
    [ ("name", JStr "clock"); ("metadataName", JStr ""); ("description", JStr "");
      ("library", JStr ""); ("enabled", JBool false) ] =
  ["name"; "metadataName"; "description"; "library"; "enabled"].
Proof.
  apply (widget_catalog_has_a_record_per_object (E := referenceEngine)
           (Json.stringify (JArr [JObj [("name", JStr "clock")]]) 0)).
  left. vm_compute. reflexivity.
Defined.

(** ** The application name *)

Lemma inferApplicationFromEvents_sample (events : list JValue) :
  inferApplicationFromEvents events = inferApplicationFromEvents (firstn 100 events).
Proof.
  unfold inferApplicationFromEvents.
  rewrite !firstn_min_length, firstn_firstn. reflexivity.
Qed.

Section ApplicationName.

Context {E : JsEngine}.

(** X22.  Only the first hundred events are sampled for the application
    name: the name inferred from a list of events is the one inferred from
    its first hundred; and the name of a loaded document is never empty. *)
Theorem application_name_samples_a_hundred_events
    (events : list JValue) (parsed : JValue) (name : string) (this : AppComponent) :
  inferApplicationFromEvents events = inferApplicationFromEvents (firstn 100 events) /\
  applicationName (processJson parsed name this) <> "".
Proof.
  split; [apply inferApplicationFromEvents_sample |].
  unfold processJson.
  match goal with
  | |- context [applyFilters ?x] =>
      destruct (applyFilters_frame x) as (_ & _ & H3 & _)
  end.
  rewrite H3. cbn [applicationName].
  apply orElse_nonEmpty, orElse_nonEmpty. discriminate.
Qed.

End ApplicationName.

(** ** Labels *)









(** ** Searching for the fields of an event *)

Lemma isSpace_lowerChar (c : ascii) : Str.isSpace (Str.lowerChar c) = Str.isSpace c.
Proof. destruct c as [[] [] [] [] [] [] [] []]; reflexivity. Qed.

Lemma map_append (f : ascii -> ascii) (a b : string) :
  Str.map f (a ++ b) = Str.map f a ++ Str.map f b.
Proof. induction a as [| x a IH]; cbn [append Str.map]; [reflexivity | now rewrite IH]. Qed.

Lemma isSubstring_map (f : ascii -> ascii) (t s : string) :
  isSubstring t s -> isSubstring (Str.map f t) (Str.map f s).
Proof.
  intros (a & b & ->). exists (Str.map f a), (Str.map f b). now rewrite !map_append.
Qed.

Lemma trimEnd_step (c : ascii) (r : string) :
  Str.trimEnd (String c r) =
    match Str.trimEnd r with
    | EmptyString => if Str.isSpace c then EmptyString else String c EmptyString
    | r' => String c r'
    end.
Proof. reflexivity. Qed.

Lemma trimStart_head (s : string) :
  Str.trimStart s = "" \/
  exists c r, Str.trimStart s = String c r /\ Str.isSpace c = false.
Proof.
  induction s as [| c s IH]; cbn [Str.trimStart]; [now left |].
  destruct (Str.isSpace c) eqn:Hc; [exact IH |]. right. now exists c, s.
Qed.

Lemma length_trimStart (s : string) : String.length (Str.trimStart s) <= String.length s.
Proof.
  induction s as [| c s IH]; cbn [Str.trimStart]; [apply Nat.le_refl |].
  destruct (Str.isSpace c); cbn [String.length]; lia.
Qed.

Lemma trimEnd_trimEnd (s : string) : Str.trimEnd (Str.trimEnd s) = Str.trimEnd s.
Proof.
  induction s as [| c s IH]; [reflexivity |].
  rewrite (trimEnd_step c s). destruct (Str.trimEnd s) as [| d r] eqn:Hr.
  - destruct (Str.isSpace c) eqn:Hc; [reflexivity |].
    rewrite trimEnd_step. cbn [Str.trimEnd]. now rewrite Hc.
  - rewrite trimEnd_step, IH. reflexivity.
Qed.

Lemma trim_fixed (s : string) :
  Str.trimStart (Str.trim s) = Str.trim s /\ Str.trimEnd (Str.trim s) = Str.trim s.
Proof.
  unfold Str.trim. split; [| apply trimEnd_trimEnd].
  destruct (trimStart_head s) as [-> | (c & r & -> & Hc)]; [reflexivity |].
  rewrite trimEnd_step.
  destruct (Str.trimEnd r); [rewrite Hc |]; cbn [Str.trimStart]; now rewrite Hc.
Qed.

Lemma trimStart_keeps (a t b : string) :
  t <> "" -> Str.trimStart t = t ->
  exists a', Str.trimStart (a ++ t ++ b) = a' ++ t ++ b.
Proof.
  destruct t as [| c t]; [congruence |]. intros _ Ht.
  assert (Hc : Str.isSpace c = false).
  { cbn [Str.trimStart] in Ht. destruct (Str.isSpace c); [| reflexivity].
    pose proof (length_trimStart t) as Hlen. rewrite Ht in Hlen.
    cbn [String.length] in Hlen. lia. }
  induction a as [| x a IH]; cbn [append Str.trimStart].
  - exists "". now rewrite Hc.
  - destruct (Str.isSpace x); [exact IH |]. now exists (String x a).
Qed.

Lemma trimEnd_append (x y : string) :
  Str.trimEnd y <> "" -> Str.trimEnd (x ++ y) = x ++ Str.trimEnd y.
Proof.
  intros Hy. induction x as [| c x IH]; cbn [append]; [reflexivity |].
  rewrite trimEnd_step, IH.
  destruct (x ++ Str.trimEnd y) eqn:Hxy; [| reflexivity].
  destruct x; cbn [append] in Hxy; [contradiction | discriminate].
Qed.

Lemma trimEnd_nil_spaces (s : string) :
  Str.trimEnd s = "" -> allChars Str.isSpace s = true.
Proof.
  induction s as [| c s IH]; [reflexivity |].
  rewrite trimEnd_step. cbn [allChars].
  destruct (Str.trimEnd s); [| discriminate].
  destruct (Str.isSpace c); [| discriminate]. intros _. now rewrite IH.
Qed.

Lemma trimEnd_keeps (a t b : string) :
  t <> "" -> Str.trimEnd t = t ->
  exists b', Str.trimEnd (a ++ t ++ b) = a ++ t ++ b'.
Proof.
  intros Hne Ht. destruct (Str.trimEnd b) as [| d r] eqn:Hb.
  - exists "". apply trimEnd_nil_spaces in Hb.
    assert (Htb : Str.trimEnd (t ++ b) = t) by now rewrite trimEnd_spaces.
    rewrite trimEnd_append; rewrite Htb; [| exact Hne]. now rewrite append_nil_r.
  - exists (Str.trimEnd b).
    assert (Htb : Str.trimEnd (t ++ b) = t ++ Str.trimEnd b)
      by (apply trimEnd_append; rewrite Hb; discriminate).
    rewrite trimEnd_append; rewrite Htb; [reflexivity |].
    destruct t; [congruence | discriminate].
Qed.

Lemma isSubstring_trim (t s : string) :
  t <> "" -> Str.trimStart t = t -> Str.trimEnd t = t ->
  isSubstring t s -> isSubstring t (Str.trim s).
Proof.
  intros Hne Hstart Hend (a & b & ->). unfold Str.trim.
  destruct (trimStart_keeps a t b Hne Hstart) as [a' ->].
  destruct (trimEnd_keeps a' t b Hne Hend) as [b' ->].
  now exists a', b'.
Qed.

Lemma term_is_trimmed (text : string) :
  Str.trimStart (Str.toLowerCase (Str.trim text)) = Str.toLowerCase (Str.trim text) /\
  Str.trimEnd (Str.toLowerCase (Str.trim text)) = Str.toLowerCase (Str.trim text).
Proof.
  unfold Str.toLowerCase. destruct (trim_fixed text) as [Hs He].
  rewrite trimStart_map, trimEnd_map by apply isSpace_lowerChar.
  now rewrite Hs, He.
Qed.

Lemma searchable_fields (eventValue : JValue) (index : nat) (field : string) :
  In field [ EventView.id (toEventView eventValue index);
             EventView.timestamp (toEventView eventValue index);
             EventView.level (toEventView eventValue index);
             EventView.application (toEventView eventValue index);
             EventView.context (toEventView eventValue index);
             EventView.message (toEventView eventValue index);
             EventView.lineTitle (toEventView eventValue index) ] ->
  exists raw,
    EventView.searchable (toEventView eventValue index) =
      Str.trim (Str.toLowerCase
                  (EventView.id (toEventView eventValue index) ++ " " ++
                   EventView.lineTitle (toEventView eventValue index) ++ " " ++ raw)) /\
    isSubstring field
      (EventView.id (toEventView eventValue index) ++ " " ++
       EventView.lineTitle (toEventView eventValue index) ++ " " ++ raw).
Proof.
  unfold toEventView.
  cbn [EventView.id EventView.timestamp EventView.level EventView.application
       EventView.context EventView.message EventView.lineTitle EventView.searchable].
  set (event := eventRecord eventValue).
  set (data := asRecord (getProp event "data")).
  set (id := Str.orElse _ (Str.ofNat (index + 1))).
  set (timestamp := normalizeTimestamp _).
  set (level := inferLevel _ _ _).
  set (application := Str.orElse _ "unknown").
  set (context := Str.orElse _ "none").
  set (message := extractMessage _ _).
  set (raw := if 1800 <? _ then _ else _).
  intros Hin. exists raw. split; [reflexivity |].
  cbn [In] in Hin.
  destruct Hin as [<- | [<- | [<- | [<- | [<- | [<- | [<- | []]]]]]]].
  - exists "". eexists. cbn [append]. reflexivity.
  - exists (id ++ " "). eexists. rewrite !append_assoc. reflexivity.
  - exists (id ++ " " ++ timestamp ++ " | "). eexists. rewrite !append_assoc. reflexivity.
  - exists (id ++ " " ++ timestamp ++ " | " ++ level ++ " | "). eexists.
    rewrite !append_assoc. reflexivity.
  - exists (id ++ " " ++ timestamp ++ " | " ++ level ++ " | " ++ application ++ " | ").
    eexists. rewrite !append_assoc. reflexivity.
  - exists (id ++ " " ++ timestamp ++ " | " ++ level ++ " | " ++ application ++ " | " ++
            context ++ " | ").
    eexists. rewrite !append_assoc. reflexivity.
  - exists (id ++ " "). eexists. rewrite !append_assoc. reflexivity.
Qed.

(** X24.  An event is found by searching for a part of what its row shows:
    with no option selected, a text whose trimmed lower-case form occurs in
    the lower-case id, timestamp, level, application, context, message or
    line title of an event keeps that event in the filtered list. *)
Theorem event_is_found_by_its_fields
    (eventValue : JValue) (index : nat) (field text : string) (this : AppComponent) :
  In (toEventView eventValue index) (eventViews this) ->
  selectedLevels this = [] -> selectedApplications this = [] ->
  selectedContexts this = [] ->
  In field [ EventView.id (toEventView eventValue index);
             EventView.timestamp (toEventView eventValue index);
             EventView.level (toEventView eventValue index);
             EventView.application (toEventView eventValue index);
             EventView.context (toEventView eventValue index);
             EventView.message (toEventView eventValue index);
             EventView.lineTitle (toEventView eventValue index) ] ->
  isSubstring (Str.toLowerCase (Str.trim text)) (Str.toLowerCase field) ->
  In (toEventView eventValue index) (filteredEvents (onSearchInput text this)).
Proof.
  intros Hin Hl Ha Hc Hfield Hsub.
  rewrite onSearchInput_filteredEvents, filter_In. split; [exact Hin |].
  rewrite Hl, Ha, Hc. cbn [List.length Nat.eqb orb]. rewrite !andb_true_r.
  destruct (Str.nonEmpty (Str.toLowerCase (Str.trim text))) eqn:Hne; [| reflexivity].
  cbn [negb orb]. apply nonEmpty_true in Hne.
  apply includes_isSubstring.
  destruct (searchable_fields eventValue index field Hfield) as (raw & -> & Hraw).
  destruct (term_is_trimmed text) as [Hs He].
  apply isSubstring_trim; try assumption.
  eapply isSubstring_trans; [exact Hsub |].
  now apply isSubstring_map.
Qed.

Lemma event_is_found_by_its_fields_witness :
  In (toEventView (JObj [("id", JStr "7"); ("message", JStr "Disk FULL")]) 0)
     (filteredEvents
        (onSearchInput " full "
           (processJson (E := referenceEngine)
              (JArr [JObj [("id", JStr "7"); ("message", JStr "Disk FULL")]])
              "events.json" initial))).
Proof.
  apply (event_is_found_by_its_fields
           (JObj [("id", JStr "7"); ("message", JStr "Disk FULL")]) 0 "Disk FULL").
  - left. reflexivity.
  - reflexivity.
  - reflexivity.
  - reflexivity.
  - do 5 right. left. reflexivity.
  - exists "disk ", "". reflexivity.
Defined.

(** ** Selecting every option *)

Lemma filter_all_in {A : Type} (f : A -> bool) (l : list A) :
  (forall x, In x l -> f x = true) -> filter f l = l.
Proof.
  induction l as [| x l IH]; cbn [filter]; intros H; [reflexivity |].
  rewrite (H x) by now left. rewrite IH; [reflexivity |].
  intros y Hy. apply H. now right.
Qed.

Section EveryOption.

Context {E : JsEngine}.

(** X25.  Checking every option of the three catalogs of a loaded document
    hides no event: the filtered list is the whole normalized list, as with
    no option checked. *)
Theorem selecting_every_option_hides_nothing
    (parsed : JValue) (name : string) (this : AppComponent) :
  filteredEvents
    (applyFilters
       (withFilters ""
          (levelOptions (processJson parsed name this))
          (applicationOptions (processJson parsed name this))
          (contextOptions (processJson parsed name this))
          (processJson parsed name this))) =
  eventViews (processJson parsed name this).
Proof.
  rewrite applyFilters_filteredEvents.
  destruct (processJson_options parsed name this) as (Hl & Ha & Hc).
  set (loaded := processJson parsed name this) in *.
  unfold withFilters, searchTerm.
  cbn [searchText selectedLevels selectedApplications selectedContexts eventViews
       setSelectedContexts setSelectedApplications setSelectedLevels setSearchText].
  apply filter_all_in. intros e He.
  change (Str.nonEmpty (Str.toLowerCase (Str.trim ""))) with false. cbn [negb orb andb].
  rewrite !andb_true_iff, !orb_true_iff. repeat split; right; apply mem_In.
  - rewrite Hl. apply uniqueOptions_spec. now apply in_map.
  - rewrite Ha. apply uniqueOptions_spec. now apply in_map.
  - rewrite Hc. apply uniqueOptions_spec. now apply in_map.
Qed.

End EveryOption.

(** ** First candidates *)

Lemma firstInline_app (a b : list (option JValue)) :
  firstInline (a ++ b)%list = Str.orElse (firstInline a) (firstInline b).
Proof.
  induction a as [| v a IH]; cbn [List.app firstInline]; [reflexivity |].
  destruct (Str.nonEmpty (valueToInlineString v)) eqn:Hv.
  - unfold Str.orElse. now rewrite Hv.
  - exact IH.
Qed.

(** X26.  [firstInline] and [firstDefined] return the first usable
    candidate: over two lists in a row they try the first list and then the
    second; [firstInline] is empty exactly when no candidate has an inline
    string, and is otherwise the inline string of a candidate;
    [firstDefined] never returns [null]. *)
Theorem first_candidates_compose (a b : list (option JValue)) :
  firstInline (a ++ b)%list = Str.orElse (firstInline a) (firstInline b) /\
  firstDefined (a ++ b)%list =
    match firstDefined a with
    | Some v => Some v
    | None => firstDefined b
    end /\
  (firstInline a = "" <-> forall v, In v a -> valueToInlineString v = "") /\
  (firstInline a = "" \/
   exists v, In v a /\ valueToInlineString v = firstInline a) /\
  firstDefined a <> Some JNull.
Proof.
  split; [apply firstInline_app |]. split; [| split; [| split]].
  - induction a as [| [[| x | z | x0 | s | items | props] |] a IH];
      cbn [List.app firstDefined]; try reflexivity; exact IH.
  - induction a as [| v a IH]; cbn [firstInline In]; [tauto |].
    destruct (Str.nonEmpty (valueToInlineString v)) eqn:Hv.
    + apply nonEmpty_true in Hv. split; [contradiction |].
      intros H. exfalso. apply Hv, H. now left.
    + apply nonEmpty_false in Hv. rewrite IH. split.
      * intros H x [<- | Hx]; [exact Hv | now apply H].
      * intros H x Hx. apply H. now right.
  - induction a as [| v a IH]; cbn [firstInline In]; [now left |].
    destruct (Str.nonEmpty (valueToInlineString v)) eqn:Hv.
    + right. exists v. split; [now left | reflexivity].
    + destruct IH as [IH | (x & Hx & Heq)]; [now left |].
      right. exists x. split; [now right | exact Heq].
  - induction a as [| [[| x | z | x0 | s | items | props] |] a IH];
      cbn [firstDefined]; try discriminate; exact IH.
Qed.

(** ** Settings facts *)

Lemma join_nonEmpty (sep first : string) (rest : list string) :
  first <> "" -> Str.join sep (first :: rest) <> "".
Proof.
  intros Hne. unfold Str.join. cbn [concat].
  destruct rest; [exact Hne |]. destruct first; [congruence | discriminate].
Qed.

Lemma firstn_In {A : Type} (n : nat) (l : list A) (x : A) :
  In x (firstn n l) -> In x l.
Proof.
  intros H. rewrite <- (firstn_skipn n l). apply in_or_app. now left.
Qed.

Lemma prettyValue_nonEmpty (value : option JValue) : prettyValue value <> "".
Proof.
  unfold prettyValue. destruct (Str.nonEmpty (valueToInlineString value)) eqn:Hne;
    [now apply nonEmpty_true |].
  destruct value as [[| b | z | x | s | elements | props] |]; try discriminate.
  set (items := firstn 5 _).
  destruct items as [| first rest] eqn:Hitems; cbn [List.length Nat.eqb]; [discriminate |].
  assert (Hfirst : In first items) by (rewrite Hitems; now left).
  unfold items in Hfirst. apply firstn_In, filter_In in Hfirst.
  destruct Hfirst as [_ Hfirst]. apply nonEmpty_true in Hfirst.
  intros Habs. apply (join_nonEmpty ", " first rest Hfirst).
  destruct (Str.join ", " (first :: rest)); [reflexivity | discriminate].
Qed.

(** X27.  [prettyValue] is never empty, and the settings block shows only
    facts with a value: each fact is the label and the value of a selected
    key, no fact has the value [n/a], and there are at most eleven. *)
Theorem settings_facts_have_values (settings : JRecord) (value : option JValue) :
  prettyValue value <> "" /\
  List.length (PrettyMetadataBlock.facts (buildSettingsBlock settings)) <= 11 /\
  (forall f,
     In f (PrettyMetadataBlock.facts (buildSettingsBlock settings)) ->
     PrettyFact.value f <> "n/a" /\ PrettyFact.value f <> "" /\
     exists key, In key selectedKeys /\
       PrettyFact.label f = prettyLabel key /\
       PrettyFact.value f = prettyValue (getProp settings key)).
Proof.
  split; [apply prettyValue_nonEmpty |].
  unfold buildSettingsBlock. cbn [PrettyMetadataBlock.facts]. split.
  - etransitivity; [apply filter_length_le |]. now rewrite List.length_map.
  - intros f Hf. apply filter_In in Hf. destruct Hf as [Hin Hkeep].
    apply in_map_iff in Hin. destruct Hin as (key & <- & Hkey).
    cbn [fact PrettyFact.value PrettyFact.label] in *.
    apply negb_true_iff, String.eqb_neq in Hkeep.
    split; [exact Hkeep |]. split; [apply prettyValue_nonEmpty |].
    now exists key.
Qed.

Lemma settings_facts_have_values_witness :
  PrettyFact.value (fact "Hotdesk" "true") <> "n/a" /\
  PrettyFact.value (fact "Hotdesk" "true") <> "" /\
  exists key, In key selectedKeys /\
    PrettyFact.label (fact "Hotdesk" "true") = prettyLabel key /\
    PrettyFact.value (fact "Hotdesk" "true") =
      prettyValue (getProp [("hotdesk", JBool true)] key).
Proof.
  apply (settings_facts_have_values [("hotdesk", JBool true)] None).
  left. reflexivity.
Defined.

(** ** Examples *)

Example iso_of_the_epoch : DateIso.toISOString 0 = Some "1970-01-01T00:00:00.000Z".
Proof. vm_compute. reflexivity. Qed.

Example iso_of_a_leap_day :
  DateIso.toISOString 951782400000 = Some "2000-02-29T00:00:00.000Z".
Proof. vm_compute. reflexivity. Qed.

Example iso_before_the_epoch :
  DateIso.toISOString (-1) = Some "1969-12-31T23:59:59.999Z".
Proof. vm_compute. reflexivity. Qed.

Example iso_out_of_range : DateIso.toISOString 8640000000000001 = None.
Proof. vm_compute. reflexivity. Qed.

Example level_of_err : normalizeLevel "err" = "ERROR".
Proof. reflexivity. Qed.

Example level_of_one_letter : normalizeLevel "x" = "".
Proof. reflexivity. Qed.

Example label_of_a_setting : prettyLabel "isWebRTC" = "Is Web RTC".
Proof. reflexivity. Qed.

Example label_with_separators : prettyLabel "max_defer--time" = "Max Defer Time".
Proof. reflexivity. Qed.

Example example_event :
  List.map
    (fun e => (EventView.uid e, EventView.level e, EventView.levelTone e,
               EventView.lineTitle e))
    (mapi toEventView
       (extractEvents exampleDocument (asRecord (Some exampleDocument)))) =
  [("0-1", "ERROR", ToneError, "1700000000 | ERROR | unknown | none | x")].
Proof. vm_compute. reflexivity. Qed.

Example object_keys_in_enumeration_order :
  Json.buildObject [("b", JNum 1); ("10", JNum 2); ("2", JNum 3); ("b", JNum 4)] =
  [("2", JNum 3); ("10", JNum 2); ("b", JNum 4)].
Proof. vm_compute. reflexivity. Qed.

Example parse_of_the_example_text :
  Json.parse (Json.stringify exampleDocument 2) = Some exampleDocument.
Proof. vm_compute. reflexivity. Qed.

Example level_of_sharp_s : normalizeLevel (String (ascii_of_nat 223) "") = "SS".
Proof. reflexivity. Qed.

Example lower_case_of_an_accented_letter :
  Str.toLowerCase ("CAF" ++ String (ascii_of_nat 201) "") =
  "caf" ++ String (ascii_of_nat 233) "".
Proof. reflexivity. Qed.

Example numbers_of_the_embedding :
  Json.parse "[1e3, 0.5e1, -0, 1e400, -1e400, 1e-400]" =
  Some (JArr [JNum 1000; JNum 5; JSpecial NegativeZero; JSpecial PositiveInfinity;
              JSpecial NegativeInfinity; JNum 0]).
Proof. vm_compute. reflexivity. Qed.

Example numbers_outside_the_embedding :
  Json.parse "[1.5]" = None /\ Json.parse "[9007199254740993]" = None.
Proof. split; vm_compute; reflexivity. Qed.
